(** * geminiService: the client-side orchestration layer of the SOP assistant

    A shallow embedding of [services/geminiService.ts].  Every exported
    function of the module is an [async] function that reads the module-level
    client [ai], talks to the remote backend and either resolves or rejects.
    Here a function is a computation in the monad [M]: it takes the [World]
    (the module state together with the trace of observable effects) and
    yields an [Outcome] and the world after the call.  The remote service is
    a [Backend]: a table of canned replies, in the way a test double is. *)

From Stdlib Require Import ZArith String Ascii List Lia.
From stdpp Require Import base option list strings gmap.

Local Open Scope string_scope.

(** ** JavaScript values the module handles *)

(** [e.message] of the exceptions that can travel through the module:
    the ones it constructs itself with [new Error(...)], the two built-in
    ones that its own expressions can raise, and whatever a backend promise
    rejects with. *)
Inductive Exn : Type :=
| Error (message : string)
| TypeError
| SyntaxError
| BackendError (detail : string).

(** The two errors the module raises on its own, under the names the
    design gives to them. *)
Definition BackendUnavailable : Exn := Error "Gemini AI not initialized".
Definition InvalidResponse : Exn :=
  Error "Failed to create RAG store: name is missing.".

(** Truthiness of an optional string: [undefined] and [''] are falsy.
    The result is what TypeScript narrows the value to when the test
    passes, the string itself. *)
Definition truthy (s : option string) : option string :=
  match s with
  | Some s => if String.eqb s "" then None else Some s
  | None => None
  end.

(** Truthiness of an optional boolean: only [true] is truthy. *)
Definition truthy_bool (b : option bool) : bool :=
  match b with
  | Some b => b
  | None => false
  end.

(** ** Wire records *)

(** [FileSearchStore] of the SDK: both fields are optional. *)
Record FileSearchStore : Type := {
  fss_name : option string;
  fss_displayName : option string
}.

(** [RagStore] of [types.ts]: both fields are required. *)
Record RagStore : Type := {
  name : string;
  displayName : string
}.

Record CustomMetadata : Type := {
  key : string;
  stringValue : string
}.

(** [File] of the SDK as the listing returns it.  [Document] is the same
    object: the module pushes [doc as Document], a cast. *)
Record Document : Type := {
  doc_name : option string;
  doc_displayName : option string;
  doc_customMetadata : option (list CustomMetadata)
}.

(** The browser [File] handed to an upload. *)
Record JsFile : Type := {
  file_name : string;
  file_bytes : list Byte.byte
}.

(** A long-running operation: handle, completion flag, failure payload. *)
Record Operation : Type := {
  op_name : option string;
  done : option bool;
  error : option string
}.

Record UploadParams : Type := {
  fileSearchStoreName : string;
  file : JsFile;
  up_displayName : option string;
  customMetadata : option (list CustomMetadata)
}.

Record GroundingChunk : Type := {
  retrievedText : option string
}.

Record GroundingMetadata : Type := {
  gm_groundingChunks : option (list GroundingChunk)
}.

Record Candidate : Type := {
  groundingMetadata : option GroundingMetadata
}.

Record GenerateContentResponse : Type := {
  text : option string;
  candidates : option (list Candidate)
}.

Record GenerateParams : Type := {
  model : string;
  contents : string;
  fileSearchStoreNames : list string
}.

Record QueryResult : Type := {
  qr_text : option string;
  qr_groundingChunks : list GroundingChunk
}.

(** ** The backend and the world *)

(** A [Pager] is what [list()] resolves to: the replies to the successive
    page requests.  The first is the reply to [list()] itself, each later one
    the reply to the request the iterator issues when a page is used up. *)
Definition Pager (A : Type) : Type := list (Exn + list A).

Record Backend : Type := {
  fileSearchStores_list : Pager FileSearchStore;
  files_list : Pager Document;
  fileSearchStores_create : string -> Exn + FileSearchStore;
  fileSearchStores_delete : string -> bool -> Exn + unit;
  files_delete : string -> Exn + unit;
  uploadToFileSearchStore : UploadParams -> Exn + Operation;
  (** reply to the [n]-th status request the backend has served *)
  operations_get : nat -> Operation -> Exn + Operation;
  models_generateContent : GenerateParams -> Exn + GenerateContentResponse
}.

Inductive BackendCall : Type :=
| StoresList
| StoresNextPage
| FilesList
| FilesNextPage
| StoresCreate (displayName : string)
| StoresDelete (name : string) (force : bool)
| FilesDelete (name : string)
| UploadToFileSearchStore (p : UploadParams)
| OperationsGet (op : Operation)
| GenerateContent (p : GenerateParams).

Inductive Event : Type :=
| Call (c : BackendCall)
| Sleep (ms : Z)
| ConsoleWarn
| ConsoleError (e : Exn).

Record GoogleGenAI : Type := {
  apiKey : option string
}.

(** [ai] is the module-level [let ai: GoogleGenAI], undefined until
    [initialize] runs; [trace] is every effect so far, oldest first;
    [polls] counts the status requests the backend has served. *)
Record World : Type := {
  ai : option GoogleGenAI;
  trace : list Event;
  polls : nat
}.

Definition emit (ev : Event) (w : World) : World :=
  {| ai := ai w; trace := (trace w ++ [ev])%list; polls := polls w |}.

(** ** Promises as a monad *)

(** How an awaited call ends.  [Pending] is the promise that has not
    settled within the steps the model was allowed to take: only the polling
    loop can produce it. *)
Inductive Outcome (A : Type) : Type :=
| Returned (a : A)
| Thrown (e : Exn)
| Pending.
Arguments Returned {A} a.
Arguments Thrown {A} e.
Arguments Pending {A}.

Definition M (A : Type) : Type := World -> Outcome A * World.

Definition ret {A} (a : A) : M A := fun w => (Returned a, w).
Definition throw {A} (e : Exn) : M A := fun w => (Thrown e, w).
Definition bind {A B} (m : M A) (k : A -> M B) : M B :=
  fun w =>
    match m w with
    | (Returned a, w') => k a w'
    | (Thrown e, w') => (Thrown e, w')
    | (Pending, w') => (Pending, w')
    end.

Declare Scope js_scope.
Delimit Scope js_scope with js.
Notation "'let*' x := m 'in' k" := (bind m (fun x => k))
  (at level 10, x name, m at level 100, k at level 200) : js_scope.
Notation "m ;; k" := (bind m (fun _ => k))
  (at level 100, k at level 200, right associativity) : js_scope.
Local Open Scope js_scope.

(** [try { body } catch (error) { handler }] *)
Definition try_catch {A} (body : M A) (handler : Exn -> M A) : M A :=
  fun w =>
    match body w with
    | (Thrown e, w') => handler e w'
    | r => r
    end.

Definition log (ev : Event) : M unit := fun w => (Returned tt, emit ev w).

(** [await] of a backend request: the request is recorded, then the
    promise settles the way the backend replies. *)
Definition await {A} (c : BackendCall) (reply : Exn + A) : M A :=
  log (Call c);;
  match reply with
  | inl e => throw e
  | inr a => ret a
  end.

(** [if (!ai) throw new Error("Gemini AI not initialized")]: an object is
    always truthy, so the guard fires exactly when [ai] is undefined. *)
Definition require_ai : M GoogleGenAI :=
  fun w =>
    match ai w with
    | Some client => (Returned client, w)
    | None => (Thrown BackendUnavailable, w)
    end.

(** [delay(ms)]: a timer, nothing else. *)
Definition delay (ms : Z) : M unit := log (Sleep ms).

(** ** Strings

    A text is a [string] of 8-bit characters.  Every pattern the module
    searches for is ASCII, so the slices taken here are the slices the
    JavaScript code takes, whatever the encoding of the rest of the text. *)

Definition LF : string := String (ascii_of_nat 10) EmptyString.
Definition DQ : string := String (ascii_of_nat 34) EmptyString.

(** [s.startsWith(p)] *)
Definition startsWith (s p : string) : bool := String.prefix p s.

(** [s.indexOf(p)], [None] for [-1] *)
Definition indexOf (s p : string) : option nat := String.index 0 p s.

(** [s.lastIndexOf(c)] for a one-character [c], [None] for [-1] *)
Fixpoint lastIndexOf_from (i : nat) (c : ascii) (s : string) (found : option nat)
  : option nat :=
  match s with
  | EmptyString => found
  | String a rest =>
      lastIndexOf_from (S i) c rest (if Ascii.eqb a c then Some i else found)
  end.

Definition lastIndexOf (s : string) (c : ascii) : option nat :=
  lastIndexOf_from 0 c s None.

(** [s.substring(i, j)] for [i <= j] *)
Definition substring (i j : nat) (s : string) : string :=
  String.substring i (j - i) s.

(** [s.match(/```json\n([\s\S]*?)\n```/)], reduced to its capture group.
    The leftmost opening fence that has a closing fence after it is the
    leftmost opening fence at all, and the lazy group stops at the first
    closing fence behind it. *)
Definition match_json_fence (s : string) : option string :=
  let opening := "```json" ++ LF in
  let closing := LF ++ "```" in
  match indexOf s opening with
  | Some i =>
      let rest := String.substring (i + String.length opening)
                    (String.length s - (i + String.length opening)) s in
      match indexOf rest closing with
      | Some j => Some (String.substring 0 j rest)
      | None => None
      end
  | None => None
  end.

(** The text handed to the parser: the capture group of the fence when
    there is a match with a non-empty group, else the slice from the first
    opening bracket to the last closing one when both exist in that order,
    else the text as it is. *)
Definition extract_json (jsonText : string) : string :=
  match match_json_fence jsonText ≫= (fun group => truthy (Some group)) with
  | Some group => group
  | None =>
      match indexOf jsonText "[", lastIndexOf jsonText "]"%char with
      | Some firstBracket, Some lastBracket =>
          if Nat.ltb firstBracket lastBracket
          then substring firstBracket (lastBracket + 1) jsonText
          else jsonText
      | _, _ => jsonText
      end
  end.

(** The two prompts, as the template literals build them. *)
Definition fileSearch_contents (query languageName : string) : string :=
  query ++ LF ++ LF ++ "IMPORTANT: Please respond in " ++ languageName
  ++ ". DO NOT ASK THE USER TO READ THE MANUAL, pinpoint the relevant sections in the response itself.".

Definition exampleQuestions_contents (languageName : string) : string :=
  "You are provided with Standard Operating Procedure (SOP) documents from a manufacturing environment. For each document, generate 4 short and practical example questions a user might ask about the procedures in "
  ++ languageName
  ++ ". Return the questions as a JSON array of objects. Each object should have a 'product' key (representing the SOP topic, e.g., 'Machine Calibration') and a 'questions' key with an array of 4 question strings. For example: ```json[{"
  ++ DQ ++ "product" ++ DQ ++ ": " ++ DQ ++ "Machine Calibration SOP" ++ DQ
  ++ ", " ++ DQ ++ "questions" ++ DQ ++ ": ["
  ++ DQ ++ "What is the first step in calibration?" ++ DQ ++ ", "
  ++ DQ ++ "How often should this machine be calibrated?" ++ DQ ++ "]}, {"
  ++ DQ ++ "product" ++ DQ ++ ": " ++ DQ ++ "Assembly Line Safety" ++ DQ
  ++ ", " ++ DQ ++ "questions" ++ DQ ++ ": ["
  ++ DQ ++ "What personal protective equipment is required?" ++ DQ ++ ", "
  ++ DQ ++ "What is the emergency shutdown procedure?" ++ DQ ++ "]}]```".

(** ** The exported functions *)

(** What the constructor of the client raises, in the browser build of the
    SDK, when it is given no key. *)
Definition MissingApiKey : Exn :=
  Error "An API Key must be set when running in a browser".

(** [ai = new GoogleGenAI({ apiKey: import.meta.env.VITE_GEMINI_API_KEY })]:
    the constructor runs first, and [ai] is assigned only when it returns.
    A variable the build does not define is [undefined], and the constructor
    refuses it; any string, the empty one too, is accepted.  The line is
    read without the semicolon that stands behind the key inside the object
    literal, with which it would not parse. *)
Definition initialize (VITE_GEMINI_API_KEY : option string) : M unit :=
  fun w =>
    match VITE_GEMINI_API_KEY with
    | Some key =>
        (Returned tt,
         {| ai := Some {| apiKey := Some key |};
            trace := trace w; polls := polls w |})
    | None => (Thrown MissingApiKey, w)
    end.

Section Service.

(** The remote service the client talks to. *)
Variable B : Backend.

(** [supportedLanguages] of [types.ts], the table from language code to
    language name: the properties the object literal itself has. *)
Variable supportedLanguages : gmap string string.

(** The table is a plain object, so indexing it with a name it does not
    have itself goes on to [Object.prototype].  [Object_prototype key] is the
    text a template literal renders for the property plain objects inherit
    under [key] ([toString], [constructor], ...: functions and objects, all
    truthy), and [None] when they inherit nothing under that name.  Both the
    names and the rendering belong to the JavaScript engine. *)
Variable Object_prototype : string -> option string.

(** *** Listings *)

(** [await ai.<service>.list()]: the first page request. *)
Definition list_call {A} (c : BackendCall) (pager : Pager A)
  : M (list A * Pager A) :=
  match pager with
  | [] => log (Call c);; ret ([], [])
  | reply :: later => let* page := await c reply in ret (page, later)
  end.

(** The loop body run over the items of one page, in order.  The body gets
    what the iterator yields, [None] for [undefined], and may raise. *)
Fixpoint iterate {A S} (body : option A -> S -> Exn + S) (page : list A)
    (acc : S) : Exn + S :=
  match page with
  | [] => inr acc
  | item :: rest =>
      match body (Some item) acc with
      | inl e => inl e
      | inr acc' => iterate body rest acc'
      end
  end.

(** [for await (const item of response) body], over the iterator of the
    SDK's [Pager]: the items of the page at hand; then, while a further page
    is announced, one request for it, after which the iterator yields the
    element at index 0 of the page it got.  For a page without items that
    element is [undefined], and the body runs on it before the iterator
    looks for the page after.  An exception of the body ends the loop. *)
Fixpoint for_await {A S} (next : BackendCall) (body : option A -> S -> Exn + S)
    (page : list A) (later : Pager A) (acc : S) : M S :=
  match iterate body page acc with
  | inl e => throw e
  | inr acc' =>
      match later with
      | [] => ret acc'
      | reply :: later' =>
          let* page' := await next reply in
          match page' with
          | [] =>
              match body None acc' with
              | inl e => throw e
              | inr acc'' => for_await next body [] later' acc''
              end
          | _ :: _ => for_await next body page' later' acc'
          end
      end
  end.

Definition listRagStores : M (list RagStore) :=
  require_ai;;
  let* response := list_call StoresList (fileSearchStores_list B) in
  for_await StoresNextPage
    (fun store stores =>
       match store with
       | None => inl TypeError
       | Some store =>
           inr match truthy (fss_name store), truthy (fss_displayName store) with
               | Some n, Some d =>
                   (stores ++ [{| name := n; displayName := d |}])%list
               | _, _ => stores
               end
       end)
    response.1 response.2 [].

Definition listDocumentsInStore (ragStoreName : string) : M (list Document) :=
  require_ai;;
  let* response := list_call FilesList (files_list B) in
  for_await FilesNextPage
    (fun doc documents =>
       match doc with
       | None => inl TypeError
       | Some doc =>
           inr match doc_name doc with
               | Some n =>
                   if startsWith n (ragStoreName ++ "/")
                   then (documents ++ [doc])%list
                   else documents
               | None => documents
               end
       end)
    response.1 response.2 [].

(** *** Store and document management *)

Definition createRagStore (displayName : string) : M string :=
  require_ai;;
  let* ragStore := await (StoresCreate displayName)
                         (fileSearchStores_create B displayName) in
  match truthy (fss_name ragStore) with
  | None => throw InvalidResponse
  | Some n => ret n
  end.

Definition deleteRagStore (ragStoreName : string) : M unit :=
  require_ai;;
  await (StoresDelete ragStoreName true)
        (fileSearchStores_delete B ragStoreName true).

Definition deleteDocument (documentName : string) : M unit :=
  require_ai;;
  await (FilesDelete documentName) (files_delete B documentName).

(** *** Ingestion *)

(** [await ai.operations.get({operation: op})] *)
Definition operations_get_call (op : Operation) : M Operation :=
  fun w =>
    let w' := {| ai := ai w; trace := (trace w ++ [Call (OperationsGet op)])%list;
                 polls := S (polls w) |} in
    match operations_get B (polls w) op with
    | inl e => (Thrown e, w')
    | inr op' => (Returned op', w')
    end.

(** [while (!op.done) { await delay(3000); op = await ai.operations.get(..) }]
    with [fuel] rounds allowed; the test comes first, as in the source. *)
Fixpoint poll (fuel : nat) (op : Operation) : M unit :=
  if truthy_bool (done op) then ret tt
  else match fuel with
       | O => fun w => (Pending, w)
       | S fuel' =>
           delay 3000;;
           let* op' := operations_get_call op in
           poll fuel' op'
       end.

Definition uploadToRagStore_params (ragStoreName : string) (file : JsFile)
  : UploadParams :=
  {| fileSearchStoreName := ragStoreName; file := file;
     up_displayName := None; customMetadata := None |}.

Definition uploadToRagStore (fuel : nat) (ragStoreName : string) (file : JsFile)
  : M unit :=
  require_ai;;
  let params := uploadToRagStore_params ragStoreName file in
  let* op := await (UploadToFileSearchStore params)
                   (uploadToFileSearchStore B params) in
  poll fuel op.

Definition uploadDocument_params (ragStoreName : string) (file : JsFile)
    (metadata : list CustomMetadata) : UploadParams :=
  {| fileSearchStoreName := ragStoreName; file := file;
     up_displayName := Some (file_name file);
     customMetadata := Some metadata |}.

Definition uploadDocument (fuel : nat) (ragStoreName : string) (file : JsFile)
    (metadata : list CustomMetadata) : M unit :=
  require_ai;;
  let params := uploadDocument_params ragStoreName file metadata in
  let* op := await (UploadToFileSearchStore params)
                   (uploadToFileSearchStore B params) in
  poll fuel op.

(** *** Query *)

(** [supportedLanguages[language] || fallback], as the template literal
    then renders it: the table's own entry when it has one (the fallback when
    that entry is the empty string), else what plain objects inherit under
    that name, else the fallback. *)
Definition languageName_or (language fallback : string) : string :=
  match supportedLanguages !! language with
  | Some languageName => default fallback (truthy (Some languageName))
  | None => default fallback (Object_prototype language)
  end.

Definition fileSearch_params (ragStoreName query language : string)
  : GenerateParams :=
  {| model := "gemini-2.5-flash";
     contents := fileSearch_contents query
                   (languageName_or language "the user's query language");
     fileSearchStoreNames := [ragStoreName] |}.

(** [response.candidates?.[0]?.groundingMetadata?.groundingChunks || []] *)
Definition groundingChunks_of (response : GenerateContentResponse)
  : list GroundingChunk :=
  match candidates response with
  | Some (candidate :: _) =>
      match groundingMetadata candidate with
      | Some metadata => default [] (gm_groundingChunks metadata)
      | None => []
      end
  | _ => []
  end.

Definition fileSearch (ragStoreName query language : string) : M QueryResult :=
  require_ai;;
  let params := fileSearch_params ragStoreName query language in
  let* response := await (GenerateContent params)
                         (models_generateContent B params) in
  let groundingChunks := groundingChunks_of response in
  ret {| qr_text := text response; qr_groundingChunks := groundingChunks |}.

(** *** Suggested questions *)

(** A JavaScript number as the parser produces it; the model only needs to
    know whether it is truthy (neither zero nor [NaN]). *)
Variable number : Type.
Variable number_truthy : number -> bool.

(** What [JSON.parse] builds. *)
#[local] Unset Elimination Schemes.
Inductive json : Type :=
| JNull
| JBool (b : bool)
| JNum (n : number)
| JStr (s : string)
| JArr (items : list json)
| JObj (fields : gmap string json).
#[local] Set Elimination Schemes.

(** [String.prototype.trim] and [JSON.parse], the latter [None] where it
    raises its [SyntaxError]. *)
Variable trim : string -> string.
Variable JSON_parse : string -> option json.

Definition typeof (v : json) : string :=
  match v with
  | JNull => "object"
  | JBool _ => "boolean"
  | JNum _ => "number"
  | JStr _ => "string"
  | JArr _ => "object"
  | JObj _ => "object"
  end.

Definition is_null (v : json) : bool :=
  match v with JNull => true | _ => false end.

Definition isArray (v : json) : bool :=
  match v with JArr _ => true | _ => false end.

Definition truthy_json (v : json) : bool :=
  match v with
  | JNull => false
  | JBool b => b
  | JNum n => number_truthy n
  | JStr s => negb (String.eqb s "")
  | JArr _ => true
  | JObj _ => true
  end.

(** ['questions' in v] for an object [v] that is not [null]: a parsed
    object has the key or not, an array never has. *)
Definition questions_in (v : json) : bool :=
  match v with
  | JObj fields => bool_decide (is_Some (fields !! "questions"))
  | _ => false
  end.

(** [v.questions]: a [TypeError] on [null], [undefined] on a primitive, on
    an array and on an object without the key. *)
Definition get_questions (v : json) : Exn + option json :=
  match v with
  | JNull => inl TypeError
  | JObj fields => inr (fields !! "questions")
  | _ => inr None
  end.

(** [Array.isArray(v.questions)] *)
Definition questions_isArray (v : json) : bool :=
  match get_questions v with
  | inr (Some q) => isArray q
  | _ => false
  end.

(** [q || []] *)
Definition or_empty (q : option json) : json :=
  match q with
  | Some v => if truthy_json v then v else JArr []
  | None => JArr []
  end.

(** What [flatMap] appends for one callback result: the elements of an
    array, anything else as it is. *)
Definition flatten1 (r : json) : list json :=
  match r with
  | JArr items => items
  | v => [v]
  end.

(** [parsedData.flatMap(item => (item.questions || []))]: the first
    callback that raises ends the whole call. *)
Fixpoint flatMap_questions (parsedData : list json) : Exn + list json :=
  match parsedData with
  | [] => inr []
  | item :: rest =>
      match get_questions item with
      | inl e => inl e
      | inr q =>
          match flatMap_questions rest with
          | inl e => inl e
          | inr tail => inr (flatten1 (or_empty q) ++ tail)%list
          end
      end
  end.

(** [.filter(q => typeof q === 'string')], typed [string[]] *)
Definition string_entry (q : json) : option string :=
  if String.eqb (typeof q) "string"
  then match q with JStr s => Some s | _ => None end
  else None.

Definition filter_strings (l : list json) : list string :=
  omap string_entry l.

(** Lines 152 to 168: from the parsed value to the questions. *)
Definition coerce_questions (parsedData : json) : M (list string) :=
  match parsedData with
  | JArr [] => ret []
  | JArr (firstItem :: rest) =>
      if String.eqb (typeof firstItem) "object" && negb (is_null firstItem)
         && questions_in firstItem && questions_isArray firstItem
      then match flatMap_questions (firstItem :: rest) with
           | inl e => throw e
           | inr qs => ret (filter_strings qs)
           end
      else if String.eqb (typeof firstItem) "string"
      then ret (filter_strings (firstItem :: rest))
      else log ConsoleWarn;; ret []
  | _ => log ConsoleWarn;; ret []
  end.

Definition exampleQuestions_params (ragStoreName language : string)
  : GenerateParams :=
  {| model := "gemini-2.5-flash";
     contents := exampleQuestions_contents (languageName_or language "English");
     fileSearchStoreNames := [ragStoreName] |}.

Definition generateExampleQuestions (ragStoreName language : string)
  : M (list string) :=
  require_ai;;
  let params := exampleQuestions_params ragStoreName language in
  try_catch
    (let* response := await (GenerateContent params)
                            (models_generateContent B params) in
     let* jsonText := match text response with
                      | Some t => ret (trim t)
                      | None => throw TypeError
                      end in
     let jsonText := extract_json jsonText in
     let* parsedData := match JSON_parse jsonText with
                        | Some v => ret v
                        | None => throw SyntaxError
                        end in
     coerce_questions parsedData)
    (fun error => log (ConsoleError error);; ret []).

End Service.

Arguments typeof {number} v.
Arguments is_null {number} v.
Arguments isArray {number} v.
Arguments truthy_json {number} number_truthy v.
Arguments questions_in {number} v.
Arguments get_questions {number} v.
Arguments questions_isArray {number} v.
Arguments or_empty {number} number_truthy q.
Arguments flatten1 {number} r.
Arguments flatMap_questions {number} number_truthy parsedData.
Arguments string_entry {number} q.
Arguments filter_strings {number} l.
Arguments coerce_questions {number} number_truthy parsedData.
Arguments generateExampleQuestions B supportedLanguages Object_prototype
  {number} number_truthy trim JSON_parse ragStoreName language.
Arguments JNull {number}.
Arguments JBool {number} b.
Arguments JNum {number} n.
Arguments JStr {number} s.
Arguments JArr {number} items.
Arguments JObj {number} fields.

(** ** Vocabulary of the statements *)

(** The world after the further events [evs]. *)
Definition emits (evs : list Event) (w : World) : World :=
  {| ai := ai w; trace := (trace w ++ evs)%list; polls := polls w |}.

(** The page requests of a listing that runs through [n] pages: the call
    of [list()], then one request for each further page. *)
Definition page_requests (first next : BackendCall) (n : nat) : list Event :=
  Call first :: repeat (Call next) (n - 1).

(** A listing in which every page after the first has an item.  The
    first page may be empty: the iterator yields nothing from it. *)
Definition has_items {A} (page : list A) : bool :=
  match page with [] => false | _ :: _ => true end.

Definition no_empty_later_page {A} (pages : list (list A)) : bool :=
  forallb has_items (tail pages).

(** A store record is well formed when it carries what [RagStore] needs,
    a name and a display name, both non-empty; the record kept is then the
    pair of the two. *)
Definition well_formed_store (store : FileSearchStore) : option RagStore :=
  match fss_name store, fss_displayName store with
  | Some n, Some d =>
      if String.eqb n "" || String.eqb d "" then None
      else Some {| name := n; displayName := d |}
  | _, _ => None
  end.

(** A file record belongs to a store when it has a name and the name is
    the store's name, a slash and something more. *)
Definition in_store_scope (storeName : string) (doc : Document) : bool :=
  match doc_name doc with
  | Some n => String.prefix (storeName ++ "/") n
  | None => false
  end.

(** The backend answers its [n]-th status request with an operation that
    is not done, or with one that is, whatever operation is asked about. *)
Definition reports_unfinished (B : Backend) (n : nat) : Prop :=
  forall op, exists op',
    operations_get B n op = inr op' /\ truthy_bool (done op') = false.

Definition reports_finished (B : Backend) (n : nat) : Prop :=
  forall op, exists op',
    operations_get B n op = inr op' /\ truthy_bool (done op') = true.

(** The request of a query that asks for the answer in [languageName]:
    the question, an empty line, and the directive that names the language;
    the search is confined to the one store. *)
Definition query_request (ragStoreName query languageName : string)
  : GenerateParams :=
  {| model := "gemini-2.5-flash";
     contents :=
       query ++ LF ++ LF ++ "IMPORTANT: Please respond in " ++ languageName
       ++ ". DO NOT ASK THE USER TO READ THE MANUAL, pinpoint the relevant sections in the response itself.";
     fileSearchStoreNames := [ragStoreName] |}.

(** How a query that asks for the answer in [languageName] ends: the one
    request is made, and the call settles the way the backend replies. *)
Definition answer_in (B : Backend) (ragStoreName query languageName : string)
    (w : World) : Outcome QueryResult * World :=
  let params := query_request ragStoreName query languageName in
  (match models_generateContent B params with
   | inl e => Thrown e
   | inr response =>
       Returned {| qr_text := text response;
                   qr_groundingChunks := groundingChunks_of response |}
   end,
   emit (Call (GenerateContent params)) w).

(** What one element of the parsed array adds to the flattened list: the
    entries of its [questions] when that is an array, its [questions] itself
    when that is any other truthy value, nothing in all other cases. *)
Definition questions_entries {number} (number_truthy : number -> bool)
    (item : json number) : list (json number) :=
  match item with
  | JObj fields =>
      match fields !! "questions" with
      | Some (JArr entries) => entries
      | Some v => if truthy_json number_truthy v then [v] else []
      | None => []
      end
  | _ => []
  end.

(** The same for the reading in which only arrays count: the entries of
    the [questions] array of an element that has one. *)
Definition questions_array_entries {number} (item : json number)
  : list (json number) :=
  match item with
  | JObj fields =>
      match fields !! "questions" with
      | Some (JArr entries) => entries
      | _ => []
      end
  | _ => []
  end.

(** The events of polling about the operations [ops], one round each. *)
Definition poll_rounds (ops : list Operation) : list Event :=
  concat (map (fun op => [Sleep 3000; Call (OperationsGet op)]) ops).

(** ** Test doubles

    Concrete worlds and backends on which the functions are run. *)

Definition fresh : World := {| ai := None; trace := []; polls := 0 |}.
Definition ready : World := (initialize (Some "key") fresh).2.

Definition sop_pdf : JsFile := {| file_name := "sop.pdf"; file_bytes := [] |}.

(** A backend that lists nothing, accepts every request and reports every
    operation as finished at once; the doubles below change one reply. *)
Definition quiet : Backend :=
  {| fileSearchStores_list := [];
     files_list := [];
     fileSearchStores_create := fun d =>
       inr {| fss_name := Some "fileSearchStores/new"; fss_displayName := Some d |};
     fileSearchStores_delete := fun _ _ => inr tt;
     files_delete := fun _ => inr tt;
     uploadToFileSearchStore := fun _ =>
       inr {| op_name := Some "operations/1"; done := Some true; error := None |};
     operations_get := fun _ op => inr op;
     models_generateContent := fun _ =>
       inr {| text := None; candidates := None |} |}.

Definition with_create (reply : Exn + FileSearchStore) : Backend :=
  {| fileSearchStores_list := fileSearchStores_list quiet;
     files_list := files_list quiet;
     fileSearchStores_create := fun _ => reply;
     fileSearchStores_delete := fileSearchStores_delete quiet;
     files_delete := files_delete quiet;
     uploadToFileSearchStore := uploadToFileSearchStore quiet;
     operations_get := operations_get quiet;
     models_generateContent := models_generateContent quiet |}.

Definition store_a1 : FileSearchStore :=
  {| fss_name := Some "fileSearchStores/a"; fss_displayName := Some "Assembly" |}.
Definition store_nameless : FileSearchStore :=
  {| fss_name := None; fss_displayName := Some "Orphan" |}.
Definition store_untitled : FileSearchStore :=
  {| fss_name := Some "fileSearchStores/u"; fss_displayName := None |}.
Definition store_blank_title : FileSearchStore :=
  {| fss_name := Some "fileSearchStores/b"; fss_displayName := Some "" |}.
Definition store_c2 : FileSearchStore :=
  {| fss_name := Some "fileSearchStores/c"; fss_displayName := Some "Calibration" |}.

Definition doc_of (n : option string) : Document :=
  {| doc_name := n; doc_displayName := Some "sop.pdf"; doc_customMetadata := None |}.

(** Listings whose second page comes without items. *)
Definition mixed_files : list (list Document) :=
  [ [doc_of (Some "fileSearchStores/a/1"); doc_of (Some "fileSearchStores/ab/2")];
    [];
    [doc_of None; doc_of (Some "fileSearchStores/c/3");
     doc_of (Some "fileSearchStores/a/4"); doc_of (Some "fileSearchStores/a")] ].

Definition mixed_stores : list (list FileSearchStore) :=
  [ [store_a1; store_nameless]; []; [store_untitled; store_c2] ].

(** Listings whose later pages all have items; the first page of the
    files is empty. *)
Definition paged_stores : list (list FileSearchStore) :=
  [ [store_a1; store_nameless]; [store_blank_title];
    [store_untitled; store_c2] ].

Definition paged_files : list (list Document) :=
  [ [];
    [doc_of (Some "fileSearchStores/a/1"); doc_of (Some "fileSearchStores/ab/2")];
    [doc_of None; doc_of (Some "fileSearchStores/c/3");
     doc_of (Some "fileSearchStores/a/4"); doc_of (Some "fileSearchStores/a")] ].

Definition with_listings (stores : list (list FileSearchStore))
    (files : list (list Document)) : Backend :=
  {| fileSearchStores_list := map inr stores;
     files_list := map inr files;
     fileSearchStores_create := fileSearchStores_create quiet;
     fileSearchStores_delete := fileSearchStores_delete quiet;
     files_delete := files_delete quiet;
     uploadToFileSearchStore := uploadToFileSearchStore quiet;
     operations_get := operations_get quiet;
     models_generateContent := models_generateContent quiet |}.

(** An ingestion whose operation is handed out as [started] and is
    reported unfinished by the first [k] status requests and as [finished]
    from then on. *)
Definition with_operation (started finished : Operation) (k : nat) : Backend :=
  {| fileSearchStores_list := fileSearchStores_list quiet;
     files_list := files_list quiet;
     fileSearchStores_create := fileSearchStores_create quiet;
     fileSearchStores_delete := fileSearchStores_delete quiet;
     files_delete := files_delete quiet;
     uploadToFileSearchStore := fun _ => inr started;
     operations_get := fun n op =>
       if Nat.ltb n k
       then inr {| op_name := op_name op; done := Some false; error := None |}
       else inr finished;
     models_generateContent := models_generateContent quiet |}.

Definition just_started : Operation :=
  {| op_name := Some "operations/7"; done := None; error := None |}.
Definition succeeded : Operation :=
  {| op_name := Some "operations/7"; done := Some true; error := None |}.
Definition failed_operation : Operation :=
  {| op_name := Some "operations/7"; done := Some true;
     error := Some "UNSUPPORTED_FILE_TYPE" |}.

Definition with_generate (reply : Exn + GenerateContentResponse) : Backend :=
  {| fileSearchStores_list := fileSearchStores_list quiet;
     files_list := files_list quiet;
     fileSearchStores_create := fileSearchStores_create quiet;
     fileSearchStores_delete := fileSearchStores_delete quiet;
     files_delete := files_delete quiet;
     uploadToFileSearchStore := uploadToFileSearchStore quiet;
     operations_get := operations_get quiet;
     models_generateContent := fun _ => reply |}.

Definition topic (product : string) (questions : json Z) : json Z :=
  JObj {[ "product" := JStr product; "questions" := questions ]}.

(** The parsed form of the two-topic reply of the design's examples. *)
Definition two_topics : json Z :=
  JArr [ topic "A" (JArr [JStr "q1"]);
         topic "B" (JArr [JStr "q2"; JStr "q3"]) ].

Definition languages : gmap string string :=
  {[ "en" := "English"; "de" := "German" ]}.

(** [Object.prototype] as a browser has it: native functions, which a
    template literal renders by their source text, and under [__proto__] the
    prototype object itself. *)
Definition native_function (name : string) : string :=
  "function " ++ name ++ "() { [native code] }".

Definition browser_prototype (key : string) : option string :=
  if String.eqb key "constructor" then Some (native_function "Object")
  else if String.eqb key "__proto__" then Some "[object Object]"
  else if existsb (String.eqb key)
            [ "hasOwnProperty"; "isPrototypeOf"; "propertyIsEnumerable";
              "toLocaleString"; "toString"; "valueOf";
              "__defineGetter__"; "__defineSetter__";
              "__lookupGetter__"; "__lookupSetter__" ]
  then Some (native_function key)
  else None.

(** Integers stand in for the numbers of a parsed value. *)
Definition int_truthy (z : Z) : bool := negb (Z.eqb z 0).

(** The text of a fenced reply and of the slice inside the fence. *)
Definition q1_q2_slice : string :=
  "[" ++ DQ ++ "q1" ++ DQ ++ "," ++ DQ ++ "q2" ++ DQ ++ "]".
Definition q1_q2_fenced : string :=
  "Here you are: ```json" ++ LF ++ q1_q2_slice ++ LF ++ "``` Anything else?".

Definition reply_with (t : string) : Exn + GenerateContentResponse :=
  inr {| text := Some t; candidates := None |}.

(** A parser double: a table from the texts of interest to their values. *)
Definition parse_table (table : list (string * json Z)) (s : string)
  : option (json Z) :=
  snd <$> find (fun entry => String.eqb (fst entry) s) table.

(** * The components that call the service *)

(** ** DocumentList: the upload dialog

    The state of [components/DocumentList.tsx] and its handlers.  A handler
    is the function from the state it runs in to the state it leaves; the
    [onUpload] property is a callback, and a handler that calls it returns
    the arguments of the call. *)
Module DocumentList.

(** One row of the metadata editor, [{ key: string, value: string }]. *)
Record MetadataRow : Type := {
  row_key : string;
  row_value : string
}.

(** ['key' | 'value'] *)
Inductive RowField : Type := KeyField | ValueField.

Record State : Type := {
  isUploadModalOpen : bool;
  selectedFile : option JsFile;
  metadata : list MetadataRow
}.

Definition blank_row : MetadataRow := {| row_key := ""; row_value := "" |}.

(** The [useState] defaults. *)
Definition initial : State :=
  {| isUploadModalOpen := false; selectedFile := None; metadata := [blank_row] |}.

Definition handleUploadClick (st : State) : State :=
  {| isUploadModalOpen := true; selectedFile := selectedFile st;
     metadata := metadata st |}.

Definition handleModalClose (st : State) : State :=
  {| isUploadModalOpen := false; selectedFile := None; metadata := [blank_row] |}.

(** [event.target.files?.[0]], then [if (file) setSelectedFile(file)] *)
Definition handleFileChange (files : option (list JsFile)) (st : State) : State :=
  match files with
  | Some (file :: _) =>
      {| isUploadModalOpen := isUploadModalOpen st; selectedFile := Some file;
         metadata := metadata st |}
  | _ => st
  end.

(** [row[field] = text] *)
Definition assign (field : RowField) (text : string) (row : MetadataRow)
  : MetadataRow :=
  match field with
  | KeyField => {| row_key := text; row_value := row_value row |}
  | ValueField => {| row_key := row_key row; row_value := text |}
  end.

(** [newMetadata = [...metadata]; newMetadata[index][field] = text;
    setMetadata(newMetadata)]: the array that becomes the state.  Past the
    end [newMetadata[index]] is [undefined] and the assignment raises. *)
Definition handleMetadataChange (index : nat) (field : RowField) (text : string)
    (rows : list MetadataRow) : Exn + list MetadataRow :=
  match rows !! index with
  | Some row => inr (<[index := assign field text row]> rows)
  | None => inl TypeError
  end.

Definition addMetadataRow (rows : list MetadataRow) : list MetadataRow :=
  (rows ++ [blank_row])%list.

(** [array.filter((x, i) => p(x, i))], [i] being the index of [x] *)
Fixpoint filter_indexed {A} (p : A -> nat -> bool) (i : nat) (l : list A)
  : list A :=
  match l with
  | [] => []
  | x :: rest =>
      if p x i then x :: filter_indexed p (S i) rest
      else filter_indexed p (S i) rest
  end.

(** [metadata.filter((_, i) => i !== index)] *)
Definition removeMetadataRow (index : nat) (rows : list MetadataRow)
  : list MetadataRow :=
  filter_indexed (fun _ i => negb (Nat.eqb i index)) 0 rows.

Section Confirm.

(** [String.prototype.trim] *)
Variable trim : string -> string.

(** [metadata.filter(m => m.key.trim() !== '')
            .map(m => ({ key: m.key.trim(), stringValue: m.value.trim() }))] *)
Definition formattedMetadata (rows : list MetadataRow) : list CustomMetadata :=
  map (fun m => {| key := trim (row_key m); stringValue := trim (row_value m) |})
      (List.filter (fun m => negb (String.eqb (trim (row_key m)) "")) rows).

(** Without a file nothing happens; with one, [onUpload] is called with
    the file and the formatted metadata and the dialog is closed. *)
Definition handleConfirmUpload (st : State)
  : State * option (JsFile * list CustomMetadata) :=
  match selectedFile st with
  | None => (st, None)
  | Some file =>
      (handleModalClose st, Some (file, formattedMetadata (metadata st)))
  end.

End Confirm.

End DocumentList.

(** ** ManagementView: the handlers around the service

    The state of [components/ManagementView.tsx] and its handlers.  A
    handler runs on the world and on the state of the component, from its
    first statement to the point where its promise settles, with no other
    event in between.  [handleError] is a property of the component: the
    calls made to it are recorded in [reported]. *)
Module ManagementView.

Record State : Type := {
  stores : list RagStore;
  selectedStore : option RagStore;
  documents : list Document;
  queryResult : option QueryResult;
  language : string;
  isLoadingStores : bool;
  isLoadingDocuments : bool;
  isQuerying : bool;
  processingFile : option string;
  reported : list (string * Exn)
}.

(** The [useState] defaults, with nothing reported yet. *)
Definition initial : State :=
  {| stores := []; selectedStore := None; documents := []; queryResult := None;
     language := "en"; isLoadingStores := true; isLoadingDocuments := false;
     isQuerying := false; processingFile := None; reported := [] |}.

Definition setStores (v : list RagStore) (s : State) : State :=
  {| stores := v; selectedStore := selectedStore s; documents := documents s;
     queryResult := queryResult s; language := language s;
     isLoadingStores := isLoadingStores s;
     isLoadingDocuments := isLoadingDocuments s; isQuerying := isQuerying s;
     processingFile := processingFile s; reported := reported s |}.

Definition setSelectedStore (v : option RagStore) (s : State) : State :=
  {| stores := stores s; selectedStore := v; documents := documents s;
     queryResult := queryResult s; language := language s;
     isLoadingStores := isLoadingStores s;
     isLoadingDocuments := isLoadingDocuments s; isQuerying := isQuerying s;
     processingFile := processingFile s; reported := reported s |}.

(** [setDocuments(docs => f(docs))]; [setDocuments(v)] is the constant [f]. *)
Definition setDocuments (f : list Document -> list Document) (s : State) : State :=
  {| stores := stores s; selectedStore := selectedStore s;
     documents := f (documents s);
     queryResult := queryResult s; language := language s;
     isLoadingStores := isLoadingStores s;
     isLoadingDocuments := isLoadingDocuments s; isQuerying := isQuerying s;
     processingFile := processingFile s; reported := reported s |}.

Definition setQueryResult (v : option QueryResult) (s : State) : State :=
  {| stores := stores s; selectedStore := selectedStore s;
     documents := documents s; queryResult := v; language := language s;
     isLoadingStores := isLoadingStores s;
     isLoadingDocuments := isLoadingDocuments s; isQuerying := isQuerying s;
     processingFile := processingFile s; reported := reported s |}.

Definition setLanguage (v : string) (s : State) : State :=
  {| stores := stores s; selectedStore := selectedStore s;
     documents := documents s; queryResult := queryResult s; language := v;
     isLoadingStores := isLoadingStores s;
     isLoadingDocuments := isLoadingDocuments s; isQuerying := isQuerying s;
     processingFile := processingFile s; reported := reported s |}.

Definition setIsLoadingStores (v : bool) (s : State) : State :=
  {| stores := stores s; selectedStore := selectedStore s;
     documents := documents s; queryResult := queryResult s;
     language := language s; isLoadingStores := v;
     isLoadingDocuments := isLoadingDocuments s; isQuerying := isQuerying s;
     processingFile := processingFile s; reported := reported s |}.

Definition setIsLoadingDocuments (v : bool) (s : State) : State :=
  {| stores := stores s; selectedStore := selectedStore s;
     documents := documents s; queryResult := queryResult s;
     language := language s; isLoadingStores := isLoadingStores s;
     isLoadingDocuments := v; isQuerying := isQuerying s;
     processingFile := processingFile s; reported := reported s |}.

Definition setIsQuerying (v : bool) (s : State) : State :=
  {| stores := stores s; selectedStore := selectedStore s;
     documents := documents s; queryResult := queryResult s;
     language := language s; isLoadingStores := isLoadingStores s;
     isLoadingDocuments := isLoadingDocuments s; isQuerying := v;
     processingFile := processingFile s; reported := reported s |}.

Definition setProcessingFile (v : option string) (s : State) : State :=
  {| stores := stores s; selectedStore := selectedStore s;
     documents := documents s; queryResult := queryResult s;
     language := language s; isLoadingStores := isLoadingStores s;
     isLoadingDocuments := isLoadingDocuments s; isQuerying := isQuerying s;
     processingFile := v; reported := reported s |}.

(** One call [handleError(message, err)]. *)
Definition report (message : string) (err : Exn) (s : State) : State :=
  {| stores := stores s; selectedStore := selectedStore s;
     documents := documents s; queryResult := queryResult s;
     language := language s; isLoadingStores := isLoadingStores s;
     isLoadingDocuments := isLoadingDocuments s; isQuerying := isQuerying s;
     processingFile := processingFile s;
     reported := (reported s ++ [(message, err)])%list |}.

(** *** Handlers as computations on the world and the state *)

Definition UI (A : Type) : Type := World * State -> Outcome A * (World * State).

Definition ui_ret {A} (a : A) : UI A := fun ws => (Returned a, ws).

Definition ui_bind {A C} (m : UI A) (k : A -> UI C) : UI C :=
  fun ws =>
    match m ws with
    | (Returned a, ws') => k a ws'
    | (Thrown e, ws') => (Thrown e, ws')
    | (Pending, ws') => (Pending, ws')
    end.

Declare Scope ui_scope.
Delimit Scope ui_scope with ui.
Notation "'let*' x := m 'in' k" := (ui_bind m (fun x => k))
  (at level 10, x name, m at level 100, k at level 200) : ui_scope.
Notation "m ;; k" := (ui_bind m (fun _ => k))
  (at level 100, k at level 200, right associativity) : ui_scope.
Local Open Scope ui_scope.

(** A state setter, and [await] of a call of the service. *)
Definition set (f : State -> State) : UI unit :=
  fun ws => (Returned tt, (ws.1, f ws.2)).

Definition call {A} (m : M A) : UI A :=
  fun ws => let (r, w') := m ws.1 in (r, (w', ws.2)).

(** [try { body } catch (err) { handler }] *)
Definition ui_try_catch {A} (body : UI A) (handler : Exn -> UI A) : UI A :=
  fun ws =>
    match body ws with
    | (Thrown e, ws') => handler e ws'
    | r => r
    end.

(** [try {..} catch (err) {..} finally { finalizer }]: the finalizer runs
    when the [try] or the [catch] is left, also by a raise, which goes on
    after it. *)
Definition try_catch_finally (body : UI unit) (handler : Exn -> UI unit)
    (finalizer : UI unit) : UI unit :=
  fun ws =>
    match ui_try_catch body handler ws with
    | (Returned _, ws') => finalizer ws'
    | (Thrown e, ws') =>
        match finalizer ws' with
        | (Returned _, ws'') => (Thrown e, ws'')
        | r => r
        end
    | (Pending, ws') => (Pending, ws')
    end.

Section Handlers.

Variable B : Backend.
Variable supportedLanguages : gmap string string.
Variable Object_prototype : string -> option string.

(** [import.meta.env.VITE_GEMINI_API_KEY], absent when the build does not
    define it. *)
Variable VITE_GEMINI_API_KEY : option string.

(** [geminiService.initialize()] stands inside the [try]: a constructor
    that refuses the key is reported like a failed listing. *)
Definition loadStores : UI unit :=
  set (setIsLoadingStores true);;
  try_catch_finally
    (call (initialize VITE_GEMINI_API_KEY);;
     let* fetchedStores := call (listRagStores B) in
     set (setStores fetchedStores))
    (fun err => set (report "Failed to load document stores" err))
    (set (setIsLoadingStores false)).

(** The effect on [selectedStore]: with a store, [loadDocuments()] is
    started and [setQueryResult(null)] runs before its listing is back;
    without one the documents are cleared. *)
Definition selectedStore_effect : UI unit :=
  fun ws =>
    match selectedStore ws.2 with
    | Some store =>
        (set (setIsLoadingDocuments true);;
         set (setDocuments (fun _ => []));;
         set (setQueryResult None);;
         try_catch_finally
           (let* fetchedDocs := call (listDocumentsInStore B (name store)) in
            set (setDocuments (fun _ => fetchedDocs)))
           (fun err =>
              set (report ("Failed to load documents for " ++ displayName store)
                     err))
           (set (setIsLoadingDocuments false))) ws
    | None =>
        (set (setDocuments (fun _ => []));; set (setQueryResult None)) ws
    end.

Definition handleCreateStore (displayName : string) : UI unit :=
  ui_try_catch
    (call (createRagStore B displayName);; loadStores)
    (fun err => set (report "Failed to create store" err)).

(** [confirmed] is the answer to [window.confirm].  What React runs when
    the selection changes is [selectedStore_effect], a function of its own. *)
Definition handleDeleteStore (storeName : string) (confirmed : bool) : UI unit :=
  if confirmed then
    ui_try_catch
      (call (deleteRagStore B storeName);;
       (fun ws =>
          match selectedStore ws.2 with
          | Some store =>
              if String.eqb (name store) storeName
              then set (setSelectedStore None) ws
              else ui_ret tt ws
          | None => ui_ret tt ws
          end);;
       loadStores)
      (fun err => set (report "Failed to delete store" err))
  else ui_ret tt.

Definition handleUploadDocument (fuel : nat) (file : JsFile)
    (metadata : list CustomMetadata) : UI unit :=
  fun ws =>
    match selectedStore ws.2 with
    | None => ui_ret tt ws
    | Some store =>
        (set (setProcessingFile (Some (file_name file)));;
         try_catch_finally
           (call (uploadDocument B fuel (name store) file metadata);;
            let* fetchedDocs := call (listDocumentsInStore B (name store)) in
            set (setDocuments (fun _ => fetchedDocs)))
           (fun err => set (report ("Failed to upload " ++ file_name file) err))
           (set (setProcessingFile None))) ws
    end.

Definition handleDeleteDocument (docName : string) (confirmed : bool) : UI unit :=
  fun ws =>
    match selectedStore ws.2 with
    | None => ui_ret tt ws
    | Some _ =>
        if confirmed then
          ui_try_catch
            (call (deleteDocument B docName);;
             set (setDocuments
                    (List.filter
                       (fun d => negb (bool_decide (doc_name d = Some docName))))))
            (fun err => set (report "Failed to delete document" err)) ws
        else ui_ret tt ws
    end.

Definition handleQuery (query : string) : UI unit :=
  fun ws =>
    match selectedStore ws.2 with
    | None => ui_ret tt ws
    | Some store =>
        (set (setIsQuerying true);;
         set (setQueryResult None);;
         try_catch_finally
           (let* result := call (fileSearch B supportedLanguages
             Object_prototype (name store)
                                   query (language ws.2)) in
            set (setQueryResult (Some result)))
           (fun err => set (report "Failed to execute query" err))
           (set (setIsQuerying false))) ws
    end.

End Handlers.

End ManagementView.

(** ** Further vocabulary and test doubles *)

(** [w'] is [w] after some operations: the client is the same, the trace
    has grown at its end, the status requests served have not gone down. *)
Definition extends (w w' : World) : Prop :=
  ai w' = ai w
  /\ (exists evs, trace w' = (trace w ++ evs)%list)
  /\ polls w <= polls w'.

(** What a row of the upload dialog becomes in the upload request: nothing
    when its trimmed key is empty, else the trimmed key with the trimmed
    value. *)
Definition entry_of (trim : string -> string) (row : DocumentList.MetadataRow)
  : option CustomMetadata :=
  if String.eqb (trim (DocumentList.row_key row)) "" then None
  else Some {| key := trim (DocumentList.row_key row);
               stringValue := trim (DocumentList.row_value row) |}.

(** The state of the management view once the store [storeName] is gone:
    the selection is dropped when it was that store. *)
Definition without_store (storeName : string) (s : ManagementView.State)
  : ManagementView.State :=
  match ManagementView.selectedStore s with
  | Some store =>
      if String.eqb (name store) storeName
      then ManagementView.setSelectedStore None s else s
  | None => s
  end.

(** The character [c] occurs in [s]. *)
Fixpoint occurs (c : ascii) (s : string) : bool :=
  match s with
  | EmptyString => false
  | String a rest => Ascii.eqb a c || occurs c rest
  end.

Definition backtick : ascii := "`"%char.

(** A reply wrapped the way the prompt asks for: text, an opening fence
    on its own line end, the payload, a closing fence, more text. *)
Definition fenced (before payload after : string) : string :=
  before ++ ("```json" ++ LF) ++ payload ++ (LF ++ "```") ++ after.

Definition override_pagers (stores : Pager FileSearchStore)
    (files : Pager Document) (B : Backend) : Backend :=
  {| fileSearchStores_list := stores;
     files_list := files;
     fileSearchStores_create := fileSearchStores_create B;
     fileSearchStores_delete := fileSearchStores_delete B;
     files_delete := files_delete B;
     uploadToFileSearchStore := uploadToFileSearchStore B;
     operations_get := operations_get B;
     models_generateContent := models_generateContent B |}.

Definition override_upload (reply : Exn + Operation) (B : Backend) : Backend :=
  {| fileSearchStores_list := fileSearchStores_list B;
     files_list := files_list B;
     fileSearchStores_create := fileSearchStores_create B;
     fileSearchStores_delete := fileSearchStores_delete B;
     files_delete := files_delete B;
     uploadToFileSearchStore := fun _ => reply;
     operations_get := operations_get B;
     models_generateContent := models_generateContent B |}.

Definition override_status (reply : nat -> Operation -> Exn + Operation)
    (B : Backend) : Backend :=
  {| fileSearchStores_list := fileSearchStores_list B;
     files_list := files_list B;
     fileSearchStores_create := fileSearchStores_create B;
     fileSearchStores_delete := fileSearchStores_delete B;
     files_delete := files_delete B;
     uploadToFileSearchStore := uploadToFileSearchStore B;
     operations_get := reply;
     models_generateContent := models_generateContent B |}.

Definition override_deletes (store_reply file_reply : Exn + unit) (B : Backend)
  : Backend :=
  {| fileSearchStores_list := fileSearchStores_list B;
     files_list := files_list B;
     fileSearchStores_create := fileSearchStores_create B;
     fileSearchStores_delete := fun _ _ => store_reply;
     files_delete := fun _ => file_reply;
     uploadToFileSearchStore := uploadToFileSearchStore B;
     operations_get := operations_get B;
     models_generateContent := models_generateContent B |}.

Definition unavailable : Exn := BackendError "503 Service Unavailable".

(** A store listing whose third page request fails. *)
Definition broken_stores : Pager FileSearchStore :=
  [inr [store_a1]; inr [store_c2]; inl unavailable; inr [store_untitled]].

(** A status endpoint that answers "not done" once and then fails. *)
Definition flaky_status (n : nat) (op : Operation) : Exn + Operation :=
  if Nat.ltb n 1
  then inr {| op_name := op_name op; done := Some false; error := None |}
  else inl unavailable.

(** A status endpoint that never reports the operation done. *)
Definition stuck_status (n : nat) (op : Operation) : Exn + Operation :=
  inr {| op_name := op_name op; done := Some false; error := None |}.

Definition assembly : RagStore :=
  {| name := "fileSearchStores/a"; displayName := "Assembly" |}.

(** The management view with the store [assembly] selected and two of its
    documents on display. *)
Definition managing : ManagementView.State :=
  ManagementView.setDocuments
    (fun _ => [doc_of (Some "fileSearchStores/a/1");
               doc_of (Some "fileSearchStores/a/4")])
    (ManagementView.setSelectedStore (Some assembly)
       (ManagementView.setIsLoadingStores false ManagementView.initial)).

(** The upload dialog with a file chosen and three rows typed in, the
    second with a blank key. *)
Definition filled_dialog : DocumentList.State :=
  {| DocumentList.isUploadModalOpen := true;
     DocumentList.selectedFile := Some sop_pdf;
     DocumentList.metadata :=
       [ {| DocumentList.row_key := "version"; DocumentList.row_value := "2.1" |};
         {| DocumentList.row_key := ""; DocumentList.row_value := "orphan" |};
         {| DocumentList.row_key := "line"; DocumentList.row_value := "B" |} ] |}.

(** * Properties *)

(** ** Running the monad *)

Lemma emits_emits evs1 evs2 w :
  emits evs2 (emits evs1 w) = emits (evs1 ++ evs2) w.
Proof. unfold emits; simpl. by rewrite <- app_assoc. Qed.

Lemma emit_emits ev evs w : emit ev (emits evs w) = emits (evs ++ [ev]) w.
Proof. apply (emits_emits evs [ev] w). Qed.

Lemma emits_nil w : emits [] w = w.
Proof. destruct w; unfold emits; simpl. by rewrite app_nil_r. Qed.

Lemma require_ai_ready w client :
  ai w = Some client -> require_ai w = (Returned client, w).
Proof. intros H. unfold require_ai. by rewrite H. Qed.

Lemma require_ai_fresh w :
  ai w = None -> require_ai w = (Thrown BackendUnavailable, w).
Proof. intros H. unfold require_ai. by rewrite H. Qed.

Lemma guarded_ready {A} (k : GoogleGenAI -> M A) w client :
  ai w = Some client -> bind require_ai k w = k client w.
Proof. intros H. unfold bind. by rewrite (require_ai_ready _ _ H). Qed.

Lemma guarded_fresh {A} (k : GoogleGenAI -> M A) w :
  ai w = None -> bind require_ai k w = (Thrown BackendUnavailable, w).
Proof. intros H. unfold bind. by rewrite (require_ai_fresh _ H). Qed.

Lemma await_resolves {A} c (a : A) w :
  await c (inr a) w = (Returned a, emit (Call c) w).
Proof. reflexivity. Qed.

Lemma await_rejects {A} c e w :
  await (A := A) c (inl e) w = (Thrown e, emit (Call c) w).
Proof. reflexivity. Qed.

(** ** Strings *)

Lemma append_assoc (a b c : string) : (a ++ b) ++ c = a ++ (b ++ c).
Proof.
  induction a as [|x a IH]; [reflexivity|].
  change (String x ((a ++ b) ++ c) = String x (a ++ (b ++ c))).
  by rewrite IH.
Qed.

Lemma prefix_app p s : String.prefix p s = true <-> exists rest, s = p ++ rest.
Proof.
  revert s. induction p as [|a p IH]; intros s; simpl.
  - destruct s; split; eauto.
  - destruct s as [|b s]; simpl.
    + split; [discriminate | intros [rest H]; discriminate].
    + destruct (ascii_dec a b) as [->|Hne].
      * rewrite IH. split; intros [rest H]; exists rest.
        -- subst s. reflexivity.
        -- change (String b s = String b (p ++ rest)) in H. congruence.
      * split; [discriminate | intros [rest H]].
        change (String b s = String a (p ++ rest)) in H. congruence.
Qed.

Lemma truthy_Some s n : truthy s = Some n <-> s = Some n /\ n <> "".
Proof.
  destruct s as [s|]; simpl.
  - destruct (String.eqb_spec s "") as [->|Hne].
    + split; [discriminate | intros [[= <-] H]; done].
    + split; [intros [= <-]; done | intros [[= <-] _]; done].
  - split; [discriminate | intros [H _]; discriminate].
Qed.

Lemma truthy_None s : truthy s = None <-> s = None \/ s = Some "".
Proof.
  destruct s as [s|]; simpl.
  - destruct (String.eqb_spec s "") as [->|Hne].
    + split; eauto.
    + split; [discriminate | intros [H|[= H]]; done].
  - split; eauto.
Qed.

(** ** Listings *)

Section Listing.

Context {A R : Type}.
Variable keep : A -> option R.
Variable body : option A -> list R -> Exn + list R.

(** On an item the body either pushes the record kept or leaves the result
    alone; on [undefined] it raises, reading a property of it. *)
Hypothesis body_pushes : forall item acc,
  body (Some item) acc
  = inr (acc ++ from_option (fun r => [r]) [] (keep item))%list.
Hypothesis body_undefined : forall acc, body None acc = inl TypeError.

Lemma iterate_pushes page acc :
  iterate body page acc = inr (acc ++ omap keep page)%list.
Proof.
  revert acc. induction page as [|item page IH]; intros acc; simpl.
  - by rewrite app_nil_r.
  - rewrite body_pushes, IH, <- app_assoc. do 2 f_equal.
    by destruct (keep item).
Qed.

(** The items of the page at hand are all processed before the iterator
    turns to the pages announced. *)
Lemma for_await_page next page later acc w :
  for_await next body page later acc w =
  for_await next body [] later (acc ++ omap keep page)%list w.
Proof. destruct later; simpl; by rewrite iterate_pushes. Qed.

(** Pages that all have items are drained one request each; the loop then
    goes on with what the pager holds behind them. *)
Lemma for_await_app next pages rest : forall page acc w,
  forallb has_items pages = true ->
  for_await next body page (map inr pages ++ rest)%list acc w =
  for_await next body [] rest (acc ++ omap keep (page ++ concat pages))%list
    (emits (repeat (Call next) (length pages)) w).
Proof.
  induction pages as [|page' pages IH]; intros page acc w Hitems.
  - simpl. by rewrite app_nil_r, emits_nil, for_await_page.
  - simpl in Hitems. apply andb_prop in Hitems as [Hpage' Hpages].
    destruct page' as [|item page']; [discriminate|].
    change (for_await next body page
              (inr (item :: page') :: (map inr pages ++ rest))%list acc w =
            for_await next body [] rest
              (acc ++ omap keep (page ++ (item :: page') ++ concat pages))%list
              (emits (Call next :: repeat (Call next) (length pages)) w)).
    rewrite for_await_page. simpl. unfold bind at 1. rewrite await_resolves.
    rewrite (IH _ _ _ Hpages).
    change (emit (Call next) w) with (emits [Call next] w).
    rewrite emits_emits. simpl.
    by rewrite (omap_app _ page), <- app_assoc.
Qed.

Lemma for_await_drains next pages page acc w :
  forallb has_items pages = true ->
  for_await next body page (map inr pages) acc w =
  (Returned (acc ++ omap keep (page ++ concat pages))%list,
   emits (repeat (Call next) (length pages)) w).
Proof.
  intros Hitems.
  rewrite <- (app_nil_r (map inr pages)), (for_await_app _ _ _ _ _ _ Hitems).
  reflexivity.
Qed.

(** A fetched page without items: the iterator yields [undefined], and the
    body raises on it. *)
Lemma for_await_undefined next later acc w :
  for_await next body [] (inr [] :: later) acc w =
  (Thrown TypeError, emit (Call next) w).
Proof.
  simpl. unfold bind. rewrite await_resolves. by rewrite body_undefined.
Qed.

Lemma for_await_rejected next e later acc w :
  for_await next body [] (inl e :: later) acc w =
  (Thrown e, emit (Call next) w).
Proof. reflexivity. Qed.

(** The whole listing: the call of [list()] and the loop over its pager. *)
Lemma listing_app first next page pages rest w :
  forallb has_items pages = true ->
  (let* response := list_call first (inr page :: map inr pages ++ rest)%list in
   for_await next body response.1 response.2 []) w =
  for_await next body [] rest (omap keep (page ++ concat pages)%list)
    (emits (page_requests first next (S (length pages))) w).
Proof.
  intros Hitems. unfold page_requests. cbv [bind list_call await log ret]; simpl.
  rewrite (for_await_app _ _ _ _ _ _ Hitems), Nat.sub_0_r.
  change (emit (Call first) w) with (emits [Call first] w).
  by rewrite emits_emits.
Qed.

Lemma listing_drains first next pages w :
  no_empty_later_page pages = true ->
  (let* response := list_call first (map inr pages) in
   for_await next body response.1 response.2 []) w =
  (Returned (omap keep (concat pages)),
   emits (page_requests first next (length pages)) w).
Proof.
  unfold no_empty_later_page. destruct pages as [|page pages]; intros Hitems.
  - reflexivity.
  - change (map inr (page :: pages))
      with (@inr Exn (list A) page :: map inr pages).
    rewrite <- (app_nil_r (map inr pages)).
    by rewrite (listing_app _ _ _ _ _ _ Hitems).
Qed.

(** The listing stops at the first page request that fails ... *)
Lemma listing_fails first next pages e later w :
  no_empty_later_page pages = true ->
  (let* response := list_call first (map inr pages ++ inl e :: later)%list in
   for_await next body response.1 response.2 []) w =
  (Thrown e, emits (page_requests first next (S (length pages))) w).
Proof.
  unfold no_empty_later_page. destruct pages as [|page pages]; intros Hitems.
  - reflexivity.
  - change (map inr (page :: pages) ++ inl e :: later)%list
      with (@inr Exn (list A) page :: map inr pages ++ inl e :: later)%list.
    rewrite (listing_app _ _ _ _ _ _ Hitems), for_await_rejected.
    unfold page_requests. simpl. rewrite !Nat.sub_0_r.
    change (emit (Call next) ?w) with (emits [Call next] w).
    by rewrite emits_emits, <- app_comm_cons, <- repeat_cons.
Qed.

(** ... and at the first page behind the first one that has no item. *)
Lemma listing_undefined first next page pages later w :
  forallb has_items pages = true ->
  (let* response :=
     list_call first (inr page :: map inr pages ++ inr [] :: later)%list in
   for_await next body response.1 response.2 []) w =
  (Thrown TypeError,
   emits (page_requests first next (S (S (length pages)))) w).
Proof.
  intros Hitems.
  rewrite (listing_app _ _ _ _ _ _ Hitems), for_await_undefined.
  unfold page_requests. simpl. rewrite !Nat.sub_0_r.
  change (emit (Call next) ?w) with (emits [Call next] w).
  by rewrite emits_emits, <- app_comm_cons, <- repeat_cons.
Qed.

End Listing.

Lemma omap_guard {A} (p : A -> bool) (l : list A) :
  omap (fun x => if p x then Some x else None) l = List.filter p l.
Proof.
  induction l as [|x l IH]; [done|].
  cbn. destruct (p x); cbn; [f_equal|]; exact IH.
Qed.

Lemma well_formed_store_Some store n d :
  well_formed_store store = Some {| name := n; displayName := d |} <->
  fss_name store = Some n /\ fss_displayName store = Some d /\ n <> "" /\ d <> "".
Proof.
  unfold well_formed_store.
  destruct (fss_name store) as [n'|], (fss_displayName store) as [d'|];
    try (split; [discriminate | intros (? & ? & _); discriminate]).
  destruct (String.eqb_spec n' "") as [->|Hn], (String.eqb_spec d' "") as [->|Hd];
    simpl; split; try discriminate;
    try (intros ([= <-] & [= <-] & ? & ?); done).
  intros [= <- <-]. done.
Qed.

Lemma in_store_scope_prefix storeName doc :
  in_store_scope storeName doc = true <->
  exists rest, doc_name doc = Some (storeName ++ "/" ++ rest).
Proof.
  unfold in_store_scope. destruct (doc_name doc) as [n|].
  - rewrite prefix_app. split; intros [rest H]; exists rest.
    + subst n. f_equal. apply append_assoc.
    + injection H as ->. symmetry. apply append_assoc.
  - split; [discriminate | intros [rest H]; discriminate].
Qed.

(** The two loop bodies of the module in the form the lemmas above take. *)
Lemma stores_body_pushes (store : FileSearchStore) (stores : list RagStore) :
  match truthy (fss_name store), truthy (fss_displayName store) with
  | Some n, Some d => (stores ++ [{| name := n; displayName := d |}])%list
  | _, _ => stores
  end
  = (stores ++ from_option (fun r => [r]) [] (well_formed_store store))%list.
Proof.
  unfold well_formed_store, truthy.
  destruct (fss_name store) as [n|], (fss_displayName store) as [d|];
    try destruct (String.eqb n ""); try destruct (String.eqb d "");
    simpl; by rewrite ?app_nil_r.
Qed.

Lemma documents_body_pushes storeName (doc : Document) (documents : list Document) :
  match doc_name doc with
  | Some n =>
      if startsWith n (storeName ++ "/")
      then (documents ++ [doc])%list
      else documents
  | None => documents
  end
  = (documents ++ from_option (fun r => [r]) []
       (if in_store_scope storeName doc then Some doc else None))%list.
Proof.
  unfold in_store_scope, startsWith.
  destruct (doc_name doc) as [n|]; simpl; [|by rewrite app_nil_r].
  destruct (String.prefix _ n); simpl; by rewrite ?app_nil_r.
Qed.

Lemma listRagStores_run B pages w client :
  ai w = Some client ->
  fileSearchStores_list B = map inr pages ->
  no_empty_later_page pages = true ->
  listRagStores B w =
  (Returned (omap well_formed_store (concat pages)),
   emits (page_requests StoresList StoresNextPage (length pages)) w).
Proof.
  intros Hai Hpages Hitems. unfold listRagStores.
  rewrite (guarded_ready _ _ _ Hai), Hpages.
  apply listing_drains; [|exact Hitems].
  intros store stores. f_equal. apply stores_body_pushes.
Qed.

Lemma listDocumentsInStore_run B pages storeName w client :
  ai w = Some client ->
  files_list B = map inr pages ->
  no_empty_later_page pages = true ->
  listDocumentsInStore B storeName w =
  (Returned (List.filter (in_store_scope storeName) (concat pages)),
   emits (page_requests FilesList FilesNextPage (length pages)) w).
Proof.
  intros Hai Hpages Hitems. unfold listDocumentsInStore.
  rewrite (guarded_ready _ _ _ Hai), Hpages, <- omap_guard.
  apply listing_drains; [|exact Hitems].
  intros doc documents. f_equal. apply documents_body_pushes.
Qed.

(** C3, as amended. Whatever pages the backend returns, provided every
    page after the first has an item, both listings resolve, and to exactly
    the well-formed records of all the pages in the order received, after one
    request per page.  A store record is well formed when its [name] and its
    [displayName] are both present and non-empty, a document record when its
    [name] is the name of the store asked about, a slash and a remainder.  A
    record without its identity field [name] is left out without making the
    listing fail. *)
Theorem listings_return_well_formed_records_in_page_order
    (B : Backend) (stores : list (list FileSearchStore))
    (files : list (list Document)) (storeName : string)
    (w : World) (client : GoogleGenAI) :
  ai w = Some client ->
  fileSearchStores_list B = map inr stores ->
  files_list B = map inr files ->
  no_empty_later_page stores = true ->
  no_empty_later_page files = true ->
  listRagStores B w =
    (Returned (omap well_formed_store (concat stores)),
     emits (page_requests StoresList StoresNextPage (length stores)) w)
  /\ listDocumentsInStore B storeName w =
    (Returned (List.filter (in_store_scope storeName) (concat files)),
     emits (page_requests FilesList FilesNextPage (length files)) w)
  /\ (forall store n d,
        well_formed_store store = Some {| name := n; displayName := d |} <->
        fss_name store = Some n /\ fss_displayName store = Some d
        /\ n <> "" /\ d <> "")
  /\ (forall doc,
        in_store_scope storeName doc = true <->
        exists rest, doc_name doc = Some (storeName ++ "/" ++ rest))
  /\ (forall store, fss_name store = None -> well_formed_store store = None)
  /\ (forall doc, doc_name doc = None -> in_store_scope storeName doc = false).
Proof.
  intros Hai Hstores Hfiles Hs Hf. split; [|split; [|split; [|split; [|split]]]].
  - by apply listRagStores_run with client.
  - by apply listDocumentsInStore_run with client.
  - apply well_formed_store_Some.
  - apply in_store_scope_prefix.
  - intros store H. unfold well_formed_store. by rewrite H.
  - intros doc H. unfold in_store_scope. by rewrite H.
Qed.

Lemma listings_return_well_formed_records_in_page_order_witness :
  listRagStores (with_listings paged_stores paged_files) ready =
    (Returned [ {| name := "fileSearchStores/a"; displayName := "Assembly" |};
                {| name := "fileSearchStores/c"; displayName := "Calibration" |} ],
     emits [Call StoresList; Call StoresNextPage; Call StoresNextPage] ready)
  /\ listDocumentsInStore (with_listings paged_stores paged_files)
       "fileSearchStores/a" ready =
    (Returned [ doc_of (Some "fileSearchStores/a/1");
                doc_of (Some "fileSearchStores/a/4") ],
     emits [Call FilesList; Call FilesNextPage; Call FilesNextPage] ready).
Proof.
  destruct (listings_return_well_formed_records_in_page_order
              (with_listings paged_stores paged_files) paged_stores paged_files
              "fileSearchStores/a" ready {| apiKey := Some "key" |}
              eq_refl eq_refl eq_refl eq_refl eq_refl) as (Hs & Hd & _).
  split; [exact Hs | exact Hd].
Defined.

(** C3, as stated, fails in two ways.  Read with the [name] as the identity
    field that makes a record well formed, it promises one record for every
    named record of the pages: a store record with a name and no display name
    is left out all the same.  And it promises a result for every page
    sequence: after a page without items that is not the first, the loop
    raises and nothing is returned. *)
Lemma listings_untitled_record_and_empty_page_counterexample :
  ~ (exists stores w',
       listRagStores (with_listings [[store_a1; store_untitled]] []) ready
       = (Returned stores, w')
       /\ map name stores = omap fss_name [store_a1; store_untitled])
  /\ ~ (exists stores w',
          listRagStores (with_listings mixed_stores mixed_files) ready
          = (Returned stores, w')
          /\ map name stores = omap fss_name (concat mixed_stores)).
Proof.
  split.
  - intros (stores & w' & Hrun & Hnames).
    assert (Hstores : stores = [ {| name := "fileSearchStores/a";
                                    displayName := "Assembly" |} ]).
    { cbv in Hrun. by injection Hrun as <- _. }
    subst stores. discriminate Hnames.
  - intros (stores & w' & Hrun & _). cbv in Hrun. discriminate Hrun.
Qed.

(** C4, as amended. Whatever the global file listing holds, provided every
    page of it after the first has an item, [listDocumentsInStore] returns an
    entry if and only if the listing holds it and its name is the store name,
    a slash and a remainder; entries of other stores and entries without a
    name are therefore not returned. *)
Theorem listDocumentsInStore_keeps_exactly_the_store
    (B : Backend) (files : list (list Document)) (storeName : string)
    (w : World) (client : GoogleGenAI) :
  ai w = Some client ->
  files_list B = map inr files ->
  no_empty_later_page files = true ->
  exists documents w',
    listDocumentsInStore B storeName w = (Returned documents, w')
    /\ forall doc,
         doc ∈ documents <->
         doc ∈ concat files
         /\ exists rest, doc_name doc = Some (storeName ++ "/" ++ rest).
Proof.
  intros Hai Hfiles Hitems. eexists _, _. split.
  - by apply listDocumentsInStore_run with client.
  - intros doc. rewrite !list_elem_of_In, filter_In.
    by rewrite in_store_scope_prefix.
Qed.

Lemma listDocumentsInStore_keeps_exactly_the_store_witness :
  exists documents w',
    listDocumentsInStore (with_listings paged_stores paged_files)
      "fileSearchStores/a" ready = (Returned documents, w')
    /\ forall doc,
         doc ∈ documents <->
         doc ∈ concat paged_files
         /\ exists rest, doc_name doc = Some ("fileSearchStores/a" ++ "/" ++ rest).
Proof.
  apply (listDocumentsInStore_keeps_exactly_the_store
           (with_listings paged_stores paged_files) paged_files
           "fileSearchStores/a" ready {| apiKey := Some "key" |});
    reflexivity.
Defined.

(** C4, as stated, fails on a listing with a page without items behind the
    first: the entry of the store on the first page is not returned, the call
    raises. *)
Lemma listDocumentsInStore_empty_page_counterexample :
  ~ (exists documents w',
       listDocumentsInStore (with_listings mixed_stores mixed_files)
         "fileSearchStores/a" ready = (Returned documents, w')
       /\ forall doc,
            doc ∈ documents <->
            doc ∈ concat mixed_files
            /\ exists rest,
                 doc_name doc = Some ("fileSearchStores/a" ++ "/" ++ rest)).
Proof.
  intros (documents & w' & Hrun & _). cbv in Hrun. discriminate Hrun.
Qed.

(** C10, as amended. Whatever pages the backend returns, provided every
    page after the first has an item, [listRagStores] resolves and includes a
    store record if and only if its [name] and its [displayName] are both
    present and both non-empty; a record that carries a name but no display
    name, or an empty one, is left out. *)
Theorem listRagStores_includes_iff_name_and_displayName
    (B : Backend) (pages : list (list FileSearchStore))
    (w : World) (client : GoogleGenAI) :
  ai w = Some client ->
  fileSearchStores_list B = map inr pages ->
  no_empty_later_page pages = true ->
  exists stores w',
    listRagStores B w = (Returned stores, w')
    /\ forall n d,
         {| name := n; displayName := d |} ∈ stores <->
         exists record,
           record ∈ concat pages
           /\ fss_name record = Some n /\ fss_displayName record = Some d
           /\ n <> "" /\ d <> "".
Proof.
  intros Hai Hpages Hitems. eexists _, _. split.
  - by apply listRagStores_run with client.
  - intros n d. rewrite list_elem_of_omap.
    split; intros (record & Hin & H); exists record; (split; [exact Hin|]);
      by apply well_formed_store_Some.
Qed.

Lemma listRagStores_includes_iff_name_and_displayName_witness :
  exists stores w',
    listRagStores (with_listings paged_stores paged_files) ready
    = (Returned stores, w')
    /\ forall n d,
         {| name := n; displayName := d |} ∈ stores <->
         exists record,
           record ∈ concat paged_stores
           /\ fss_name record = Some n /\ fss_displayName record = Some d
           /\ n <> "" /\ d <> "".
Proof.
  apply (listRagStores_includes_iff_name_and_displayName
           (with_listings paged_stores paged_files) paged_stores
           ready {| apiKey := Some "key" |});
    reflexivity.
Defined.

(** C10, as stated, fails on a record whose display name is the empty
    string: both fields are present, and the record is left out.  And it
    fails for a page sequence with a page without items behind the first: no
    record is included then, the call raises. *)
Lemma listRagStores_blank_displayName_counterexample :
  ~ (forall stores w',
       listRagStores (with_listings [[store_blank_title]] []) ready
       = (Returned stores, w') ->
       forall n d,
         {| name := n; displayName := d |} ∈ stores <->
         exists record,
           record ∈ [store_blank_title]
           /\ fss_name record = Some n /\ fss_displayName record = Some d)
  /\ ~ (exists stores w',
          listRagStores (with_listings mixed_stores mixed_files) ready
          = (Returned stores, w')
          /\ forall n d,
               {| name := n; displayName := d |} ∈ stores <->
               exists record,
                 record ∈ concat mixed_stores
                 /\ fss_name record = Some n
                 /\ fss_displayName record = Some d).
Proof.
  split.
  - intros claim.
    specialize (claim [] _ eq_refl "fileSearchStores/b" "").
    destruct claim as [_ included].
    assert (Hin : {| name := "fileSearchStores/b"; displayName := "" |}
                  ∈ @nil RagStore).
    { apply included. exists store_blank_title.
      split; [apply list_elem_of_here | split; reflexivity]. }
    by apply elem_of_nil in Hin.
  - intros (stores & w' & Hrun & _). cbv in Hrun. discriminate Hrun.
Qed.

(** What both listings do when a page behind the first comes without
    items, all pages before it having items (but for the first, which may be
    empty): they are rejected with a [TypeError] once that page has been
    fetched; the records collected so far are not returned and no further
    page is requested. *)
Lemma listings_raise_on_a_page_without_items
    (B : Backend) (w : World) (client : GoogleGenAI) :
  ai w = Some client ->
  (forall page pages later,
     forallb has_items pages = true ->
     fileSearchStores_list B
     = (inr page :: map inr pages ++ inr [] :: later)%list ->
     listRagStores B w =
     (Thrown TypeError,
      emits (page_requests StoresList StoresNextPage (S (S (length pages)))) w))
  /\ (forall page pages later ragStoreName,
        forallb has_items pages = true ->
        files_list B = (inr page :: map inr pages ++ inr [] :: later)%list ->
        listDocumentsInStore B ragStoreName w =
        (Thrown TypeError,
         emits (page_requests FilesList FilesNextPage (S (S (length pages))))
           w)).
Proof.
  intros Hai. split.
  - intros page pages later Hitems Hpager. unfold listRagStores.
    rewrite (guarded_ready _ _ _ Hai), Hpager.
    apply (listing_undefined well_formed_store); [|done|exact Hitems].
    intros store stores. f_equal. apply stores_body_pushes.
  - intros page pages later ragStoreName Hitems Hpager.
    unfold listDocumentsInStore.
    rewrite (guarded_ready _ _ _ Hai), Hpager.
    apply (listing_undefined
             (fun doc => if in_store_scope ragStoreName doc
                         then Some doc else None)); [|done|exact Hitems].
    intros doc documents. f_equal. apply documents_body_pushes.
Qed.

Example listRagStores_mixed_stores :
  listRagStores (with_listings mixed_stores mixed_files) ready =
  (Thrown TypeError, emits [Call StoresList; Call StoresNextPage] ready).
Proof. reflexivity. Qed.

Example listDocumentsInStore_mixed_files :
  listDocumentsInStore (with_listings mixed_stores mixed_files)
    "fileSearchStores/a" ready =
  (Thrown TypeError, emits [Call FilesList; Call FilesNextPage] ready).
Proof. reflexivity. Qed.

(** ** The polling loop *)

Section Polling.

Variable B : Backend.

Lemma poll_done fuel op w :
  truthy_bool (done op) = true -> poll B fuel op w = (Returned tt, w).
Proof. intros H. destruct fuel; simpl; by rewrite H. Qed.

(** One round of the loop: the timer, the status request, the loop again
    on the reply. *)
Lemma poll_round fuel op op' w :
  truthy_bool (done op) = false ->
  operations_get B (polls w) op = inr op' ->
  poll B (S fuel) op w =
  poll B fuel op'
    {| ai := ai w; trace := (trace w ++ poll_rounds [op])%list;
       polls := S (polls w) |}.
Proof.
  intros Hop Hget. simpl. rewrite Hop.
  cbv [bind delay log operations_get_call emit]; simpl.
  rewrite Hget. by rewrite <- app_assoc.
Qed.

Lemma poll_returns k : forall fuel op w,
  truthy_bool (done op) = false ->
  (forall i, i < k -> reports_unfinished B (polls w + i)) ->
  reports_finished B (polls w + k) ->
  k < fuel ->
  exists ops,
    length ops = S k
    /\ poll B fuel op w =
       (Returned tt,
        {| ai := ai w; trace := (trace w ++ poll_rounds ops)%list;
           polls := polls w + S k |}).
Proof.
  induction k as [|k IH]; intros fuel op w Hop Hbefore Hat Hfuel;
    (destruct fuel as [|fuel]; [lia|]).
  - destruct (Hat op) as (op' & Hget & Hdone).
    rewrite Nat.add_0_r in Hget.
    exists [op]. split; [reflexivity|].
    rewrite (poll_round _ _ _ _ Hop Hget), (poll_done _ _ _ Hdone).
    by rewrite Nat.add_1_r.
  - destruct (Hbefore 0 ltac:(lia) op) as (op' & Hget & Hnot).
    rewrite Nat.add_0_r in Hget.
    rewrite (poll_round _ _ _ _ Hop Hget).
    destruct (IH fuel op'
                {| ai := ai w; trace := (trace w ++ poll_rounds [op])%list;
                   polls := S (polls w) |}) as (ops & Hlen & Hrun);
      simpl; try done; try lia.
    + intros i Hi. replace (S (polls w + i)) with (polls w + S i) by lia.
      apply Hbefore. lia.
    + replace (S (polls w + k)) with (polls w + S k) by lia. exact Hat.
    + exists (op :: ops). split; [simpl; by rewrite Hlen|].
      rewrite Hrun. simpl. rewrite <- app_assoc.
      repeat f_equal. lia.
Qed.

Lemma poll_pending fuel : forall k op w,
  truthy_bool (done op) = false ->
  (forall i, i < k -> reports_unfinished B (polls w + i)) ->
  fuel <= k ->
  (poll B fuel op w).1 = Pending.
Proof.
  induction fuel as [|fuel IH]; intros k op w Hop Hbefore Hfuel.
  - simpl. by rewrite Hop.
  - destruct k as [|k]; [lia|].
    destruct (Hbefore 0 ltac:(lia) op) as (op' & Hget & Hnot).
    rewrite Nat.add_0_r in Hget.
    rewrite (poll_round _ _ _ _ Hop Hget).
    apply (IH k); simpl; try done; try lia.
    intros i Hi. replace (S (polls w + i)) with (polls w + S i) by lia.
    apply Hbefore. lia.
Qed.

(** Both ingestion calls are the upload request followed by the loop. *)
Lemma uploadToRagStore_run fuel ragStoreName file w client started :
  ai w = Some client ->
  uploadToFileSearchStore B (uploadToRagStore_params ragStoreName file)
  = inr started ->
  uploadToRagStore B fuel ragStoreName file w =
  poll B fuel started
    (emit (Call (UploadToFileSearchStore
                   (uploadToRagStore_params ragStoreName file))) w).
Proof.
  intros Hai Hup. unfold uploadToRagStore.
  rewrite (guarded_ready _ _ _ Hai). unfold bind. by rewrite Hup.
Qed.

Lemma uploadDocument_run fuel ragStoreName file metadata w client started :
  ai w = Some client ->
  uploadToFileSearchStore B (uploadDocument_params ragStoreName file metadata)
  = inr started ->
  uploadDocument B fuel ragStoreName file metadata w =
  poll B fuel started
    (emit (Call (UploadToFileSearchStore
                   (uploadDocument_params ragStoreName file metadata))) w).
Proof.
  intros Hai Hup. unfold uploadDocument.
  rewrite (guarded_ready _ _ _ Hai). unfold bind. by rewrite Hup.
Qed.

End Polling.

(** C2. Take an ingestion call whose upload request hands out an operation
    that is not done, and a backend that reports the operation unfinished at
    the next [k] status requests and finished at the one after.  Then the
    call makes exactly [k + 1] status requests, each one right after a sleep
    of 3000 ms, and resolves after the last of them: it resolves as soon as
    the loop is allowed more than [k] rounds, and it is still pending when
    the loop is stopped after [k] rounds or fewer. *)
Theorem ingestion_fetches_status_k_plus_one_times
    (B : Backend) (w : World) (client : GoogleGenAI)
    (ragStoreName : string) (file : JsFile) (metadata : list CustomMetadata)
    (started : Operation) (k : nat) :
  ai w = Some client ->
  uploadToFileSearchStore B (uploadToRagStore_params ragStoreName file)
  = inr started ->
  uploadToFileSearchStore B (uploadDocument_params ragStoreName file metadata)
  = inr started ->
  truthy_bool (done started) = false ->
  (forall i, i < k -> reports_unfinished B (polls w + i)) ->
  reports_finished B (polls w + k) ->
  (forall fuel, k < fuel ->
     (exists ops,
        length ops = S k
        /\ uploadToRagStore B fuel ragStoreName file w =
           (Returned tt,
            {| ai := ai w;
               trace := (trace w
                         ++ Call (UploadToFileSearchStore
                                    (uploadToRagStore_params ragStoreName file))
                         :: poll_rounds ops)%list;
               polls := polls w + S k |}))
     /\ (exists ops,
           length ops = S k
           /\ uploadDocument B fuel ragStoreName file metadata w =
              (Returned tt,
               {| ai := ai w;
                  trace := (trace w
                            ++ Call (UploadToFileSearchStore
                                       (uploadDocument_params ragStoreName file
                                          metadata))
                            :: poll_rounds ops)%list;
                  polls := polls w + S k |})))
  /\ (forall fuel, fuel <= k ->
        (uploadToRagStore B fuel ragStoreName file w).1 = Pending
        /\ (uploadDocument B fuel ragStoreName file metadata w).1 = Pending).
Proof.
  intros Hai Hup1 Hup2 Hstarted Hbefore Hat. split.
  - intros fuel Hfuel.
    rewrite (uploadToRagStore_run B _ _ _ _ _ _ Hai Hup1).
    rewrite (uploadDocument_run B _ _ _ _ _ _ _ Hai Hup2).
    split.
    + destruct (poll_returns B k fuel started
                  (emit (Call (UploadToFileSearchStore
                                 (uploadToRagStore_params ragStoreName file))) w)
                  Hstarted Hbefore Hat Hfuel) as (ops & Hlen & Hrun).
      exists ops. split; [exact Hlen|].
      rewrite Hrun. simpl. by rewrite <- app_assoc.
    + destruct (poll_returns B k fuel started
                  (emit (Call (UploadToFileSearchStore
                                 (uploadDocument_params ragStoreName file
                                    metadata))) w)
                  Hstarted Hbefore Hat Hfuel) as (ops & Hlen & Hrun).
      exists ops. split; [exact Hlen|].
      rewrite Hrun. simpl. by rewrite <- app_assoc.
  - intros fuel Hfuel.
    rewrite (uploadToRagStore_run B _ _ _ _ _ _ Hai Hup1).
    rewrite (uploadDocument_run B _ _ _ _ _ _ _ Hai Hup2).
    split; by apply poll_pending with k.
Qed.

Lemma ingestion_fetches_status_k_plus_one_times_witness :
  (forall fuel, 2 < fuel ->
     (exists ops,
        length ops = 3
        /\ uploadToRagStore (with_operation just_started succeeded 2) fuel
             "fileSearchStores/a" sop_pdf ready =
           (Returned tt,
            {| ai := ai ready;
               trace := (trace ready
                         ++ Call (UploadToFileSearchStore
                                    (uploadToRagStore_params
                                       "fileSearchStores/a" sop_pdf))
                         :: poll_rounds ops)%list;
               polls := polls ready + 3 |}))
     /\ (exists ops,
           length ops = 3
           /\ uploadDocument (with_operation just_started succeeded 2) fuel
                "fileSearchStores/a" sop_pdf [] ready =
              (Returned tt,
               {| ai := ai ready;
                  trace := (trace ready
                            ++ Call (UploadToFileSearchStore
                                       (uploadDocument_params
                                          "fileSearchStores/a" sop_pdf []))
                            :: poll_rounds ops)%list;
                  polls := polls ready + 3 |})))
  /\ (forall fuel, fuel <= 2 ->
        (uploadToRagStore (with_operation just_started succeeded 2) fuel
           "fileSearchStores/a" sop_pdf ready).1 = Pending
        /\ (uploadDocument (with_operation just_started succeeded 2) fuel
              "fileSearchStores/a" sop_pdf [] ready).1 = Pending).
Proof.
  apply (ingestion_fetches_status_k_plus_one_times
           (with_operation just_started succeeded 2) ready
           {| apiKey := Some "key" |} "fileSearchStores/a" sop_pdf []
           just_started 2); try reflexivity.
  - intros i Hi op. destruct i as [|[|i]]; [| |lia];
      eexists; split; reflexivity.
  - intros op. eexists; split; reflexivity.
Defined.

(** Two rounds of "not done", then "done": three status requests, a sleep
    before each. *)
Example uploadDocument_three_fetches :
  uploadDocument (with_operation just_started succeeded 2) 10
    "fileSearchStores/a" sop_pdf [] ready =
  (Returned tt,
   {| ai := ai ready;
      trace :=
        [ Call (UploadToFileSearchStore
                  (uploadDocument_params "fileSearchStores/a" sop_pdf []));
          Sleep 3000; Call (OperationsGet just_started);
          Sleep 3000;
          Call (OperationsGet {| op_name := Some "operations/7";
                                 done := Some false; error := None |});
          Sleep 3000;
          Call (OperationsGet {| op_name := Some "operations/7";
                                 done := Some false; error := None |}) ];
      polls := 3 |}).
Proof. reflexivity. Qed.

(** An upload request answered with an operation that is done already is
    followed by no status request at all. *)
Lemma ingestion_done_at_once (B : Backend) (w : World) (client : GoogleGenAI)
    (ragStoreName : string) (file : JsFile) (metadata : list CustomMetadata)
    (finished : Operation) (fuel : nat) :
  ai w = Some client ->
  uploadToFileSearchStore B (uploadDocument_params ragStoreName file metadata)
  = inr finished ->
  truthy_bool (done finished) = true ->
  uploadDocument B fuel ragStoreName file metadata w =
  (Returned tt,
   emit (Call (UploadToFileSearchStore
                 (uploadDocument_params ragStoreName file metadata))) w).
Proof.
  intros Hai Hup Hdone.
  rewrite (uploadDocument_run B _ _ _ _ _ _ _ Hai Hup).
  by apply poll_done.
Qed.

(** C1, as amended. When the operation an ingestion call polls is done
    and carries a failure payload, the call makes no further status request
    and resolves; the payload is not looked at and nothing is raised.  This
    holds when the failed operation is the reply to the upload request, in
    which case there is no status request at all, and when it is the reply
    to the status request that follows [k] unfinished ones, in which case
    there are exactly [k + 1]. *)
Theorem ingestion_resolves_on_failed_operation
    (B : Backend) (w : World) (client : GoogleGenAI)
    (ragStoreName : string) (file : JsFile) (metadata : list CustomMetadata)
    (failed : Operation) (detail : string) :
  ai w = Some client ->
  truthy_bool (done failed) = true ->
  error failed = Some detail ->
  (uploadToFileSearchStore B (uploadToRagStore_params ragStoreName file)
   = inr failed ->
   uploadToFileSearchStore B (uploadDocument_params ragStoreName file metadata)
   = inr failed ->
   forall fuel,
     uploadToRagStore B fuel ragStoreName file w =
       (Returned tt,
        emit (Call (UploadToFileSearchStore
                      (uploadToRagStore_params ragStoreName file))) w)
     /\ uploadDocument B fuel ragStoreName file metadata w =
       (Returned tt,
        emit (Call (UploadToFileSearchStore
                      (uploadDocument_params ragStoreName file metadata))) w))
  /\ (forall started k,
        uploadToFileSearchStore B (uploadToRagStore_params ragStoreName file)
        = inr started ->
        uploadToFileSearchStore B
          (uploadDocument_params ragStoreName file metadata) = inr started ->
        truthy_bool (done started) = false ->
        (forall i, i < k -> reports_unfinished B (polls w + i)) ->
        (forall op, operations_get B (polls w + k) op = inr failed) ->
        forall fuel, k < fuel ->
          (exists w',
             uploadToRagStore B fuel ragStoreName file w = (Returned tt, w')
             /\ polls w' = polls w + S k)
          /\ (exists w',
                uploadDocument B fuel ragStoreName file metadata w
                = (Returned tt, w')
                /\ polls w' = polls w + S k)).
Proof.
  intros Hai Hdone _. split.
  - intros Hup1 Hup2 fuel.
    rewrite (uploadToRagStore_run B _ _ _ _ _ _ Hai Hup1).
    rewrite (uploadDocument_run B _ _ _ _ _ _ _ Hai Hup2).
    split; by apply poll_done.
  - intros started k Hup1 Hup2 Hstarted Hbefore Hat fuel Hfuel.
    assert (Hfin : reports_finished B (polls w + k)).
    { intros op. exists failed. by rewrite Hat. }
    rewrite (uploadToRagStore_run B _ _ _ _ _ _ Hai Hup1).
    rewrite (uploadDocument_run B _ _ _ _ _ _ _ Hai Hup2).
    split.
    + destruct (poll_returns B k fuel started
                  (emit (Call (UploadToFileSearchStore
                                 (uploadToRagStore_params ragStoreName file))) w)
                  Hstarted Hbefore Hfin Hfuel) as (ops & _ & ->).
      eexists. split; reflexivity.
    + destruct (poll_returns B k fuel started
                  (emit (Call (UploadToFileSearchStore
                                 (uploadDocument_params ragStoreName file
                                    metadata))) w)
                  Hstarted Hbefore Hfin Hfuel) as (ops & _ & ->).
      eexists. split; reflexivity.
Qed.

Lemma ingestion_resolves_on_failed_operation_witness :
  (forall fuel, 1 < fuel ->
     exists w',
       uploadDocument (with_operation just_started failed_operation 1) fuel
         "fileSearchStores/a" sop_pdf [] ready = (Returned tt, w')
       /\ polls w' = 2)
  /\ (forall fuel,
        uploadDocument (with_operation failed_operation failed_operation 0)
          fuel "fileSearchStores/a" sop_pdf [] ready =
        (Returned tt,
         emit (Call (UploadToFileSearchStore
                       (uploadDocument_params "fileSearchStores/a" sop_pdf [])))
           ready)).
Proof.
  split.
  - intros fuel Hfuel.
    destruct (ingestion_resolves_on_failed_operation
                (with_operation just_started failed_operation 1) ready
                {| apiKey := Some "key" |} "fileSearchStores/a" sop_pdf []
                failed_operation "UNSUPPORTED_FILE_TYPE"
                eq_refl eq_refl eq_refl) as [_ polled].
    refine (proj2 (polled just_started 1 eq_refl eq_refl eq_refl _ _
                     fuel Hfuel)).
    + intros i Hi op. destruct i as [|i]; [|lia].
      eexists; split; reflexivity.
    + intros op. reflexivity.
  - intros fuel.
    destruct (ingestion_resolves_on_failed_operation
                (with_operation failed_operation failed_operation 0) ready
                {| apiKey := Some "key" |} "fileSearchStores/a" sop_pdf []
                failed_operation "UNSUPPORTED_FILE_TYPE"
                eq_refl eq_refl eq_refl) as [at_once _].
    exact (proj2 (at_once eq_refl eq_refl fuel)).
Defined.

(** C1, as stated, fails: on an operation that is done with a failure
    payload the call raises nothing, whatever number of rounds the loop is
    allowed. *)
Lemma uploadDocument_failed_operation_counterexample :
  ~ (exists fuel e w',
       uploadDocument (with_operation failed_operation failed_operation 0)
         fuel "fileSearchStores/a" sop_pdf [] ready = (Thrown e, w')).
Proof.
  intros (fuel & e & w' & H).
  rewrite (ingestion_done_at_once
             (with_operation failed_operation failed_operation 0) ready
             {| apiKey := Some "key" |} "fileSearchStores/a" sop_pdf []
             failed_operation fuel eq_refl eq_refl eq_refl) in H.
  discriminate H.
Qed.

(** ** Guards, creation and query *)

(** C8. Before [initialize] has run, every exported operation (both
    listings, creation, both deletions, both uploads, the query and the
    suggestion generation) raises the "not initialized" error at once and
    leaves the world as it was: no backend request is made, nothing is
    logged, no timer is set. *)
Theorem operations_fail_fast_before_initialize
    (B : Backend) (supportedLanguages : gmap string string)
    (Object_prototype : string -> option string)
    (number : Type) (number_truthy : number -> bool)
    (trim : string -> string) (JSON_parse : string -> option (json number))
    (w : World) :
  ai w = None ->
  listRagStores B w = (Thrown BackendUnavailable, w)
  /\ (forall ragStoreName,
        listDocumentsInStore B ragStoreName w = (Thrown BackendUnavailable, w))
  /\ (forall displayName,
        createRagStore B displayName w = (Thrown BackendUnavailable, w))
  /\ (forall ragStoreName,
        deleteRagStore B ragStoreName w = (Thrown BackendUnavailable, w))
  /\ (forall documentName,
        deleteDocument B documentName w = (Thrown BackendUnavailable, w))
  /\ (forall fuel ragStoreName file,
        uploadToRagStore B fuel ragStoreName file w
        = (Thrown BackendUnavailable, w))
  /\ (forall fuel ragStoreName file metadata,
        uploadDocument B fuel ragStoreName file metadata w
        = (Thrown BackendUnavailable, w))
  /\ (forall ragStoreName query language,
        fileSearch B supportedLanguages Object_prototype ragStoreName query
          language w
        = (Thrown BackendUnavailable, w))
  /\ (forall ragStoreName language,
        generateExampleQuestions B supportedLanguages Object_prototype
          number_truthy
          trim JSON_parse ragStoreName language w
        = (Thrown BackendUnavailable, w)).
Proof.
  intros Hai. repeat split; intros; by apply guarded_fresh.
Qed.

Lemma operations_fail_fast_before_initialize_witness :
  listRagStores quiet fresh = (Thrown BackendUnavailable, fresh)
  /\ deleteDocument quiet "fileSearchStores/a/1" fresh
     = (Thrown BackendUnavailable, fresh)
  /\ uploadDocument quiet 3 "fileSearchStores/a" sop_pdf [] fresh
     = (Thrown BackendUnavailable, fresh)
  /\ generateExampleQuestions quiet languages browser_prototype int_truthy
    (fun s => s)
       (parse_table []) "fileSearchStores/a" "en" fresh
     = (Thrown BackendUnavailable, fresh).
Proof.
  destruct (operations_fail_fast_before_initialize quiet languages
    browser_prototype Z
              int_truthy (fun s => s) (parse_table []) fresh eq_refl)
    as (Hlist & _ & _ & _ & Hdel & _ & Hup & _ & Hgen).
  split; [exact Hlist|]. split; [apply Hdel|]. split; [apply Hup | apply Hgen].
Defined.

(** C7, as amended. [createRagStore] raises the "name is missing" error
    when the reply of the backend has no name or an empty one, and
    otherwise resolves to the name in the reply; in both cases the one
    creation request has been made. *)
Theorem createRagStore_name_or_invalid_response
    (B : Backend) (displayName : string) (reply : FileSearchStore)
    (w : World) (client : GoogleGenAI) :
  ai w = Some client ->
  fileSearchStores_create B displayName = inr reply ->
  (fss_name reply = None \/ fss_name reply = Some "" ->
   createRagStore B displayName w
   = (Thrown InvalidResponse, emit (Call (StoresCreate displayName)) w))
  /\ (forall n,
        fss_name reply = Some n -> n <> "" ->
        createRagStore B displayName w
        = (Returned n, emit (Call (StoresCreate displayName)) w)).
Proof.
  intros Hai Hreply. unfold createRagStore.
  rewrite (guarded_ready _ _ _ Hai). unfold bind.
  rewrite Hreply, await_resolves. split.
  - intros H. apply truthy_None in H. by rewrite H.
  - intros n Hn Hne.
    assert (H : truthy (fss_name reply) = Some n) by by apply truthy_Some.
    by rewrite H.
Qed.

Lemma createRagStore_name_or_invalid_response_witness :
  createRagStore quiet "Assembly" ready
  = (Returned "fileSearchStores/new", emit (Call (StoresCreate "Assembly")) ready)
  /\ createRagStore (with_create (inr store_nameless)) "Assembly" ready
     = (Thrown InvalidResponse, emit (Call (StoresCreate "Assembly")) ready).
Proof.
  split.
  - apply (createRagStore_name_or_invalid_response quiet "Assembly"
             {| fss_name := Some "fileSearchStores/new";
                fss_displayName := Some "Assembly" |}
             ready {| apiKey := Some "key" |} eq_refl eq_refl);
      [reflexivity | discriminate].
  - apply (createRagStore_name_or_invalid_response
             (with_create (inr store_nameless)) "Assembly" store_nameless
             ready {| apiKey := Some "key" |} eq_refl eq_refl).
    left. reflexivity.
Defined.

(** C7, as stated, fails on a reply whose name is the empty string: the
    name is not omitted, and the call raises instead of returning it. *)
Lemma createRagStore_empty_name_counterexample :
  ~ (forall reply,
       fileSearchStores_create
         (with_create (inr {| fss_name := Some ""; fss_displayName := None |}))
         "Assembly" = inr reply ->
       match fss_name reply with
       | None =>
           (createRagStore
              (with_create (inr {| fss_name := Some ""; fss_displayName := None |}))
              "Assembly" ready).1 = Thrown InvalidResponse
       | Some n =>
           (createRagStore
              (with_create (inr {| fss_name := Some ""; fss_displayName := None |}))
              "Assembly" ready).1 = Returned n
       end).
Proof.
  intros claim. specialize (claim _ eq_refl). discriminate claim.
Qed.

(** C9, as amended. For a language code the table has, the query names
    the language the table gives for it.  For a code that the table does not
    have, and that is not the name of a property every plain object inherits
    either, it names "the user's query language"; such a code makes no
    difference to how the call ends, which is the way the backend replies to
    the request.  The request is the question, an empty line and the
    directive "IMPORTANT: Please respond in <language>. DO NOT ASK ...",
    sent once, for the one store. *)
Theorem fileSearch_resolves_language_or_falls_back
    (B : Backend) (supportedLanguages : gmap string string)
    (Object_prototype : string -> option string)
    (ragStoreName query language : string)
    (w : World) (client : GoogleGenAI) :
  ai w = Some client ->
  (forall languageName,
     supportedLanguages !! language = Some languageName ->
     languageName <> "" ->
     fileSearch B supportedLanguages Object_prototype ragStoreName query
       language w
     = answer_in B ragStoreName query languageName w)
  /\ (supportedLanguages !! language = None ->
      Object_prototype language = None ->
      fileSearch B supportedLanguages Object_prototype ragStoreName query
        language w
      = answer_in B ragStoreName query "the user's query language" w
      /\ forall response,
           models_generateContent B
             (query_request ragStoreName query "the user's query language")
           = inr response ->
           fileSearch B supportedLanguages Object_prototype ragStoreName query
             language w
           = (Returned {| qr_text := text response;
                          qr_groundingChunks := groundingChunks_of response |},
              emit (Call (GenerateContent
                            (query_request ragStoreName query
                               "the user's query language"))) w)).
Proof.
  intros Hai.
  assert (Hrun : forall languageName,
             languageName_or supportedLanguages Object_prototype language
               "the user's query language" = languageName ->
             fileSearch B supportedLanguages Object_prototype ragStoreName query
               language w
             = answer_in B ragStoreName query languageName w).
  { intros languageName Hname.
    unfold fileSearch, answer_in, fileSearch_params, query_request,
      fileSearch_contents.
    rewrite (guarded_ready _ _ _ Hai), Hname. unfold bind.
    destruct (models_generateContent B _) as [e|response]; reflexivity. }
  split.
  - intros languageName Hsome Hne. apply Hrun. unfold languageName_or.
    rewrite Hsome.
    assert (H : truthy (Some languageName) = Some languageName)
      by by apply truthy_Some.
    by rewrite H.
  - intros Hnone Hplain.
    assert (Hname : languageName_or supportedLanguages Object_prototype language
                      "the user's query language"
                    = "the user's query language").
    { unfold languageName_or. by rewrite Hnone, Hplain. }
    split; [by apply Hrun|].
    intros response Hreply. rewrite (Hrun _ Hname). unfold answer_in.
    by rewrite Hreply.
Qed.

Lemma fileSearch_resolves_language_or_falls_back_witness :
  fileSearch quiet languages browser_prototype "fileSearchStores/a" "Torque?"
    "de" ready
  = answer_in quiet "fileSearchStores/a" "Torque?" "German" ready
  /\ fileSearch quiet languages browser_prototype "fileSearchStores/a" "Torque?"
       "tlh" ready
     = answer_in quiet "fileSearchStores/a" "Torque?"
         "the user's query language" ready.
Proof.
  destruct (fileSearch_resolves_language_or_falls_back quiet languages
              browser_prototype "fileSearchStores/a" "Torque?" "de" ready
              {| apiKey := Some "key" |} eq_refl) as [known _].
  destruct (fileSearch_resolves_language_or_falls_back quiet languages
              browser_prototype "fileSearchStores/a" "Torque?" "tlh" ready
              {| apiKey := Some "key" |} eq_refl) as [_ unknown].
  split.
  - apply known; [reflexivity | discriminate].
  - apply unknown; reflexivity.
Defined.

(** C9, as stated, fails for the code "toString": the table does not have
    it, but the table is a plain object and inherits a function under that
    name, which is truthy; the directive then names the text of that function
    and not "the user's query language". *)
Lemma fileSearch_inherited_name_counterexample :
  ~ (languages !! "toString" = None ->
     fileSearch quiet languages browser_prototype "fileSearchStores/a" "Torque?"
       "toString" ready
     = answer_in quiet "fileSearchStores/a" "Torque?"
         "the user's query language" ready).
Proof.
  intros claim. specialize (claim eq_refl).
  apply (f_equal (fun r => trace r.2)) in claim.
  cbv in claim. discriminate claim.
Qed.

(** ** Suggested questions *)

Section Coercion.

Context {number : Type}.
Variable number_truthy : number -> bool.

Lemma filter_strings_elem (l : list (json number)) s :
  s ∈ filter_strings l <-> JStr s ∈ l.
Proof.
  unfold filter_strings. rewrite list_elem_of_omap. split.
  - intros (q & Hin & Hq). destruct q; try discriminate.
    injection Hq as <-. exact Hin.
  - intros Hin. exists (JStr s). split; [exact Hin | reflexivity].
Qed.

Lemma get_questions_entries (item : json number) :
  is_null item = false ->
  exists q,
    get_questions item = inr q
    /\ flatten1 (or_empty number_truthy q)
       = questions_entries number_truthy item.
Proof.
  intros Hnull. destruct item as [|b|n|s|items|fields]; try discriminate;
    try (exists None; split; reflexivity).
  exists (fields !! "questions"). split; [reflexivity|]. simpl.
  destruct (fields !! "questions") as [[|b|n|s|items|fields']|]; simpl;
    try reflexivity.
  - by destruct b.
  - by destruct (number_truthy n).
  - by destruct (String.eqb s "").
Qed.

Lemma flatMap_questions_entries (items : list (json number)) :
  Forall (fun item => is_null item = false) items ->
  flatMap_questions number_truthy items
  = inr (concat (map (questions_entries number_truthy) items)).
Proof.
  induction 1 as [|item items Hitem _ IH]; [reflexivity|].
  destruct (get_questions_entries item Hitem) as (q & Hq & Hentries).
  simpl. by rewrite Hq, IH, Hentries.
Qed.

Lemma flatMap_questions_null (items : list (json number)) :
  Exists (fun item => is_null item = true) items ->
  flatMap_questions number_truthy items = inl TypeError.
Proof.
  induction 1 as [item items Hitem|item items _ IH].
  - destruct item; try discriminate. reflexivity.
  - destruct item; simpl; by rewrite ?IH.
Qed.

Lemma flatMap_questions_inr (items : list (json number)) qs :
  flatMap_questions number_truthy items = inr qs ->
  Forall (fun item => is_null item = false) items.
Proof.
  revert qs. induction items as [|item items IH]; intros qs H; [constructor|].
  simpl in H. destruct (get_questions item) as [e|q] eqn:Hq; [done|].
  destruct (flatMap_questions number_truthy items) as [e|tail] eqn:Htail; [done|].
  constructor; [|by eapply IH].
  destruct item; try reflexivity. discriminate Hq.
Qed.

(** The test on the first element, said on the value. *)
Lemma topic_shape (firstItem : json number) :
  String.eqb (typeof firstItem) "object"
  && negb (is_null firstItem)
  && questions_in firstItem && questions_isArray firstItem
  = true <->
  exists fields entries,
    firstItem = JObj fields /\ fields !! "questions" = Some (JArr entries).
Proof.
  split.
  - destruct firstItem as [|b|n|s|items|fields]; try discriminate.
    simpl. unfold questions_isArray; simpl.
    destruct (fields !! "questions") as [[|b|n|s|items|fields']|] eqn:Hq;
      simpl; try discriminate; try (rewrite andb_false_r; discriminate).
    intros _. by exists fields, items.
  - intros (fields & entries & -> & Hq). simpl.
    unfold questions_isArray; simpl. rewrite Hq. reflexivity.
Qed.

(** C6, as amended. For every parsed non-empty array: if the first
    element is an object with an array-valued [questions], the result is the
    string entries of what all the elements add, in order (an element adds
    the entries of its [questions] array, or its [questions] itself when
    that is another truthy value), provided no later element is [null]; if
    one is, a [TypeError] is raised, which the caller turns into the empty
    result.  Else, if the first element is a string, the result is the
    string entries of the array.  Else the result is empty, after a
    warning. *)
Theorem coerce_questions_by_shape_of_first_element
    (firstItem : json number) (rest : list (json number)) (w : World) :
  (forall fields entries,
     firstItem = JObj fields ->
     fields !! "questions" = Some (JArr entries) ->
     (Forall (fun item => is_null item = false) rest ->
      coerce_questions number_truthy (JArr (firstItem :: rest)) w
      = (Returned
           (filter_strings
              (concat (map (questions_entries number_truthy)
                         (firstItem :: rest)))), w))
     /\ (Exists (fun item => is_null item = true) rest ->
         coerce_questions number_truthy (JArr (firstItem :: rest)) w
         = (Thrown TypeError, w)))
  /\ (forall s,
        firstItem = JStr s ->
        coerce_questions number_truthy (JArr (firstItem :: rest)) w
        = (Returned (filter_strings (firstItem :: rest)), w))
  /\ ((forall fields entries,
         firstItem = JObj fields ->
         fields !! "questions" <> Some (JArr entries)) ->
      (forall s, firstItem <> JStr s) ->
      coerce_questions number_truthy (JArr (firstItem :: rest)) w
      = (Returned [], emit ConsoleWarn w)).
Proof.
  split; [|split].
  - intros fields entries -> Hq.
    assert (Hshape := proj2 (topic_shape (JObj fields))
                        (ex_intro _ fields (ex_intro _ entries
                           (conj eq_refl Hq)))).
    unfold coerce_questions. rewrite Hshape. split.
    + intros Hrest. rewrite flatMap_questions_entries; [reflexivity|].
      by constructor.
    + intros Hrest. rewrite flatMap_questions_null; [reflexivity|].
      by apply Exists_cons_tl.
  - intros s ->. reflexivity.
  - intros Hobj Hstr.
    unfold coerce_questions.
    destruct (String.eqb (typeof firstItem) "object"
              && negb (is_null firstItem)
              && questions_in firstItem
              && questions_isArray firstItem) eqn:Hshape.
    + apply topic_shape in Hshape as (fields & entries & Hf & Hq).
      by destruct (Hobj fields entries Hf).
    + destruct firstItem; try reflexivity. by destruct (Hstr s).
Qed.

End Coercion.

Lemma coerce_questions_by_shape_of_first_element_witness :
  coerce_questions int_truthy two_topics ready
  = (Returned
       (filter_strings
          (concat (map (questions_entries int_truthy)
                     [ topic "A" (JArr [JStr "q1"]);
                       topic "B" (JArr [JStr "q2"; JStr "q3"]) ]))), ready)
  /\ coerce_questions int_truthy
       (JArr [topic "A" (JArr [JStr "q1"]); JNull]) ready
     = (Thrown TypeError, ready)
  /\ coerce_questions int_truthy (JArr [JStr "q1"; JNum 2%Z; JStr "q2"]) ready
     = (Returned (filter_strings [JStr "q1"; JNum 2%Z; JStr "q2"]), ready).
Proof.
  split; [|split].
  - destruct (coerce_questions_by_shape_of_first_element int_truthy
                (topic "A" (JArr [JStr "q1"]))
                [topic "B" (JArr [JStr "q2"; JStr "q3"])] ready)
      as [topics _].
    apply (topics _ [JStr "q1"] eq_refl); [vm_compute; reflexivity|].
    repeat constructor.
  - destruct (coerce_questions_by_shape_of_first_element int_truthy
                (topic "A" (JArr [JStr "q1"])) [JNull] ready)
      as [topics _].
    apply (topics _ [JStr "q1"] eq_refl); [vm_compute; reflexivity|].
    apply Exists_cons_hd. reflexivity.
  - destruct (coerce_questions_by_shape_of_first_element int_truthy
                (JStr "q1") [JNum 2%Z; JStr "q2"] ready)
      as (_ & strings & _).
    apply (strings "q1" eq_refl).
Defined.

(** The two-topic reply of the design's examples yields its three
    questions. *)
Example coerce_questions_two_topics :
  coerce_questions int_truthy two_topics ready
  = (Returned ["q1"; "q2"; "q3"], ready).
Proof. vm_compute. reflexivity. Qed.

(** C6, as stated, fails when a later element is [null]: the first
    element is an object with an array-valued [questions], and the result is
    not the string entries of the elements' [questions] arrays. *)
Lemma coerce_questions_null_element_counterexample :
  ~ ((coerce_questions int_truthy
        (JArr [topic "A" (JArr [JStr "q1"]); JNull]) ready).1
     = Returned
         (filter_strings
            (concat (map questions_array_entries
                       [topic "A" (JArr [JStr "q1"]); JNull])))).
Proof. vm_compute. discriminate. Qed.

(** The coercion never stays pending, and a non-empty result comes from
    one of the two accepted shapes only. *)
Lemma coerce_questions_settles {number} (number_truthy : number -> bool)
    (parsedData : json number) (w : World) :
  (exists e, coerce_questions number_truthy parsedData w = (Thrown e, w))
  \/ (exists w', coerce_questions number_truthy parsedData w = (Returned [], w'))
  \/ (exists questions firstItem rest,
        coerce_questions number_truthy parsedData w = (Returned questions, w)
        /\ parsedData = JArr (firstItem :: rest)
        /\ ((exists s, firstItem = JStr s)
            \/ ((exists fields entries,
                   firstItem = JObj fields
                   /\ fields !! "questions" = Some (JArr entries))
                /\ Forall (fun item => is_null item = false) rest))).
Proof.
  destruct parsedData as [|b|n|s|items|fields];
    try (right; left; eexists; reflexivity).
  destruct items as [|firstItem rest]; [right; left; eexists; reflexivity|].
  unfold coerce_questions.
  destruct (String.eqb (typeof firstItem) "object" && negb (is_null firstItem)
            && questions_in firstItem && questions_isArray firstItem)
    eqn:Hshape.
  - destruct (flatMap_questions number_truthy (firstItem :: rest))
      as [e|qs] eqn:Hflat.
    + left. by exists e.
    + right; right. exists (filter_strings qs), firstItem, rest.
      split; [reflexivity|]. split; [reflexivity|]. right.
      split; [by apply topic_shape|].
      apply flatMap_questions_inr in Hflat. by inversion Hflat.
  - destruct firstItem as [|b|n|s|items|fields];
      try (right; left; eexists; reflexivity).
    right; right. eexists _, (JStr s), rest.
    split; [reflexivity|]. split; [reflexivity|]. left. by exists s.
Qed.

(** C5, as amended. Once the client is initialized, [generateExampleQuestions]
    resolves whatever the backend replies and whatever the parser makes of
    the text: it never raises and never stays pending.  It resolves to the
    empty list on every path but one: a non-empty result means that the
    backend replied, that the reply had a text, that the extracted slice
    parsed to a non-empty array, and that the first element was a string, or
    an object with an array-valued [questions] with no [null] behind it. *)
Theorem generateExampleQuestions_absorbs_failures_once_initialized
    (B : Backend) (supportedLanguages : gmap string string)
    (Object_prototype : string -> option string)
    {number : Type} (number_truthy : number -> bool)
    (trim : string -> string) (JSON_parse : string -> option (json number))
    (ragStoreName language : string) (w : World) (client : GoogleGenAI) :
  ai w = Some client ->
  exists questions w',
    generateExampleQuestions B supportedLanguages Object_prototype
      number_truthy trim
      JSON_parse ragStoreName language w = (Returned questions, w')
    /\ (questions <> [] ->
        exists response t firstItem rest,
          models_generateContent B
            (exampleQuestions_params supportedLanguages Object_prototype
              ragStoreName language)
          = inr response
          /\ text response = Some t
          /\ JSON_parse (extract_json (trim t)) = Some (JArr (firstItem :: rest))
          /\ ((exists s, firstItem = JStr s)
              \/ ((exists fields entries,
                     firstItem = JObj fields
                     /\ fields !! "questions" = Some (JArr entries))
                  /\ Forall (fun item => is_null item = false) rest))).
Proof.
  intros Hai. unfold generateExampleQuestions.
  rewrite (guarded_ready _ _ _ Hai).
  cbv [try_catch bind await log ret throw].
  destruct (models_generateContent B _) as [e|response] eqn:Hreply;
    [by eexists _, _|].
  destruct (text response) as [t|] eqn:Htext; [|by eexists _, _].
  destruct (JSON_parse (extract_json (trim t))) as [parsedData|] eqn:Hparse;
    [|by eexists _, _].
  destruct (coerce_questions_settles number_truthy parsedData
              (emit (Call (GenerateContent
                             (exampleQuestions_params supportedLanguages
                               Object_prototype
                                ragStoreName language))) w))
    as [[e ->]|[[w' ->]|(questions & firstItem & rest & -> & -> & Hshape)]].
  - by eexists _, _.
  - by eexists _, _.
  - eexists _, _. split; [reflexivity|]. intros _.
    by exists response, t, firstItem, rest.
Qed.

Lemma generateExampleQuestions_absorbs_failures_once_initialized_witness :
  exists questions w',
    generateExampleQuestions (with_generate (inl (BackendError "503")))
      languages browser_prototype int_truthy (fun s => s) (parse_table [])
      "fileSearchStores/a" "en" ready = (Returned questions, w')
    /\ (questions <> [] ->
        exists response t firstItem rest,
          models_generateContent (with_generate (inl (BackendError "503")))
            (exampleQuestions_params languages browser_prototype
              "fileSearchStores/a" "en")
          = inr response
          /\ text response = Some t
          /\ parse_table [] (extract_json ((fun s => s) t))
             = Some (JArr (firstItem :: rest))
          /\ ((exists s, firstItem = JStr s)
              \/ ((exists fields entries,
                     firstItem = JObj fields
                     /\ fields !! "questions" = Some (JArr entries))
                  /\ Forall (fun item => is_null item = false) rest))).
Proof.
  apply (generateExampleQuestions_absorbs_failures_once_initialized
           (with_generate (inl (BackendError "503"))) languages
             browser_prototype int_truthy
           (fun s => s) (parse_table []) "fileSearchStores/a" "en" ready
           {| apiKey := Some "key" |}).
  reflexivity.
Defined.

(** C5, as stated, fails before [initialize] has run: the guard is outside
    the [try], and the call raises. *)
Lemma generateExampleQuestions_uninitialized_counterexample :
  ~ (exists questions w',
       generateExampleQuestions quiet languages browser_prototype int_truthy
         (fun s => s)
         (parse_table []) "fileSearchStores/a" "en" fresh
       = (Returned questions, w')).
Proof. intros (questions & w' & H). discriminate H. Qed.

(** ** The extractor from end to end *)

(** A fenced reply: the slice inside the fence goes to the parser. *)
Example generateExampleQuestions_fenced :
  (generateExampleQuestions (with_generate (reply_with q1_q2_fenced))
    languages browser_prototype
     int_truthy (fun s => s)
     (parse_table [(q1_q2_slice, JArr [JStr "q1"; JStr "q2"])])
     "fileSearchStores/a" "en" ready).1
  = Returned ["q1"; "q2"].
Proof. vm_compute. reflexivity. Qed.

(** A reply the parser rejects: the [SyntaxError] is logged, the result is
    empty. *)
Example generateExampleQuestions_not_json :
  generateExampleQuestions (with_generate (reply_with "not json at all"))
    languages browser_prototype int_truthy (fun s => s) (parse_table [])
    "fileSearchStores/a" "en" ready
  = (Returned [],
     emits [ Call (GenerateContent
                     (exampleQuestions_params languages browser_prototype
                       "fileSearchStores/a" "en"));
             ConsoleError SyntaxError ] ready).
Proof. vm_compute. reflexivity. Qed.

(** A [null] behind a well-shaped first element: the [TypeError] of the
    flattening is logged, the result is empty. *)
Example generateExampleQuestions_null_element :
  generateExampleQuestions (with_generate (reply_with "[...]"))
    languages browser_prototype int_truthy (fun s => s)
    (parse_table [("[...]", JArr [topic "A" (JArr [JStr "q1"]); JNull])])
    "fileSearchStores/a" "en" ready
  = (Returned [],
     emits [ Call (GenerateContent
                     (exampleQuestions_params languages browser_prototype
                       "fileSearchStores/a" "en"));
             ConsoleError TypeError ] ready).
Proof. vm_compute. reflexivity. Qed.

(** * Further properties of the service *)

(** ** Listings that fail *)

(** X1. When the request for a page fails, all earlier ones having
    succeeded with pages of which none after the first is without items, both
    listings are rejected with the error of that request: the records of the
    earlier pages are not returned, and no page is requested after the failed
    one. *)
Theorem listings_fail_with_the_failed_page_request
    (B : Backend) (w : World) (client : GoogleGenAI) (e : Exn) :
  ai w = Some client ->
  (forall pages later,
     no_empty_later_page pages = true ->
     fileSearchStores_list B = (map inr pages ++ inl e :: later)%list ->
     listRagStores B w =
     (Thrown e,
      emits (page_requests StoresList StoresNextPage (S (length pages))) w))
  /\ (forall pages later ragStoreName,
        no_empty_later_page pages = true ->
        files_list B = (map inr pages ++ inl e :: later)%list ->
        listDocumentsInStore B ragStoreName w =
        (Thrown e,
         emits (page_requests FilesList FilesNextPage (S (length pages))) w)).
Proof.
  intros Hai. split.
  - intros pages later Hitems Hpager. unfold listRagStores.
    rewrite (guarded_ready _ _ _ Hai), Hpager.
    apply (listing_fails well_formed_store); [|exact Hitems].
    intros store stores. f_equal. apply stores_body_pushes.
  - intros pages later ragStoreName Hitems Hpager. unfold listDocumentsInStore.
    rewrite (guarded_ready _ _ _ Hai), Hpager.
    apply (listing_fails
             (fun doc => if in_store_scope ragStoreName doc
                         then Some doc else None)); [|exact Hitems].
    intros doc documents. f_equal. apply documents_body_pushes.
Qed.

Lemma listings_fail_with_the_failed_page_request_witness :
  listRagStores (override_pagers broken_stores [] quiet) ready =
  (Thrown unavailable,
   emits [Call StoresList; Call StoresNextPage; Call StoresNextPage] ready).
Proof.
  destruct (listings_fail_with_the_failed_page_request
              (override_pagers broken_stores [] quiet) ready
              {| apiKey := Some "key" |} unavailable eq_refl) as [stores _].
  apply (stores [[store_a1]; [store_c2]] [inr [store_untitled]]);
    reflexivity.
Defined.

(** ** Ingestion against a failing or a silent backend *)

Section PollingFailures.

Variable B : Backend.

Lemma poll_round_rejects fuel op e w :
  truthy_bool (done op) = false ->
  operations_get B (polls w) op = inl e ->
  poll B (S fuel) op w =
  (Thrown e,
   {| ai := ai w; trace := (trace w ++ poll_rounds [op])%list;
      polls := S (polls w) |}).
Proof.
  intros Hop Hget. simpl. rewrite Hop.
  cbv [bind delay log operations_get_call emit]; simpl.
  rewrite Hget. by rewrite <- app_assoc.
Qed.

Lemma poll_rejects e k : forall fuel op w,
  truthy_bool (done op) = false ->
  (forall i, i < k -> reports_unfinished B (polls w + i)) ->
  (forall op', operations_get B (polls w + k) op' = inl e) ->
  k < fuel ->
  exists ops,
    length ops = S k
    /\ poll B fuel op w =
       (Thrown e,
        {| ai := ai w; trace := (trace w ++ poll_rounds ops)%list;
           polls := polls w + S k |}).
Proof.
  induction k as [|k IH]; intros fuel op w Hop Hbefore Hat Hfuel;
    (destruct fuel as [|fuel]; [lia|]).
  - exists [op]. split; [reflexivity|].
    specialize (Hat op). rewrite Nat.add_0_r in Hat.
    rewrite (poll_round_rejects _ _ _ _ Hop Hat). by rewrite Nat.add_1_r.
  - destruct (Hbefore 0 ltac:(lia) op) as (op' & Hget & Hnot).
    rewrite Nat.add_0_r in Hget.
    rewrite (poll_round B _ _ _ _ Hop Hget).
    destruct (IH fuel op'
                {| ai := ai w; trace := (trace w ++ poll_rounds [op])%list;
                   polls := S (polls w) |}) as (ops & Hlen & Hrun);
      simpl; try done; try lia.
    + intros i Hi. replace (S (polls w + i)) with (polls w + S i) by lia.
      apply Hbefore. lia.
    + intros op''. replace (S (polls w + k)) with (polls w + S k) by lia.
      apply Hat.
    + exists (op :: ops). split; [simpl; by rewrite Hlen|].
      rewrite Hrun. simpl. rewrite <- app_assoc.
      repeat f_equal. lia.
Qed.

Lemma poll_keeps_polling fuel : forall op w,
  truthy_bool (done op) = false ->
  (forall i, reports_unfinished B (polls w + i)) ->
  exists ops,
    length ops = fuel
    /\ poll B fuel op w =
       (Pending,
        {| ai := ai w; trace := (trace w ++ poll_rounds ops)%list;
           polls := polls w + fuel |}).
Proof.
  induction fuel as [|fuel IH]; intros op w Hop Hnever.
  - exists []. split; [reflexivity|]. simpl. rewrite Hop.
    destruct w; simpl. by rewrite app_nil_r, Nat.add_0_r.
  - destruct (Hnever 0 op) as (op' & Hget & Hnot).
    rewrite Nat.add_0_r in Hget.
    rewrite (poll_round B _ _ _ _ Hop Hget).
    destruct (IH op'
                {| ai := ai w; trace := (trace w ++ poll_rounds [op])%list;
                   polls := S (polls w) |} Hnot) as (ops & Hlen & Hrun).
    + intros i. simpl.
      replace (S (polls w + i)) with (polls w + S i) by lia. apply Hnever.
    + exists (op :: ops). split; [simpl; by rewrite Hlen|].
      rewrite Hrun. simpl. rewrite <- app_assoc.
      repeat f_equal. lia.
Qed.

End PollingFailures.

(** X2. A rejection by the backend ends an ingestion call with the same
    error and with nothing done after it.  If the upload request is
    rejected there is no sleep and no status request.  If the status request
    that follows [k] unfinished ones is rejected, exactly [k + 1] status
    requests have been made, and the call is rejected as soon as the loop is
    allowed more than [k] rounds. *)
Theorem ingestion_propagates_backend_rejections
    (B : Backend) (w : World) (client : GoogleGenAI)
    (ragStoreName : string) (file : JsFile) (metadata : list CustomMetadata)
    (e : Exn) :
  ai w = Some client ->
  (uploadToFileSearchStore B (uploadDocument_params ragStoreName file metadata)
   = inl e ->
   forall fuel,
     uploadDocument B fuel ragStoreName file metadata w =
     (Thrown e,
      emit (Call (UploadToFileSearchStore
                    (uploadDocument_params ragStoreName file metadata))) w))
  /\ (uploadToFileSearchStore B (uploadToRagStore_params ragStoreName file)
      = inl e ->
      forall fuel,
        uploadToRagStore B fuel ragStoreName file w =
        (Thrown e,
         emit (Call (UploadToFileSearchStore
                       (uploadToRagStore_params ragStoreName file))) w))
  /\ (forall started k,
        truthy_bool (done started) = false ->
        (forall i, i < k -> reports_unfinished B (polls w + i)) ->
        (forall op, operations_get B (polls w + k) op = inl e) ->
        forall fuel, k < fuel ->
          (uploadToFileSearchStore B
             (uploadDocument_params ragStoreName file metadata) = inr started ->
           exists ops,
             length ops = S k
             /\ uploadDocument B fuel ragStoreName file metadata w =
                (Thrown e,
                 {| ai := ai w;
                    trace := (trace w
                              ++ Call (UploadToFileSearchStore
                                         (uploadDocument_params ragStoreName
                                            file metadata))
                              :: poll_rounds ops)%list;
                    polls := polls w + S k |}))
          /\ (uploadToFileSearchStore B
                (uploadToRagStore_params ragStoreName file) = inr started ->
              exists ops,
                length ops = S k
                /\ uploadToRagStore B fuel ragStoreName file w =
                   (Thrown e,
                    {| ai := ai w;
                       trace := (trace w
                                 ++ Call (UploadToFileSearchStore
                                            (uploadToRagStore_params
                                               ragStoreName file))
                                 :: poll_rounds ops)%list;
                       polls := polls w + S k |}))).
Proof.
  intros Hai. split; [|split].
  - intros Hup fuel. unfold uploadDocument.
    rewrite (guarded_ready _ _ _ Hai). unfold bind. by rewrite Hup.
  - intros Hup fuel. unfold uploadToRagStore.
    rewrite (guarded_ready _ _ _ Hai). unfold bind. by rewrite Hup.
  - intros started k Hstarted Hbefore Hat fuel Hfuel. split; intros Hup.
    + rewrite (uploadDocument_run B _ _ _ _ _ _ _ Hai Hup).
      destruct (poll_rejects B e k fuel started
                  (emit (Call (UploadToFileSearchStore
                                 (uploadDocument_params ragStoreName file
                                    metadata))) w)
                  Hstarted Hbefore Hat Hfuel) as (ops & Hlen & Hrun).
      exists ops. split; [exact Hlen|].
      rewrite Hrun. simpl. by rewrite <- app_assoc.
    + rewrite (uploadToRagStore_run B _ _ _ _ _ _ Hai Hup).
      destruct (poll_rejects B e k fuel started
                  (emit (Call (UploadToFileSearchStore
                                 (uploadToRagStore_params ragStoreName file))) w)
                  Hstarted Hbefore Hat Hfuel) as (ops & Hlen & Hrun).
      exists ops. split; [exact Hlen|].
      rewrite Hrun. simpl. by rewrite <- app_assoc.
Qed.

Lemma ingestion_propagates_backend_rejections_witness :
  (forall fuel,
     uploadDocument (override_upload (inl unavailable) quiet) fuel
       "fileSearchStores/a" sop_pdf [] ready =
     (Thrown unavailable,
      emit (Call (UploadToFileSearchStore
                    (uploadDocument_params "fileSearchStores/a" sop_pdf [])))
        ready))
  /\ (forall fuel, 1 < fuel ->
        exists ops,
          length ops = 2
          /\ uploadDocument
               (override_status flaky_status
                  (override_upload (inr just_started) quiet))
               fuel "fileSearchStores/a" sop_pdf [] ready =
             (Thrown unavailable,
              {| ai := ai ready;
                 trace := (trace ready
                           ++ Call (UploadToFileSearchStore
                                      (uploadDocument_params
                                         "fileSearchStores/a" sop_pdf []))
                           :: poll_rounds ops)%list;
                 polls := polls ready + 2 |})).
Proof.
  split.
  - destruct (ingestion_propagates_backend_rejections
                (override_upload (inl unavailable) quiet) ready
                {| apiKey := Some "key" |} "fileSearchStores/a" sop_pdf []
                unavailable eq_refl) as [at_upload _].
    exact (at_upload eq_refl).
  - intros fuel Hfuel.
    destruct (ingestion_propagates_backend_rejections
                (override_status flaky_status
                   (override_upload (inr just_started) quiet)) ready
                {| apiKey := Some "key" |} "fileSearchStores/a" sop_pdf []
                unavailable eq_refl) as (_ & _ & at_status).
    refine (proj1 (at_status just_started 1 eq_refl _ _ fuel Hfuel) eq_refl).
    + intros i Hi op. destruct i as [|i]; [|lia].
      eexists; split; reflexivity.
    + intros op. reflexivity.
Defined.

(** X3. The polling loop has no bound on its rounds and no timeout: against
    a backend that never reports the operation done, an ingestion call has
    not settled after any number [n] of rounds, and has then slept [n] times
    and made [n] status requests. *)
Theorem ingestion_polls_without_bound
    (B : Backend) (w : World) (client : GoogleGenAI)
    (ragStoreName : string) (file : JsFile) (metadata : list CustomMetadata)
    (started : Operation) :
  ai w = Some client ->
  truthy_bool (done started) = false ->
  (forall i, reports_unfinished B (polls w + i)) ->
  (uploadToFileSearchStore B (uploadDocument_params ragStoreName file metadata)
   = inr started ->
   forall n, exists ops,
     length ops = n
     /\ uploadDocument B n ragStoreName file metadata w =
        (Pending,
         {| ai := ai w;
            trace := (trace w
                      ++ Call (UploadToFileSearchStore
                                 (uploadDocument_params ragStoreName file
                                    metadata))
                      :: poll_rounds ops)%list;
            polls := polls w + n |}))
  /\ (uploadToFileSearchStore B (uploadToRagStore_params ragStoreName file)
      = inr started ->
      forall n, exists ops,
        length ops = n
        /\ uploadToRagStore B n ragStoreName file w =
           (Pending,
            {| ai := ai w;
               trace := (trace w
                         ++ Call (UploadToFileSearchStore
                                    (uploadToRagStore_params ragStoreName file))
                         :: poll_rounds ops)%list;
               polls := polls w + n |})).
Proof.
  intros Hai Hstarted Hnever. split; intros Hup n.
  - rewrite (uploadDocument_run B _ _ _ _ _ _ _ Hai Hup).
    destruct (poll_keeps_polling B n started
                (emit (Call (UploadToFileSearchStore
                               (uploadDocument_params ragStoreName file
                                  metadata))) w)
                Hstarted Hnever) as (ops & Hlen & Hrun).
    exists ops. split; [exact Hlen|].
    rewrite Hrun. simpl. by rewrite <- app_assoc.
  - rewrite (uploadToRagStore_run B _ _ _ _ _ _ Hai Hup).
    destruct (poll_keeps_polling B n started
                (emit (Call (UploadToFileSearchStore
                               (uploadToRagStore_params ragStoreName file))) w)
                Hstarted Hnever) as (ops & Hlen & Hrun).
    exists ops. split; [exact Hlen|].
    rewrite Hrun. simpl. by rewrite <- app_assoc.
Qed.

Lemma ingestion_polls_without_bound_witness :
  exists ops,
    length ops = 4
    /\ uploadDocument
         (override_status stuck_status (override_upload (inr just_started) quiet))
         4 "fileSearchStores/a" sop_pdf [] ready =
       (Pending,
        {| ai := ai ready;
           trace := (trace ready
                     ++ Call (UploadToFileSearchStore
                                (uploadDocument_params "fileSearchStores/a"
                                   sop_pdf []))
                     :: poll_rounds ops)%list;
           polls := polls ready + 4 |}).
Proof.
  refine (proj1 (ingestion_polls_without_bound
                   (override_status stuck_status
                      (override_upload (inr just_started) quiet)) ready
                   {| apiKey := Some "key" |} "fileSearchStores/a" sop_pdf []
                   just_started eq_refl eq_refl _) eq_refl 4).
  intros i op. eexists; split; reflexivity.
Defined.

(** ** What no operation does to the world *)

Lemma extends_refl w : extends w w.
Proof.
  split; [reflexivity|]. split; [|lia]. exists []. by rewrite app_nil_r.
Qed.

Lemma extends_trans w1 w2 w3 : extends w1 w2 -> extends w2 w3 -> extends w1 w3.
Proof.
  intros (Hai1 & (evs1 & Htr1) & Hp1) (Hai2 & (evs2 & Htr2) & Hp2).
  split; [congruence|]. split; [|lia].
  exists (evs1 ++ evs2)%list. by rewrite Htr2, Htr1, <- app_assoc.
Qed.

Lemma extends_emit ev w : extends w (emit ev w).
Proof. split; [reflexivity|]. split; [by exists [ev] | simpl; lia]. Qed.

Lemma bind_extends {A C} (m : M A) (k : A -> M C) :
  (forall w, extends w (m w).2) ->
  (forall a w, extends w (k a w).2) ->
  forall w, extends w (bind m k w).2.
Proof.
  intros Hm Hk w. unfold bind. specialize (Hm w).
  destruct (m w) as [[a|e|] w']; simpl in *; try exact Hm.
  apply extends_trans with w'; [exact Hm | apply Hk].
Qed.

Lemma bind_settles {A C} (m : M A) (k : A -> M C) :
  (forall w, (m w).1 <> Pending) ->
  (forall a w, (k a w).1 <> Pending) ->
  forall w, (bind m k w).1 <> Pending.
Proof.
  intros Hm Hk w. unfold bind. specialize (Hm w).
  destruct (m w) as [[a|e|] w']; simpl in *; [apply Hk | done | done].
Qed.

Lemma try_catch_extends {A} (body : M A) (handler : Exn -> M A) :
  (forall w, extends w (body w).2) ->
  (forall e w, extends w (handler e w).2) ->
  forall w, extends w (try_catch body handler w).2.
Proof.
  intros Hb Hh w. unfold try_catch. specialize (Hb w).
  destruct (body w) as [[a|e|] w']; simpl in *; try exact Hb.
  apply extends_trans with w'; [exact Hb | apply Hh].
Qed.

Lemma require_ai_extends w : extends w (require_ai w).2.
Proof. unfold require_ai. destruct (ai w); apply extends_refl. Qed.

Lemma require_ai_settles w : (require_ai w).1 <> Pending.
Proof. unfold require_ai. by destruct (ai w). Qed.

Lemma await_extends {A} c (reply : Exn + A) w : extends w (await c reply w).2.
Proof. destruct reply; apply extends_emit. Qed.

Lemma await_settles {A} c (reply : Exn + A) w : (await c reply w).1 <> Pending.
Proof. by destruct reply. Qed.

Lemma ret_extends {A} (a : A) w : extends w (ret a w).2.
Proof. apply extends_refl. Qed.

Lemma throw_extends {A} e w : extends w (throw (A := A) e w).2.
Proof. apply extends_refl. Qed.

Lemma log_extends ev w : extends w (log ev w).2.
Proof. apply extends_emit. Qed.

Lemma for_await_extends {A R} next (body : option A -> R -> Exn + R) later :
  forall page acc w, extends w (for_await next body page later acc w).2.
Proof.
  induction later as [|reply later IH]; intros page acc w; simpl;
    destruct (iterate body page acc) as [e|acc']; try apply extends_refl.
  apply bind_extends; [intros; apply await_extends | intros page' w'].
  destruct page' as [|item page']; [|apply IH].
  destruct (body None acc') as [e|acc'']; [apply extends_refl | apply IH].
Qed.

Lemma for_await_settles {A R} next (body : option A -> R -> Exn + R) later :
  forall page acc w, (for_await next body page later acc w).1 <> Pending.
Proof.
  induction later as [|reply later IH]; intros page acc w; simpl;
    destruct (iterate body page acc) as [e|acc']; try done.
  apply bind_settles; [intros; apply await_settles | intros page' w'].
  destruct page' as [|item page']; [|apply IH].
  destruct (body None acc') as [e|acc'']; [done | apply IH].
Qed.

Lemma list_call_extends {A} c (pager : Pager A) w :
  extends w (list_call c pager w).2.
Proof.
  destruct pager as [|reply later]; unfold list_call.
  - apply bind_extends; intros; [apply log_extends | apply ret_extends].
  - apply bind_extends; intros; [apply await_extends | apply ret_extends].
Qed.

Lemma list_call_settles {A} c (pager : Pager A) w :
  (list_call c pager w).1 <> Pending.
Proof.
  destruct pager as [|reply later]; unfold list_call.
  - done.
  - apply bind_settles; intros; [apply await_settles | done].
Qed.

Lemma listRagStores_settles B w : (listRagStores B w).1 <> Pending.
Proof.
  apply bind_settles; [apply require_ai_settles | intros _ ?].
  apply bind_settles; [apply list_call_settles | intros; apply for_await_settles].
Qed.

Lemma listDocumentsInStore_settles B ragStoreName w :
  (listDocumentsInStore B ragStoreName w).1 <> Pending.
Proof.
  apply bind_settles; [apply require_ai_settles | intros _ ?].
  apply bind_settles; [apply list_call_settles | intros; apply for_await_settles].
Qed.

Lemma poll_extends B fuel : forall op w, extends w (poll B fuel op w).2.
Proof.
  induction fuel as [|fuel IH]; intros op w; simpl;
    destruct (truthy_bool (done op)); try apply extends_refl.
  apply bind_extends; [intros; apply log_extends | intros _ ?].
  apply bind_extends; [|intros; apply IH].
  intros w1. unfold operations_get_call.
  destruct (operations_get B (polls w1) op); simpl;
    (split; [reflexivity|]; split; [by eexists | simpl; lia]).
Qed.

Lemma coerce_questions_extends {number} (number_truthy : number -> bool)
    (parsedData : json number) w :
  extends w (coerce_questions number_truthy parsedData w).2.
Proof.
  destruct parsedData as [|b|n|s|items|fields]; try apply extends_emit.
  destruct items as [|firstItem rest]; [apply extends_refl|].
  unfold coerce_questions.
  destruct (String.eqb (typeof firstItem) "object" && negb (is_null firstItem)
            && questions_in firstItem && questions_isArray firstItem).
  - destruct (flatMap_questions number_truthy (firstItem :: rest));
      apply extends_refl.
  - destruct (String.eqb (typeof firstItem) "string");
      [apply extends_refl | apply extends_emit].
Qed.

Lemma listRagStores_extends B w : extends w (listRagStores B w).2.
Proof.
  apply bind_extends; [apply require_ai_extends | intros _ ?].
  apply bind_extends; [apply list_call_extends | intros; apply for_await_extends].
Qed.

Lemma listDocumentsInStore_extends B ragStoreName w :
  extends w (listDocumentsInStore B ragStoreName w).2.
Proof.
  apply bind_extends; [apply require_ai_extends | intros _ ?].
  apply bind_extends; [apply list_call_extends | intros; apply for_await_extends].
Qed.

Lemma createRagStore_extends B displayName w :
  extends w (createRagStore B displayName w).2.
Proof.
  apply bind_extends; [apply require_ai_extends | intros _ ?].
  apply bind_extends; [intros; apply await_extends | intros ragStore ?].
  destruct (truthy (fss_name ragStore)); apply extends_refl.
Qed.

Lemma deleteRagStore_extends B ragStoreName w :
  extends w (deleteRagStore B ragStoreName w).2.
Proof.
  apply bind_extends; [apply require_ai_extends | intros; apply await_extends].
Qed.

Lemma deleteDocument_extends B documentName w :
  extends w (deleteDocument B documentName w).2.
Proof.
  apply bind_extends; [apply require_ai_extends | intros; apply await_extends].
Qed.

Lemma uploadToRagStore_extends B fuel ragStoreName file w :
  extends w (uploadToRagStore B fuel ragStoreName file w).2.
Proof.
  apply bind_extends; [apply require_ai_extends | intros _ ?].
  apply bind_extends; [intros; apply await_extends | intros; apply poll_extends].
Qed.

Lemma uploadDocument_extends B fuel ragStoreName file metadata w :
  extends w (uploadDocument B fuel ragStoreName file metadata w).2.
Proof.
  apply bind_extends; [apply require_ai_extends | intros _ ?].
  apply bind_extends; [intros; apply await_extends | intros; apply poll_extends].
Qed.

Lemma fileSearch_extends B supportedLanguages Object_prototype ragStoreName
  query language w :
  extends w (fileSearch B supportedLanguages Object_prototype ragStoreName
    query language w).2.
Proof.
  apply bind_extends; [apply require_ai_extends | intros _ ?].
  apply bind_extends; [intros; apply await_extends | intros; apply ret_extends].
Qed.

Lemma fileSearch_settles B supportedLanguages Object_prototype ragStoreName
  query language w :
  (fileSearch B supportedLanguages Object_prototype ragStoreName query
    language w).1 <> Pending.
Proof.
  apply bind_settles; [apply require_ai_settles | intros _ ?].
  apply bind_settles; [intros; apply await_settles | done].
Qed.

Lemma createRagStore_settles B displayName w :
  (createRagStore B displayName w).1 <> Pending.
Proof.
  apply bind_settles; [apply require_ai_settles | intros _ ?].
  apply bind_settles; [intros; apply await_settles | intros ragStore ?].
  by destruct (truthy (fss_name ragStore)).
Qed.

Lemma deleteRagStore_settles B ragStoreName w :
  (deleteRagStore B ragStoreName w).1 <> Pending.
Proof.
  apply bind_settles; [apply require_ai_settles | intros; apply await_settles].
Qed.

Lemma deleteDocument_settles B documentName w :
  (deleteDocument B documentName w).1 <> Pending.
Proof.
  apply bind_settles; [apply require_ai_settles | intros; apply await_settles].
Qed.

(** X4. No operation of the service touches the client: whatever the
    backend replies and however the call ends, the world after a call has
    the [ai] it had before, the trace it had before with events added at the
    end, and at least as many status requests served.  A client that has
    been initialized therefore stays initialized. *)
Theorem operations_leave_the_client_alone
    (B : Backend) (supportedLanguages : gmap string string)
    (Object_prototype : string -> option string)
    {number : Type} (number_truthy : number -> bool)
    (trim : string -> string) (JSON_parse : string -> option (json number))
    (w : World) :
  extends w (listRagStores B w).2
  /\ (forall ragStoreName, extends w (listDocumentsInStore B ragStoreName w).2)
  /\ (forall displayName, extends w (createRagStore B displayName w).2)
  /\ (forall ragStoreName, extends w (deleteRagStore B ragStoreName w).2)
  /\ (forall documentName, extends w (deleteDocument B documentName w).2)
  /\ (forall fuel ragStoreName file,
        extends w (uploadToRagStore B fuel ragStoreName file w).2)
  /\ (forall fuel ragStoreName file metadata,
        extends w (uploadDocument B fuel ragStoreName file metadata w).2)
  /\ (forall ragStoreName query language,
        extends w
          (fileSearch B supportedLanguages Object_prototype ragStoreName query
            language w).2)
  /\ (forall ragStoreName language,
        extends w
          (generateExampleQuestions B supportedLanguages Object_prototype
            number_truthy trim
             JSON_parse ragStoreName language w).2).
Proof.
  split; [apply listRagStores_extends|].
  split; [intros; apply listDocumentsInStore_extends|].
  split; [intros; apply createRagStore_extends|].
  split; [intros; apply deleteRagStore_extends|].
  split; [intros; apply deleteDocument_extends|].
  split; [intros; apply uploadToRagStore_extends|].
  split; [intros; apply uploadDocument_extends|].
  split; [intros; apply fileSearch_extends|].
  intros. apply bind_extends; [apply require_ai_extends | intros _ ?].
  apply try_catch_extends.
  - apply bind_extends; [intros; apply await_extends | intros response ?].
    apply bind_extends.
    + intros ?. destruct (text response); apply extends_refl.
    + intros jsonText ?. apply bind_extends.
      * intros ?. destruct (JSON_parse _); apply extends_refl.
      * intros; apply coerce_questions_extends.
  - intros e ?. apply bind_extends; [intros; apply log_extends|].
    intros; apply ret_extends.
Qed.

(** ** The one request of the suggestion extractor *)

Lemma emit_emit ev1 ev2 w : emit ev2 (emit ev1 w) = emits [ev1; ev2] w.
Proof. unfold emit, emits; simpl. by rewrite <- app_assoc. Qed.

Lemma coerce_questions_logs {number} (number_truthy : number -> bool)
    (parsedData : json number) (w : World) :
  (exists e, coerce_questions number_truthy parsedData w = (Thrown e, w))
  \/ (exists questions,
        coerce_questions number_truthy parsedData w = (Returned questions, w))
  \/ coerce_questions number_truthy parsedData w
     = (Returned [], emit ConsoleWarn w).
Proof.
  destruct parsedData as [|b|n|s|items|fields];
    try (right; right; reflexivity).
  destruct items as [|firstItem rest]; [right; left; by exists []|].
  unfold coerce_questions.
  destruct (String.eqb (typeof firstItem) "object" && negb (is_null firstItem)
            && questions_in firstItem && questions_isArray firstItem).
  - destruct (flatMap_questions number_truthy (firstItem :: rest)) as [e|qs].
    + left. by exists e.
    + right; left. by eexists.
  - destruct (String.eqb (typeof firstItem) "string").
    + right; left. by eexists.
    + right; right. reflexivity.
Qed.

(** X5. Once the client is initialized, a call of
    [generateExampleQuestions] makes exactly one request to the backend,
    whatever comes back: nothing is retried and no status is polled.  It
    writes at most one message to the console, and none when it returns
    questions. *)
Theorem generateExampleQuestions_makes_one_request
    (B : Backend) (supportedLanguages : gmap string string)
    (Object_prototype : string -> option string)
    {number : Type} (number_truthy : number -> bool)
    (trim : string -> string) (JSON_parse : string -> option (json number))
    (ragStoreName language : string) (w : World) (client : GoogleGenAI) :
  ai w = Some client ->
  exists questions logs,
    generateExampleQuestions B supportedLanguages Object_prototype
      number_truthy trim
      JSON_parse ragStoreName language w
    = (Returned questions,
       emits (Call (GenerateContent
                      (exampleQuestions_params supportedLanguages
                        Object_prototype ragStoreName
                         language))
              :: logs) w)
    /\ (logs = [] \/ logs = [ConsoleWarn] \/ exists e, logs = [ConsoleError e])
    /\ (questions <> [] -> logs = []).
Proof.
  intros Hai. unfold generateExampleQuestions.
  rewrite (guarded_ready _ _ _ Hai).
  cbv [try_catch bind await log ret throw].
  destruct (models_generateContent B _) as [e|response].
  { exists [], [ConsoleError e]. rewrite emit_emit.
    split; [reflexivity | split; [eauto | intros H; by destruct H]]. }
  destruct (text response) as [t|].
  2: { exists [], [ConsoleError TypeError]. rewrite emit_emit.
    split; [reflexivity | split; [eauto | intros H; by destruct H]]. }
  destruct (JSON_parse (extract_json (trim t))) as [parsedData|].
  2: { exists [], [ConsoleError SyntaxError]. rewrite emit_emit.
    split; [reflexivity | split; [eauto | intros H; by destruct H]]. }
  destruct (coerce_questions_logs number_truthy parsedData
              (emit (Call (GenerateContent
                             (exampleQuestions_params supportedLanguages
                               Object_prototype
                                ragStoreName language))) w))
    as [[e ->]|[[questions ->]| ->]].
  - exists [], [ConsoleError e]. rewrite emit_emit.
    split; [reflexivity | split; [eauto | intros H; by destruct H]].
  - exists questions, []. split; [reflexivity | split; [eauto | done]].
  - exists [], [ConsoleWarn]. rewrite emit_emit.
    split; [reflexivity | split; [eauto | intros H; by destruct H]].
Qed.

Lemma generateExampleQuestions_makes_one_request_witness :
  exists questions logs,
    generateExampleQuestions (with_generate (reply_with "not json at all"))
      languages browser_prototype int_truthy (fun s => s) (parse_table [])
      "fileSearchStores/a" "en" ready
    = (Returned questions,
       emits (Call (GenerateContent
                      (exampleQuestions_params languages browser_prototype
                        "fileSearchStores/a"
                         "en"))
              :: logs) ready)
    /\ (logs = [] \/ logs = [ConsoleWarn] \/ exists e, logs = [ConsoleError e])
    /\ (questions <> [] -> logs = []).
Proof.
  apply (generateExampleQuestions_makes_one_request
           (with_generate (reply_with "not json at all")) languages
             browser_prototype int_truthy
           (fun s => s) (parse_table []) "fileSearchStores/a" "en" ready
           {| apiKey := Some "key" |}).
  reflexivity.
Defined.

(** ** The text handed to the parser *)

Lemma length_append (a b : string) :
  String.length (a ++ b) = String.length a + String.length b.
Proof.
  induction a as [|x a IH]; [reflexivity|].
  change (S (String.length (a ++ b)) = S (String.length a + String.length b)).
  by rewrite IH.
Qed.

Lemma occurs_append c (a b : string) :
  occurs c (a ++ b) = occurs c a || occurs c b.
Proof.
  induction a as [|x a IH]; [reflexivity|].
  change (Ascii.eqb x c || occurs c (a ++ b)
          = Ascii.eqb x c || occurs c a || occurs c b).
  by rewrite IH, orb_assoc.
Qed.

Lemma prefix_append (p s : string) : String.prefix p (p ++ s) = true.
Proof. apply prefix_app. by exists s. Qed.

Lemma substring_skip (a s : string) n :
  String.substring (String.length a) n (a ++ s) = String.substring 0 n s.
Proof. induction a as [|x a IH]; [reflexivity | exact IH]. Qed.

Lemma substring_take (s t : string) :
  String.substring 0 (String.length s) (s ++ t) = s.
Proof.
  induction s as [|x s IH].
  - by destruct t.
  - change (String x (String.substring 0 (String.length s) (s ++ t)) = String x s).
    by rewrite IH.
Qed.

Lemma substring_whole (s : string) :
  String.substring 0 (String.length s) s = s.
Proof.
  induction s as [|x s IH]; [reflexivity|].
  change (String x (String.substring 0 (String.length s) s) = String x s).
  by rewrite IH.
Qed.

(** A pattern is not found before its first character occurs. *)
Lemma index_fresh c pat (a b : string) :
  occurs c a = false ->
  String.index 0 (String c pat) (a ++ String c pat ++ b)
  = Some (String.length a).
Proof.
  intros Ha. induction a as [|x a IH].
  - change (String.index 0 (String c pat) (String c (pat ++ b)) = Some 0).
    change ((if String.prefix (String c pat) (String c pat ++ b) then Some 0
             else match String.index 0 (String c pat) (pat ++ b) with
                  | Some n => Some (S n) | None => None end) = Some 0).
    by rewrite prefix_append.
  - simpl in Ha. apply orb_false_elim in Ha as [Hx Ha].
    change ((if String.prefix (String c pat) (String x (a ++ String c pat ++ b))
             then Some 0
             else match String.index 0 (String c pat) (a ++ String c pat ++ b) with
                  | Some n => Some (S n) | None => None end)
            = Some (S (String.length a))).
    rewrite (IH Ha). simpl.
    destruct (ascii_dec c x) as [->|_]; [|reflexivity].
    by rewrite Ascii.eqb_refl in Hx.
Qed.

Lemma index_fresh2 c1 c2 pat (a b : string) :
  c1 <> c2 ->
  occurs c2 a = false ->
  String.index 0 (String c1 (String c2 pat)) (a ++ String c1 (String c2 pat) ++ b)
  = Some (String.length a).
Proof.
  intros Hne Ha. induction a as [|x a IH].
  - change ((if String.prefix (String c1 (String c2 pat))
                  (String c1 (String c2 pat) ++ b) then Some 0
             else match String.index 0 (String c1 (String c2 pat))
                          (String c2 pat ++ b) with
                  | Some n => Some (S n) | None => None end) = Some 0).
    by rewrite prefix_append.
  - simpl in Ha. apply orb_false_elim in Ha as [Hx Ha].
    change ((if String.prefix (String c1 (String c2 pat))
                  (String x (a ++ String c1 (String c2 pat) ++ b))
             then Some 0
             else match String.index 0 (String c1 (String c2 pat))
                          (a ++ String c1 (String c2 pat) ++ b) with
                  | Some n => Some (S n) | None => None end)
            = Some (S (String.length a))).
    rewrite (IH Ha). simpl.
    destruct (ascii_dec c1 x) as [_|_]; [|reflexivity].
    destruct a as [|y a]; simpl.
    + destruct (ascii_dec c2 c1) as [->|_]; [done | reflexivity].
    + simpl in Ha. apply orb_false_elim in Ha as [Hy _].
      destruct (ascii_dec c2 y) as [->|_]; [|reflexivity].
      by rewrite Ascii.eqb_refl in Hy.
Qed.

Lemma index_absent c pat (s : string) :
  occurs c s = false -> String.index 0 (String c pat) s = None.
Proof.
  induction s as [|x s IH]; intros Hs; [reflexivity|].
  simpl in Hs. apply orb_false_elim in Hs as [Hx Hs].
  simpl. rewrite (IH Hs).
  destruct (ascii_dec c x) as [->|_]; [|reflexivity].
  by rewrite Ascii.eqb_refl in Hx.
Qed.

Lemma lastIndexOf_from_absent c (s : string) : forall i found,
  occurs c s = false -> lastIndexOf_from i c s found = found.
Proof.
  induction s as [|x s IH]; intros i found Hs; [reflexivity|].
  simpl in Hs. apply orb_false_elim in Hs as [Hx Hs].
  simpl. rewrite Hx. by apply IH.
Qed.

Lemma lastIndexOf_from_last c (a b : string) : forall i found,
  occurs c b = false ->
  lastIndexOf_from i c (a ++ String c b) found = Some (i + String.length a).
Proof.
  induction a as [|x a IH]; intros i found Hb.
  - change (lastIndexOf_from (S i) c b (if Ascii.eqb c c then Some i else found)
            = Some (i + 0)).
    rewrite Ascii.eqb_refl, (lastIndexOf_from_absent _ _ _ _ Hb). f_equal. lia.
  - change (lastIndexOf_from (S i) c (a ++ String c b)
              (if Ascii.eqb x c then Some i else found)
            = Some (i + S (String.length a))).
    rewrite (IH _ _ Hb). f_equal. lia.
Qed.

Lemma substring_rest (a r : string) :
  String.substring (String.length a)
    (String.length (a ++ r) - String.length a) (a ++ r) = r.
Proof.
  rewrite substring_skip, length_append.
  replace (String.length a + String.length r - String.length a)
    with (String.length r) by lia.
  apply substring_whole.
Qed.

Lemma match_json_fence_fenced before payload after :
  occurs backtick before = false ->
  occurs backtick payload = false ->
  match_json_fence (fenced before payload after) = Some payload.
Proof.
  intros Hbefore Hpayload. unfold match_json_fence, indexOf. cbv zeta.
  assert (Hopen : String.index 0 ("```json" ++ LF) (fenced before payload after)
                  = Some (String.length before))
    by exact (index_fresh backtick ("``json" ++ LF) before
                (payload ++ (LF ++ "```") ++ after) Hbefore).
  rewrite Hopen.
  assert (Hrest : String.substring
                    (String.length before + String.length ("```json" ++ LF))
                    (String.length (fenced before payload after)
                     - (String.length before + String.length ("```json" ++ LF)))
                    (fenced before payload after)
                  = payload ++ (LF ++ "```") ++ after).
  { unfold fenced.
    replace (String.length before + String.length ("```json" ++ LF))
      with (String.length (before ++ "```json" ++ LF))
      by apply length_append.
    replace (before ++ ("```json" ++ LF) ++ payload ++ (LF ++ "```") ++ after)
      with ((before ++ "```json" ++ LF) ++ payload ++ (LF ++ "```") ++ after)
      by apply append_assoc.
    apply substring_rest. }
  rewrite Hrest.
  assert (Hclose : String.index 0 (LF ++ "```")
                     (payload ++ (LF ++ "```") ++ after)
                   = Some (String.length payload)).
  { apply (index_fresh2 (ascii_of_nat 10) backtick "``" payload after);
      [discriminate | exact Hpayload]. }
  rewrite Hclose. f_equal. apply substring_take.
Qed.

(** X6. A payload wrapped in a fence comes out as it went in: when the
    text before the opening fence and the payload hold no backtick and the
    payload is not empty, the text handed to the parser is the payload,
    whatever follows the closing fence. *)
Theorem extract_json_takes_the_fenced_payload (before payload after : string) :
  occurs backtick before = false ->
  occurs backtick payload = false ->
  payload <> "" ->
  extract_json (fenced before payload after) = payload.
Proof.
  intros Hbefore Hpayload Hne. unfold extract_json.
  rewrite (match_json_fence_fenced _ _ _ Hbefore Hpayload). simpl.
  destruct (String.eqb_spec payload "") as [->|_]; [done | reflexivity].
Qed.

Lemma extract_json_takes_the_fenced_payload_witness :
  extract_json (fenced "Here you are: " q1_q2_slice " Anything else?")
  = q1_q2_slice.
Proof.
  apply (extract_json_takes_the_fenced_payload "Here you are: " q1_q2_slice
           " Anything else?"); [reflexivity | reflexivity | discriminate].
Defined.

Lemma match_json_fence_no_backtick (s : string) :
  occurs backtick s = false -> match_json_fence s = None.
Proof.
  intros Hs. unfold match_json_fence, indexOf. cbv zeta.
  assert (H : String.index 0 ("```json" ++ LF) s = None)
    by exact (index_absent backtick ("``json" ++ LF) s Hs).
  by rewrite H.
Qed.

(** X7. In a text without a backtick, hence without a fence, the text
    handed to the parser runs from the first opening bracket to the last
    closing one, both included: what stands before the first [[] and after
    the last []] is cut off. *)
Theorem extract_json_slices_between_brackets (before middle after : string) :
  occurs backtick (before ++ middle ++ after) = false ->
  occurs "["%char before = false ->
  occurs "]"%char after = false ->
  extract_json (before ++ "[" ++ middle ++ "]" ++ after)
  = "[" ++ middle ++ "]".
Proof.
  intros Htick Hopen Hclose. unfold extract_json.
  rewrite match_json_fence_no_backtick.
  2: { rewrite !occurs_append in *. 
       apply orb_false_elim in Htick as [Hb Htick].
       apply orb_false_elim in Htick as [Hm Ha].
       by rewrite Hb, Hm, Ha. }
  simpl mbind. cbv iota beta.
  assert (Hfirst : indexOf (before ++ "[" ++ middle ++ "]" ++ after) "["
                   = Some (String.length before))
    by exact (index_fresh "["%char "" before (middle ++ "]" ++ after) Hopen).
  assert (Hlast : lastIndexOf (before ++ "[" ++ middle ++ "]" ++ after) "]"%char
                  = Some (String.length (before ++ "[" ++ middle))).
  { unfold lastIndexOf.
    replace (before ++ "[" ++ middle ++ "]" ++ after)
      with ((before ++ "[" ++ middle) ++ String "]"%char after)
      by (by rewrite !append_assoc).
    by rewrite (lastIndexOf_from_last _ _ _ _ _ Hclose). }
  rewrite Hfirst, Hlast.
  assert (Hlt : Nat.ltb (String.length before)
                  (String.length (before ++ "[" ++ middle)) = true).
  { apply Nat.ltb_lt. rewrite !length_append. simpl. lia. }
  rewrite Hlt. unfold substring.
  rewrite substring_skip.
  replace (String.length (before ++ "[" ++ middle) + 1 - String.length before)
    with (String.length ("[" ++ middle ++ "]")).
  2: { rewrite !length_append. simpl. lia. }
  replace ("[" ++ middle ++ "]" ++ after) with (("[" ++ middle ++ "]") ++ after)
    by (by rewrite !append_assoc).
  apply substring_take.
Qed.

Lemma extract_json_slices_between_brackets_witness :
  extract_json ("Sure: " ++ "[" ++ "1, [2]" ++ "]" ++ " Done.") = "[1, [2]]".
Proof.
  apply (extract_json_slices_between_brackets "Sure: " "1, [2]" " Done.");
    reflexivity.
Defined.

(** X8. A text without a backtick that lacks an opening bracket, or a
    closing one, is handed to the parser unchanged. *)
Theorem extract_json_keeps_text_without_brackets (jsonText : string) :
  occurs backtick jsonText = false ->
  occurs "["%char jsonText = false \/ occurs "]"%char jsonText = false ->
  extract_json jsonText = jsonText.
Proof.
  intros Htick Hbr. unfold extract_json.
  rewrite (match_json_fence_no_backtick _ Htick). simpl mbind. cbv iota beta.
  destruct Hbr as [Hopen|Hclose].
  - unfold indexOf. by rewrite (index_absent _ "" _ Hopen).
  - unfold lastIndexOf. rewrite (lastIndexOf_from_absent _ _ _ _ Hclose).
    by destruct (indexOf jsonText "[").
Qed.

Lemma extract_json_keeps_text_without_brackets_witness :
  extract_json "not json at all" = "not json at all".
Proof.
  apply (extract_json_keeps_text_without_brackets "not json at all");
    [reflexivity | left; reflexivity].
Defined.

(** * Properties of the components *)

(** ** The upload dialog *)

(** X9. Editing a cell of the metadata editor changes that cell and
    nothing else: the number of rows, the other rows and the other cell of
    the row stay as they were.  An index past the last row raises a
    [TypeError] and yields no new state. *)
Theorem handleMetadataChange_edits_one_cell
    (index : nat) (field : DocumentList.RowField) (text : string)
    (rows : list DocumentList.MetadataRow) :
  (index < length rows ->
   exists row rows',
     rows !! index = Some row
     /\ DocumentList.handleMetadataChange index field text rows = inr rows'
     /\ length rows' = length rows
     /\ (forall j, j <> index -> rows' !! j = rows !! j)
     /\ rows' !! index =
        Some match field with
             | DocumentList.KeyField =>
                 {| DocumentList.row_key := text;
                    DocumentList.row_value := DocumentList.row_value row |}
             | DocumentList.ValueField =>
                 {| DocumentList.row_key := DocumentList.row_key row;
                    DocumentList.row_value := text |}
             end)
  /\ (length rows <= index ->
      DocumentList.handleMetadataChange index field text rows = inl TypeError).
Proof.
  unfold DocumentList.handleMetadataChange. split.
  - intros Hlt. destruct (lookup_lt_is_Some_2 rows index Hlt) as [row Hrow].
    exists row, (<[index := DocumentList.assign field text row]> rows).
    rewrite Hrow. split; [reflexivity|]. split; [reflexivity|].
    split; [apply length_insert|]. split.
    + intros j Hj. by apply list_lookup_insert_ne.
    + rewrite list_lookup_insert_eq by exact Hlt. by destruct field.
  - intros Hge. by rewrite (lookup_ge_None_2 rows index Hge).
Qed.

Lemma handleMetadataChange_edits_one_cell_witness :
  DocumentList.handleMetadataChange 1 DocumentList.KeyField "shift"
    (DocumentList.metadata filled_dialog)
  = inr [ {| DocumentList.row_key := "version"; DocumentList.row_value := "2.1" |};
          {| DocumentList.row_key := "shift"; DocumentList.row_value := "orphan" |};
          {| DocumentList.row_key := "line"; DocumentList.row_value := "B" |} ]
  /\ DocumentList.handleMetadataChange 3 DocumentList.KeyField "shift"
       (DocumentList.metadata filled_dialog)
     = inl TypeError.
Proof.
  destruct (handleMetadataChange_edits_one_cell 1 DocumentList.KeyField "shift"
              (DocumentList.metadata filled_dialog)) as [inside _].
  destruct (handleMetadataChange_edits_one_cell 3 DocumentList.KeyField "shift"
              (DocumentList.metadata filled_dialog)) as [_ outside].
  split.
  - destruct (inside ltac:(simpl; lia)) as (row & rows' & _ & Hrun & _).
    reflexivity.
  - apply outside. simpl. lia.
Defined.

Lemma filter_indexed_above {A} (index : nat) (l : list A) : forall k,
  index < k ->
  DocumentList.filter_indexed (fun _ i => negb (Nat.eqb i index)) k l = l.
Proof.
  induction l as [|x l IH]; intros k Hk; [reflexivity|]. simpl.
  destruct (Nat.eqb_spec k index) as [->|_]; [lia|]. simpl.
  f_equal. apply IH. lia.
Qed.

Lemma filter_indexed_deletes {A} (l : list A) : forall k i,
  DocumentList.filter_indexed (fun _ j => negb (Nat.eqb j (k + i))) k l
  = (take i l ++ drop (S i) l)%list.
Proof.
  induction l as [|x l IH]; intros k i; simpl.
  - by destruct i.
  - destruct i as [|i].
    + rewrite Nat.add_0_r, Nat.eqb_refl. simpl.
      rewrite drop_0. apply filter_indexed_above. lia.
    + destruct (Nat.eqb_spec k (k + S i)) as [Heq|_]; [lia|]. simpl.
      f_equal. replace (k + S i) with (S k + i) by lia. apply IH.
Qed.

(** X10. Removing row [index] of the metadata editor removes that row and
    keeps the others in their order; an index past the last row removes
    nothing. *)
Theorem removeMetadataRow_removes_that_row
    (index : nat) (rows : list DocumentList.MetadataRow) :
  DocumentList.removeMetadataRow index rows
  = (take index rows ++ drop (S index) rows)%list
  /\ (index < length rows ->
      length (DocumentList.removeMetadataRow index rows) = length rows - 1)
  /\ (length rows <= index -> DocumentList.removeMetadataRow index rows = rows).
Proof.
  assert (H : DocumentList.removeMetadataRow index rows
              = (take index rows ++ drop (S index) rows)%list)
    by apply (filter_indexed_deletes rows 0 index).
  split; [exact H|]. rewrite H. split.
  - intros Hlt. rewrite length_app, length_take, length_drop. lia.
  - intros Hge. rewrite take_ge, drop_ge by lia. apply app_nil_r.
Qed.

(** X11. A row added to the metadata editor and removed again leaves the
    rows that were there: adding appends a blank row at the end, and
    removing the row at the old length undoes it. *)
Theorem removeMetadataRow_undoes_addMetadataRow
    (rows : list DocumentList.MetadataRow) :
  DocumentList.addMetadataRow rows = (rows ++ [DocumentList.blank_row])%list
  /\ DocumentList.removeMetadataRow (length rows)
       (DocumentList.addMetadataRow rows) = rows.
Proof.
  split; [reflexivity|]. unfold DocumentList.addMetadataRow.
  rewrite (filter_indexed_deletes _ 0 (length rows) : DocumentList.removeMetadataRow _ _ = _).
  rewrite take_app_length, drop_ge by (rewrite length_app; simpl; lia).
  apply app_nil_r.
Qed.

Lemma formattedMetadata_entries trim rows :
  DocumentList.formattedMetadata trim rows = omap (entry_of trim) rows.
Proof.
  unfold DocumentList.formattedMetadata, entry_of.
  induction rows as [|row rows IH]; [reflexivity|]. cbn.
  destruct (String.eqb (trim (DocumentList.row_key row)) ""); cbn;
    [|f_equal]; exact IH.
Qed.

(** X12. Confirming the dialog without a file does nothing.  With a file
    it calls [onUpload] once, with that file and with one entry for each row
    whose trimmed key is not empty, in the order of the rows, holding the
    trimmed key and the trimmed value: the entries are the rows mapped one by
    one, the rows with a blank key dropped.  So no entry with an empty key is
    ever passed on.  The dialog is then back in its initial state. *)
Theorem handleConfirmUpload_passes_keyed_metadata
    (trim : string -> string) (st : DocumentList.State) :
  (DocumentList.selectedFile st = None ->
   DocumentList.handleConfirmUpload trim st = (st, None))
  /\ (forall file,
        DocumentList.selectedFile st = Some file ->
        exists entries,
          DocumentList.handleConfirmUpload trim st
          = (DocumentList.initial, Some (file, entries))
          /\ entries = omap (entry_of trim) (DocumentList.metadata st)
          /\ Forall (fun m => key m <> "") entries
          /\ length entries <= length (DocumentList.metadata st)
          /\ forall k v,
               {| key := k; stringValue := v |} ∈ entries <->
               exists row,
                 row ∈ DocumentList.metadata st
                 /\ k = trim (DocumentList.row_key row)
                 /\ v = trim (DocumentList.row_value row)
                 /\ k <> "").
Proof.
  unfold DocumentList.handleConfirmUpload. split.
  - intros H. by rewrite H.
  - intros file H. rewrite H.
    exists (DocumentList.formattedMetadata trim (DocumentList.metadata st)).
    split; [reflexivity|]. split; [apply formattedMetadata_entries|].
    unfold DocumentList.formattedMetadata.
    split; [|split].
    + apply Forall_forall. intros m Hin. apply list_elem_of_In in Hin.
      apply in_map_iff in Hin as (row & <- & Hrow).
      apply filter_In in Hrow as [_ Hkey]. simpl.
      by destruct (String.eqb_spec (trim (DocumentList.row_key row)) "").
    + rewrite length_map. apply filter_length_le.
    + intros k v. rewrite list_elem_of_In, in_map_iff. split.
      * intros (row & [= <- <-] & Hrow).
        apply filter_In in Hrow as [Hin Hkey]. exists row.
        rewrite list_elem_of_In. repeat split; try done.
        by destruct (String.eqb_spec (trim (DocumentList.row_key row)) "").
      * intros (row & Hin & -> & -> & Hne). exists row. split; [reflexivity|].
        apply filter_In. split; [by apply list_elem_of_In|].
        by destruct (String.eqb_spec (trim (DocumentList.row_key row)) "").
Qed.

Lemma handleConfirmUpload_passes_keyed_metadata_witness :
  DocumentList.handleConfirmUpload (fun s => s) filled_dialog
  = (DocumentList.initial,
     Some (sop_pdf, [ {| key := "version"; stringValue := "2.1" |};
                      {| key := "line"; stringValue := "B" |} ])).
Proof.
  destruct (handleConfirmUpload_passes_keyed_metadata (fun s => s)
              filled_dialog) as [_ with_file].
  destruct (with_file sop_pdf eq_refl) as (entries & Hrun & _).
  reflexivity.
Defined.

(** ** The management view *)

Lemma iterate_returns {A R} (body : option A -> R -> Exn + R) :
  (forall item acc, exists acc', body (Some item) acc = inr acc') ->
  forall page acc, exists acc', iterate body page acc = inr acc'.
Proof.
  intros Hitem. induction page as [|item page IH]; intros acc; simpl.
  - by exists acc.
  - destruct (Hitem item acc) as [acc' ->]. apply IH.
Qed.

(** A loop whose body only raises on [undefined] is rejected by a page
    request or by a page behind the first that has no item. *)
Lemma for_await_thrown {A R} next (body : option A -> R -> Exn + R) later :
  (forall item acc, exists acc', body (Some item) acc = inr acc') ->
  (forall acc, body None acc = inl TypeError) ->
  forall page acc w e w',
    for_await next body page later acc w = (Thrown e, w') ->
    inl e ∈ later \/ e = TypeError /\ (inr [] : Exn + list A) ∈ later.
Proof.
  intros Hitem Hundefined.
  induction later as [|reply later IH]; intros page acc w e w'; simpl;
    destruct (iterate_returns body Hitem page acc) as [acc' ->].
  - discriminate.
  - unfold bind at 1. destruct reply as [e0|[|item page']].
    + rewrite await_rejects. intros [= <- _]. left. apply list_elem_of_here.
    + rewrite await_resolves, Hundefined. intros [= <- _]. right.
      split; [reflexivity | apply list_elem_of_here].
    + rewrite await_resolves. intros H.
      destruct (IH _ _ _ _ _ H) as [Hin|[-> Hin]]; [left | right; split; [done|]];
        by apply list_elem_of_further.
Qed.

Lemma listing_thrown {A R} first next (body : option A -> R -> Exn + R)
    pager acc w e w' :
  (forall item acc, exists acc', body (Some item) acc = inr acc') ->
  (forall acc, body None acc = inl TypeError) ->
  (let* response := list_call first pager in
   for_await next body response.1 response.2 acc)%js w = (Thrown e, w') ->
  inl e ∈ pager \/ e = TypeError /\ (inr [] : Exn + list A) ∈ tail pager.
Proof.
  intros Hitem Hundefined. destruct pager as [|reply later]; unfold list_call.
  - discriminate.
  - cbv [bind]. destruct reply as [e0|page].
    + rewrite await_rejects. intros [= <- _]. left. apply list_elem_of_here.
    + rewrite await_resolves. unfold ret. simpl. intros H.
      destruct (for_await_thrown _ _ _ Hitem Hundefined _ _ _ _ _ H)
        as [Hin|[-> Hin]]; [left; by apply list_elem_of_further | by right].
Qed.

Lemma listRagStores_thrown B w client e w' :
  ai w = Some client ->
  listRagStores B w = (Thrown e, w') ->
  inl e ∈ fileSearchStores_list B
  \/ e = TypeError
     /\ (inr [] : Exn + list FileSearchStore) ∈ tail (fileSearchStores_list B).
Proof.
  intros Hai. unfold listRagStores. rewrite (guarded_ready _ _ _ Hai).
  apply listing_thrown; [|done]. intros store stores. by eexists.
Qed.

Lemma loadStores_run B key w s :
  ManagementView.loadStores B (Some key) (w, s) =
  match listRagStores B (initialize (Some key) w).2 with
  | (Returned fetchedStores, w') =>
      (Returned tt,
       (w', ManagementView.setIsLoadingStores false
              (ManagementView.setStores fetchedStores s)))
  | (Thrown err, w') =>
      (Returned tt,
       (w', ManagementView.setIsLoadingStores false
              (ManagementView.report "Failed to load document stores" err s)))
  | (Pending, w') => (Pending, (w', ManagementView.setIsLoadingStores true s))
  end.
Proof.
  unfold ManagementView.loadStores.
  cbv [ManagementView.ui_bind ManagementView.set ManagementView.call
       ManagementView.try_catch_finally ManagementView.ui_try_catch
       ManagementView.ui_ret]; simpl.
  destruct (listRagStores B _) as [[fetched|err|] w']; reflexivity.
Qed.

(** Without a key the constructor raises inside the [try]. *)
Lemma loadStores_without_key B w s :
  ManagementView.loadStores B None (w, s) =
  (Returned tt,
   (w, ManagementView.setIsLoadingStores false
         (ManagementView.report "Failed to load document stores"
            MissingApiKey s))).
Proof. reflexivity. Qed.

(** X13. [loadStores] can be called in any world, initialized or not: it
    always resolves and always leaves [isLoadingStores] false.  With a key
    configured it initializes the client before it lists.  Either the listing
    resolved and its records are the stores on display; or the listing was
    rejected, because a page request failed or because a page behind the
    first came without items and the loop raised a [TypeError] on it, and the
    error was handed to [handleError] with the message "Failed to load
    document stores", the stores on display untouched.  Without a key the
    constructor of the client raises inside the [try]: its error is reported
    under the same message, no request is made and the client stays as it
    was.  Nothing else of the state changes. *)
Theorem loadStores_always_resolves
    (B : Backend) (VITE_GEMINI_API_KEY : option string)
    (w : World) (s : ManagementView.State) :
  exists w' s',
    ManagementView.loadStores B VITE_GEMINI_API_KEY (w, s)
    = (Returned tt, (w', s'))
    /\ ManagementView.isLoadingStores s' = false
    /\ ((exists key fetchedStores,
           VITE_GEMINI_API_KEY = Some key
           /\ ai w' = Some {| apiKey := Some key |}
           /\ listRagStores B (initialize (Some key) w).2
              = (Returned fetchedStores, w')
           /\ s' = ManagementView.setIsLoadingStores false
                     (ManagementView.setStores fetchedStores s))
        \/ (exists key err,
              VITE_GEMINI_API_KEY = Some key
              /\ ai w' = Some {| apiKey := Some key |}
              /\ listRagStores B (initialize (Some key) w).2 = (Thrown err, w')
              /\ (inl err ∈ fileSearchStores_list B
                  \/ err = TypeError
                     /\ (inr [] : Exn + list FileSearchStore)
                        ∈ tail (fileSearchStores_list B))
              /\ s' = ManagementView.setIsLoadingStores false
                        (ManagementView.report
                           "Failed to load document stores" err s))
        \/ (VITE_GEMINI_API_KEY = None
            /\ w' = w
            /\ s' = ManagementView.setIsLoadingStores false
                      (ManagementView.report
                         "Failed to load document stores" MissingApiKey s))).
Proof.
  destruct VITE_GEMINI_API_KEY as [key|].
  - rewrite loadStores_run.
    pose proof (listRagStores_extends B (initialize (Some key) w).2) as Hext.
    pose proof (listRagStores_settles B (initialize (Some key) w).2) as Hset.
    destruct (listRagStores B (initialize (Some key) w).2)
      as [[fetchedStores|err|] w'] eqn:Hlist; simpl in *; [| |done].
    + eexists w', _. split; [reflexivity|]. split; [reflexivity|]. left.
      exists key, fetchedStores.
      split; [reflexivity|]. split; [by destruct Hext as [-> _]|].
      split; [exact Hlist | reflexivity].
    + eexists w', _. split; [reflexivity|]. split; [reflexivity|]. right. left.
      exists key, err.
      split; [reflexivity|]. split; [by destruct Hext as [-> _]|].
      split; [exact Hlist|]. split; [|reflexivity].
      by apply (listRagStores_thrown B _ {| apiKey := Some key |} _ _) in Hlist.
  - rewrite loadStores_without_key. eexists w, _.
    split; [reflexivity|]. split; [reflexivity|]. right. right. done.
Qed.

(** X14. With a key configured, whatever the world was, initialized or
    not: when every page request of the store listing succeeds and no page
    behind the first comes without items, [loadStores] leaves on display
    exactly the well-formed records of all pages, in page order, with nothing
    reported and [isLoadingStores] false; the requests made are the page
    requests of the listing, and the client is the one built from the key. *)
Theorem loadStores_shows_the_listed_stores
    (B : Backend) (key : string)
    (pages : list (list FileSearchStore))
    (w : World) (s : ManagementView.State) :
  fileSearchStores_list B = map inr pages ->
  no_empty_later_page pages = true ->
  ManagementView.loadStores B (Some key) (w, s)
  = (Returned tt,
     ({| ai := Some {| apiKey := Some key |};
         trace := (trace w
                   ++ page_requests StoresList StoresNextPage (length pages))%list;
         polls := polls w |},
      ManagementView.setIsLoadingStores false
        (ManagementView.setStores (omap well_formed_store (concat pages)) s))).
Proof.
  intros Hpages Hitems. rewrite loadStores_run.
  rewrite (listRagStores_run B pages (initialize (Some key) w).2
             {| apiKey := Some key |} eq_refl Hpages Hitems).
  reflexivity.
Qed.

Lemma loadStores_shows_the_listed_stores_witness :
  ManagementView.loadStores (with_listings paged_stores paged_files)
    (Some "key") (fresh, ManagementView.initial)
  = (Returned tt,
     (emits [Call StoresList; Call StoresNextPage; Call StoresNextPage] ready,
      ManagementView.setIsLoadingStores false
        (ManagementView.setStores
           [ {| name := "fileSearchStores/a"; displayName := "Assembly" |};
             {| name := "fileSearchStores/c"; displayName := "Calibration" |} ]
           ManagementView.initial))).
Proof.
  apply (loadStores_shows_the_listed_stores
           (with_listings paged_stores paged_files) "key" paged_stores
           fresh ManagementView.initial); reflexivity.
Defined.

Lemma handleUploadDocument_run B fuel file metadata w s store :
  ManagementView.selectedStore s = Some store ->
  ManagementView.handleUploadDocument B fuel file metadata (w, s) =
  match uploadDocument B fuel (name store) file metadata w with
  | (Returned _, w1) =>
      match listDocumentsInStore B (name store) w1 with
      | (Returned fetchedDocs, w2) =>
          (Returned tt,
           (w2, ManagementView.setProcessingFile None
                  (ManagementView.setDocuments (fun _ => fetchedDocs) s)))
      | (Thrown err, w2) =>
          (Returned tt,
           (w2, ManagementView.setProcessingFile None
                  (ManagementView.report ("Failed to upload " ++ file_name file)
                     err s)))
      | (Pending, w2) =>
          (Pending,
           (w2, ManagementView.setProcessingFile (Some (file_name file)) s))
      end
  | (Thrown err, w1) =>
      (Returned tt,
       (w1, ManagementView.setProcessingFile None
              (ManagementView.report ("Failed to upload " ++ file_name file)
                 err s)))
  | (Pending, w1) =>
      (Pending, (w1, ManagementView.setProcessingFile (Some (file_name file)) s))
  end.
Proof.
  intros Hsel. unfold ManagementView.handleUploadDocument. simpl. rewrite Hsel.
  cbv [ManagementView.ui_bind ManagementView.set ManagementView.call
       ManagementView.try_catch_finally ManagementView.ui_try_catch
       ManagementView.ui_ret]; simpl.
  destruct (uploadDocument B fuel (name store) file metadata w)
    as [[[]|err|] w1]; simpl; try reflexivity.
  destruct (listDocumentsInStore B (name store) w1)
    as [[fetchedDocs|err|] w2]; reflexivity.
Qed.



(** X16. An upload that goes well ends with the documents of the selected
    store on display.  With a store selected and the client initialized,
    when the operation is reported done at the status request after [k]
    unfinished ones and every page request of the file listing succeeds,
    no page behind the first coming without items,
    [handleUploadDocument] makes the upload request, [k + 1] status requests
    and then the page requests, reports nothing, clears the indicator and
    shows exactly the listed documents whose names lie under the store. *)
Theorem handleUploadDocument_shows_the_store_after_upload
    (B : Backend) (file : JsFile) (metadata : list CustomMetadata)
    (w : World) (client : GoogleGenAI) (s : ManagementView.State)
    (store : RagStore) (started : Operation) (k : nat)
    (files : list (list Document)) :
  ai w = Some client ->
  ManagementView.selectedStore s = Some store ->
  uploadToFileSearchStore B (uploadDocument_params (name store) file metadata)
  = inr started ->
  truthy_bool (done started) = false ->
  (forall i, i < k -> reports_unfinished B (polls w + i)) ->
  reports_finished B (polls w + k) ->
  files_list B = map inr files ->
  no_empty_later_page files = true ->
  forall fuel, k < fuel ->
    exists ops,
      length ops = S k
      /\ ManagementView.handleUploadDocument B fuel file metadata (w, s)
         = (Returned tt,
            ({| ai := ai w;
                trace := (trace w
                          ++ Call (UploadToFileSearchStore
                                     (uploadDocument_params (name store) file
                                        metadata))
                          :: poll_rounds ops
                          ++ page_requests FilesList FilesNextPage
                               (length files))%list;
                polls := polls w + S k |},
             ManagementView.setProcessingFile None
               (ManagementView.setDocuments
                  (fun _ => List.filter (in_store_scope (name store))
                              (concat files)) s))).
Proof.
  intros Hai Hsel Hup Hstarted Hbefore Hat Hfiles Hitems fuel Hfuel.
  rewrite (handleUploadDocument_run _ _ _ _ _ _ _ Hsel).
  rewrite (uploadDocument_run B _ _ _ _ _ _ _ Hai Hup).
  destruct (poll_returns B k fuel started
              (emit (Call (UploadToFileSearchStore
                             (uploadDocument_params (name store) file
                                metadata))) w)
              Hstarted Hbefore Hat Hfuel) as (ops & Hlen & ->).
  exists ops. split; [exact Hlen|].
  erewrite listDocumentsInStore_run; [|exact Hai|exact Hfiles|exact Hitems].
  unfold emits, emit; simpl. by rewrite <- !app_assoc.
Qed.

Lemma handleUploadDocument_shows_the_store_after_upload_witness :
  exists ops,
    length ops = 3
    /\ ManagementView.handleUploadDocument
         (override_pagers [] (map inr paged_files)
            (with_operation just_started succeeded 2))
         5 sop_pdf [] (ready, managing)
       = (Returned tt,
          ({| ai := ai ready;
              trace := (trace ready
                        ++ Call (UploadToFileSearchStore
                                   (uploadDocument_params (name assembly)
                                      sop_pdf []))
                        :: poll_rounds ops
                        ++ page_requests FilesList FilesNextPage
                             (length paged_files))%list;
              polls := polls ready + 3 |},
           ManagementView.setProcessingFile None
             (ManagementView.setDocuments
                (fun _ => List.filter (in_store_scope (name assembly))
                            (concat paged_files)) managing))).
Proof.
  apply (handleUploadDocument_shows_the_store_after_upload
           (override_pagers [] (map inr paged_files)
              (with_operation just_started succeeded 2))
           sop_pdf [] ready {| apiKey := Some "key" |} managing assembly
           just_started 2 paged_files); try reflexivity.
  - intros i Hi op. destruct i as [|[|i]]; [| |lia];
      eexists; split; reflexivity.
  - intros op. eexists; split; reflexivity.
  - lia.
Defined.

Lemma handleDeleteDocument_run B docName w s store :
  ManagementView.selectedStore s = Some store ->
  ManagementView.handleDeleteDocument B docName true (w, s) =
  match deleteDocument B docName w with
  | (Returned _, w') =>
      (Returned tt,
       (w', ManagementView.setDocuments
              (List.filter
                 (fun d => negb (bool_decide (doc_name d = Some docName)))) s))
  | (Thrown err, w') =>
      (Returned tt, (w', ManagementView.report "Failed to delete document" err s))
  | (Pending, w') => (Pending, (w', s))
  end.
Proof.
  intros Hsel. unfold ManagementView.handleDeleteDocument. simpl. rewrite Hsel.
  cbv [ManagementView.ui_bind ManagementView.set ManagementView.call
       ManagementView.ui_try_catch ManagementView.ui_ret]; simpl.
  destruct (deleteDocument B docName w) as [[[]|err|] w']; reflexivity.
Qed.

(** X17. Deleting a document the user has confirmed takes exactly that
    document off the display.  With a store selected and the client
    initialized: when the backend accepts the deletion, the documents on
    display afterwards are those from before whose name is not the deleted
    one, in their order, and the listing is not requested again; when the
    backend rejects it, the display is untouched and the error is reported
    with "Failed to delete document".  A declined confirmation changes
    neither the world nor the state. *)
Theorem handleDeleteDocument_removes_the_document_from_display
    (B : Backend) (docName : string)
    (w : World) (client : GoogleGenAI) (s : ManagementView.State)
    (store : RagStore) :
  ai w = Some client ->
  ManagementView.selectedStore s = Some store ->
  (files_delete B docName = inr tt ->
   exists s',
     ManagementView.handleDeleteDocument B docName true (w, s)
     = (Returned tt, (emit (Call (FilesDelete docName)) w, s'))
     /\ ManagementView.reported s' = ManagementView.reported s
     /\ ManagementView.documents s'
        = List.filter (fun d => negb (bool_decide (doc_name d = Some docName)))
            (ManagementView.documents s)
     /\ forall doc,
          doc ∈ ManagementView.documents s' <->
          doc ∈ ManagementView.documents s /\ doc_name doc <> Some docName)
  /\ (forall err,
        files_delete B docName = inl err ->
        ManagementView.handleDeleteDocument B docName true (w, s)
        = (Returned tt,
           (emit (Call (FilesDelete docName)) w,
            ManagementView.report "Failed to delete document" err s)))
  /\ ManagementView.handleDeleteDocument B docName false (w, s)
     = (Returned tt, (w, s)).
Proof.
  intros Hai Hsel. split; [|split].
  - intros Hdel. rewrite (handleDeleteDocument_run _ _ _ _ _ Hsel).
    unfold deleteDocument. rewrite (guarded_ready _ _ _ Hai), Hdel.
    rewrite await_resolves. eexists. split; [reflexivity|].
    split; [reflexivity|]. split; [reflexivity|].
    intros doc. simpl. rewrite !list_elem_of_In, filter_In.
    rewrite negb_true_iff, bool_decide_eq_false. reflexivity.
  - intros err Hdel. rewrite (handleDeleteDocument_run _ _ _ _ _ Hsel).
    unfold deleteDocument. rewrite (guarded_ready _ _ _ Hai), Hdel.
    by rewrite await_rejects.
  - unfold ManagementView.handleDeleteDocument. simpl. by rewrite Hsel.
Qed.

Lemma handleDeleteDocument_removes_the_document_from_display_witness :
  ManagementView.handleDeleteDocument quiet "fileSearchStores/a/1" true
    (ready, managing)
  = (Returned tt,
     (emit (Call (FilesDelete "fileSearchStores/a/1")) ready,
      ManagementView.setDocuments
        (fun _ => [doc_of (Some "fileSearchStores/a/4")]) managing))
  /\ ManagementView.handleDeleteDocument
       (override_deletes (inr tt) (inl unavailable) quiet)
       "fileSearchStores/a/1" true (ready, managing)
     = (Returned tt,
        (emit (Call (FilesDelete "fileSearchStores/a/1")) ready,
         ManagementView.report "Failed to delete document" unavailable
           managing)).
Proof.
  split.
  - destruct (handleDeleteDocument_removes_the_document_from_display quiet
                "fileSearchStores/a/1" ready {| apiKey := Some "key" |}
                managing assembly eq_refl eq_refl) as [accepted _].
    destruct (accepted eq_refl) as (s' & Hrun & _). reflexivity.
  - destruct (handleDeleteDocument_removes_the_document_from_display
                (override_deletes (inr tt) (inl unavailable) quiet)
                "fileSearchStores/a/1" ready {| apiKey := Some "key" |}
                managing assembly eq_refl eq_refl) as (_ & rejected & _).
    exact (rejected unavailable eq_refl).
Defined.

(** What [loadStores] leaves alone. *)
Lemma loadStores_resolves B key w s :
  exists w' s',
    ManagementView.loadStores B key (w, s) = (Returned tt, (w', s'))
    /\ ManagementView.isLoadingStores s' = false
    /\ ManagementView.selectedStore s' = ManagementView.selectedStore s
    /\ ManagementView.documents s' = ManagementView.documents s
    /\ ManagementView.queryResult s' = ManagementView.queryResult s.
Proof.
  destruct key as [key|].
  - rewrite loadStores_run.
    pose proof (listRagStores_settles B (initialize (Some key) w).2) as Hset.
    destruct (listRagStores B (initialize (Some key) w).2)
      as [[fetched|err|] w'];
      simpl in *; [| |done]; eexists _, _; repeat split; reflexivity.
  - rewrite loadStores_without_key. eexists _, _; repeat split; reflexivity.
Qed.

(** What [loadStores] does to the trace: it adds to its end. *)
Lemma loadStores_trace B key w s :
  exists evs,
    trace (ManagementView.loadStores B key (w, s)).2.1 = (trace w ++ evs)%list.
Proof.
  destruct key as [key|].
  - rewrite loadStores_run.
    destruct (listRagStores_extends B (initialize (Some key) w).2)
      as (_ & (evs & Htrace) & _).
    exists evs.
    destruct (listRagStores B (initialize (Some key) w).2)
      as [[fetched|err|] w']; exact Htrace.
  - rewrite loadStores_without_key. exists []. simpl. by rewrite app_nil_r.
Qed.

(** The selection after the store [storeName] has been deleted. *)
Lemma handleDeleteStore_run B key storeName w s :
  ManagementView.handleDeleteStore B key storeName true (w, s) =
  match deleteRagStore B storeName w with
  | (Returned _, w1) =>
      ManagementView.loadStores B key (w1, without_store storeName s)
  | (Thrown err, w1) =>
      (Returned tt, (w1, ManagementView.report "Failed to delete store" err s))
  | (Pending, w1) => (Pending, (w1, s))
  end.
Proof.
  unfold ManagementView.handleDeleteStore.
  cbv [ManagementView.ui_bind ManagementView.ui_try_catch ManagementView.call
       ManagementView.ui_ret]; simpl.
  destruct (deleteRagStore B storeName w) as [[[]|err|] w1]; simpl;
    try reflexivity.
  set (s1 := without_store storeName s).
  assert (Hs1 : match ManagementView.selectedStore s with
                | Some store =>
                    if String.eqb (name store) storeName
                    then ManagementView.set (ManagementView.setSelectedStore None)
                           (w1, s)
                    else (Returned tt, (w1, s))
                | None => (Returned tt, (w1, s))
                end = (Returned tt, (w1, s1))).
  { subst s1. unfold without_store.
    destruct (ManagementView.selectedStore s) as [store|];
      [destruct (String.eqb (name store) storeName)|]; reflexivity. }
  rewrite Hs1.
  destruct (loadStores_resolves B key w1 s1) as (w' & s' & -> & _).
  reflexivity.
Qed.

Lemma without_store_selection storeName s :
  ManagementView.selectedStore (without_store storeName s)
  = match ManagementView.selectedStore s with
    | Some store =>
        if String.eqb (name store) storeName then None else Some store
    | None => None
    end.
Proof.
  unfold without_store.
  destruct (ManagementView.selectedStore s) as [store|] eqn:Hs;
    [destruct (String.eqb (name store) storeName)|]; simpl; by rewrite ?Hs.
Qed.

(** X18. Deleting a store the user has confirmed sends one forced
    deletion.  With the client initialized: when the backend accepts it, the
    selection is cleared if and only if the deleted store was the selected
    one, and the stores are loaded again: the handler goes on exactly as
    [loadStores] does from the world after the one deletion, so it resolves
    with [isLoadingStores] false; and when a key is configured and the
    listing goes through, the requests are the deletion and then the page
    requests of the listing, nothing more, and the stores on display are the
    records just listed.  When the backend rejects the deletion, the
    selection and the stores on display are untouched, no listing is
    requested and the error is reported with "Failed to delete store".  A
    declined confirmation changes neither the world nor the state. *)
Theorem handleDeleteStore_clears_the_selection_of_the_deleted_store
    (B : Backend) (VITE_GEMINI_API_KEY : option string) (storeName : string)
    (w : World) (client : GoogleGenAI) (s : ManagementView.State) :
  ai w = Some client ->
  (fileSearchStores_delete B storeName true = inr tt ->
   ManagementView.handleDeleteStore B VITE_GEMINI_API_KEY storeName true (w, s)
   = ManagementView.loadStores B VITE_GEMINI_API_KEY
       (emit (Call (StoresDelete storeName true)) w, without_store storeName s)
   /\ (exists w' s',
         ManagementView.handleDeleteStore B VITE_GEMINI_API_KEY storeName true
           (w, s)
         = (Returned tt, (w', s'))
         /\ (exists evs,
               trace w'
               = (trace w ++ Call (StoresDelete storeName true) :: evs)%list)
         /\ ManagementView.isLoadingStores s' = false
         /\ ManagementView.selectedStore s'
            = match ManagementView.selectedStore s with
              | Some store =>
                  if String.eqb (name store) storeName then None else Some store
              | None => None
              end)
   /\ (forall key pages,
         VITE_GEMINI_API_KEY = Some key ->
         fileSearchStores_list B = map inr pages ->
         no_empty_later_page pages = true ->
         ManagementView.handleDeleteStore B VITE_GEMINI_API_KEY storeName true
           (w, s)
         = (Returned tt,
            ({| ai := Some {| apiKey := Some key |};
                trace := (trace w
                          ++ Call (StoresDelete storeName true)
                          :: page_requests StoresList StoresNextPage
                               (length pages))%list;
                polls := polls w |},
             ManagementView.setIsLoadingStores false
               (ManagementView.setStores
                  (omap well_formed_store (concat pages))
                  (without_store storeName s))))))
  /\ (forall err,
        fileSearchStores_delete B storeName true = inl err ->
        ManagementView.handleDeleteStore B VITE_GEMINI_API_KEY storeName true
          (w, s)
        = (Returned tt,
           (emit (Call (StoresDelete storeName true)) w,
            ManagementView.report "Failed to delete store" err s)))
  /\ ManagementView.handleDeleteStore B VITE_GEMINI_API_KEY storeName false
       (w, s)
     = (Returned tt, (w, s)).
Proof.
  intros Hai. split; [|split]; [| |reflexivity].
  - intros Hdel.
    assert (Hrun : ManagementView.handleDeleteStore B VITE_GEMINI_API_KEY
                     storeName true (w, s)
                   = ManagementView.loadStores B VITE_GEMINI_API_KEY
                       (emit (Call (StoresDelete storeName true)) w,
                        without_store storeName s)).
    { rewrite handleDeleteStore_run. unfold deleteRagStore.
      by rewrite (guarded_ready _ _ _ Hai), Hdel, await_resolves. }
    split; [exact Hrun|]. rewrite Hrun. split.
    + destruct (loadStores_resolves B VITE_GEMINI_API_KEY
                  (emit (Call (StoresDelete storeName true)) w)
                  (without_store storeName s))
        as (w' & s' & Hload & Hloading & Hsel & _).
      destruct (loadStores_trace B VITE_GEMINI_API_KEY
                  (emit (Call (StoresDelete storeName true)) w)
                  (without_store storeName s)) as (evs & Htrace).
      rewrite Hload in Htrace. simpl in Htrace.
      exists w', s'. split; [exact Hload|]. split.
      * exists evs. by rewrite Htrace, <- app_assoc.
      * split; [exact Hloading|]. rewrite Hsel. apply without_store_selection.
    + intros key pages -> Hpages Hitems. rewrite loadStores_run.
      rewrite (listRagStores_run B pages
                 (initialize (Some key)
                    (emit (Call (StoresDelete storeName true)) w)).2
                 {| apiKey := Some key |} eq_refl Hpages Hitems).
      unfold emits, emit; simpl. by rewrite <- app_assoc.
  - intros err Hdel. rewrite handleDeleteStore_run.
    unfold deleteRagStore. rewrite (guarded_ready _ _ _ Hai), Hdel.
    by rewrite await_rejects.
Qed.

Lemma handleDeleteStore_clears_the_selection_of_the_deleted_store_witness :
  ManagementView.handleDeleteStore (with_listings paged_stores paged_files)
    (Some "key") "fileSearchStores/a" true (ready, managing)
  = (Returned tt,
     (emits [ Call (StoresDelete "fileSearchStores/a" true);
              Call StoresList; Call StoresNextPage; Call StoresNextPage ] ready,
      ManagementView.setIsLoadingStores false
        (ManagementView.setStores
           [ {| name := "fileSearchStores/a"; displayName := "Assembly" |};
             {| name := "fileSearchStores/c"; displayName := "Calibration" |} ]
           (ManagementView.setSelectedStore None managing))))
  /\ (exists w' s',
        ManagementView.handleDeleteStore quiet (Some "key")
          "fileSearchStores/c" true (ready, managing) = (Returned tt, (w', s'))
        /\ (exists evs,
              trace w'
              = (trace ready ++ Call (StoresDelete "fileSearchStores/c" true)
                 :: evs)%list)
        /\ ManagementView.isLoadingStores s' = false
        /\ ManagementView.selectedStore s' = Some assembly).
Proof.
  split.
  - destruct (handleDeleteStore_clears_the_selection_of_the_deleted_store
                (with_listings paged_stores paged_files) (Some "key")
                "fileSearchStores/a" ready {| apiKey := Some "key" |} managing
                eq_refl) as [accepted _].
    destruct (accepted eq_refl) as (_ & _ & listed).
    exact (listed "key" paged_stores eq_refl eq_refl eq_refl).
  - destruct (handleDeleteStore_clears_the_selection_of_the_deleted_store
                quiet (Some "key") "fileSearchStores/c" ready
                {| apiKey := Some "key" |} managing eq_refl) as [accepted _].
    destruct (accepted eq_refl) as (_ & resolved & _).
    exact resolved.
Defined.

(** X19. [handleCreateStore] never rejects.  When the creation fails, for
    whatever reason ([createRagStore] raised: client not initialized,
    request rejected, name missing in the reply), the error is reported with
    "Failed to create store" and the stores are not listed.  When it
    succeeds the handler goes on exactly as [loadStores] does from the world
    after the creation: a failure to list is then reported by [loadStores]
    under its own message, never as a failure to create. *)
Theorem handleCreateStore_reports_creation_failures_only
    (B : Backend) (VITE_GEMINI_API_KEY : option string) (displayName : string)
    (w : World) (s : ManagementView.State) :
  (exists w' s',
     ManagementView.handleCreateStore B VITE_GEMINI_API_KEY displayName (w, s)
     = (Returned tt, (w', s')))
  /\ (forall err w1,
        createRagStore B displayName w = (Thrown err, w1) ->
        ManagementView.handleCreateStore B VITE_GEMINI_API_KEY displayName
          (w, s)
        = (Returned tt,
           (w1, ManagementView.report "Failed to create store" err s)))
  /\ (forall storeName w1,
        createRagStore B displayName w = (Returned storeName, w1) ->
        ManagementView.handleCreateStore B VITE_GEMINI_API_KEY displayName
          (w, s)
        = ManagementView.loadStores B VITE_GEMINI_API_KEY (w1, s)).
Proof.
  assert (Hrun : ManagementView.handleCreateStore B VITE_GEMINI_API_KEY
                   displayName (w, s)
                 = match createRagStore B displayName w with
                   | (Returned _, w1) =>
                       ManagementView.loadStores B VITE_GEMINI_API_KEY (w1, s)
                   | (Thrown err, w1) =>
                       (Returned tt,
                        (w1, ManagementView.report "Failed to create store"
                               err s))
                   | (Pending, w1) => (Pending, (w1, s))
                   end).
  { unfold ManagementView.handleCreateStore.
    cbv [ManagementView.ui_bind ManagementView.ui_try_catch ManagementView.call];
      simpl.
    destruct (createRagStore B displayName w) as [[storeName|err|] w1]; simpl;
      try reflexivity.
    destruct (loadStores_resolves B VITE_GEMINI_API_KEY w1 s)
      as (w' & s' & -> & _).
    reflexivity. }
  rewrite Hrun.
  pose proof (createRagStore_settles B displayName w) as Hset.
  destruct (createRagStore B displayName w) as [[storeName|err|] w1];
    simpl in *; [| |done].
  - split; [|split].
    + destruct (loadStores_resolves B VITE_GEMINI_API_KEY w1 s)
        as (w' & s' & H & _). by exists w', s'.
    + discriminate.
    + by intros ? ? [= <- <-].
  - split; [by eexists _, _|]. split.
    + by intros ? ? [= <- <-].
    + discriminate.
Qed.

Lemma handleQuery_run B supportedLanguages Object_prototype query w s store :
  ManagementView.selectedStore s = Some store ->
  ManagementView.handleQuery B supportedLanguages Object_prototype query (w,
    s) =
  match fileSearch B supportedLanguages Object_prototype (name store) query
          (ManagementView.language s) w with
  | (Returned result, w') =>
      (Returned tt,
       (w', ManagementView.setIsQuerying false
              (ManagementView.setQueryResult (Some result) s)))
  | (Thrown err, w') =>
      (Returned tt,
       (w', ManagementView.setIsQuerying false
              (ManagementView.report "Failed to execute query" err
                 (ManagementView.setQueryResult None s))))
  | (Pending, w') =>
      (Pending,
       (w', ManagementView.setQueryResult None
              (ManagementView.setIsQuerying true s)))
  end.
Proof.
  intros Hsel. unfold ManagementView.handleQuery. simpl. rewrite Hsel.
  cbv [ManagementView.ui_bind ManagementView.set ManagementView.call
       ManagementView.try_catch_finally ManagementView.ui_try_catch
       ManagementView.ui_ret]; simpl.
  destruct (fileSearch B supportedLanguages Object_prototype (name store) query
              (ManagementView.language s) w) as [[result|err|] w'];
    reflexivity.
Qed.

(** X20. With a store selected, [handleQuery] always resolves with
    [isQuerying] false, and the answer on display afterwards is never the
    one from before: it is the result of this query, asked in the language
    of the state against the selected store, or it is empty when the query
    failed, in which case the error is reported with "Failed to execute
    query".  Without a store selected nothing happens. *)
Theorem handleQuery_replaces_the_answer
    (B : Backend) (supportedLanguages : gmap string string)
    (Object_prototype : string -> option string) (query : string)
    (w : World) (s : ManagementView.State) :
  (forall store,
     ManagementView.selectedStore s = Some store ->
     exists w' s',
       ManagementView.handleQuery B supportedLanguages Object_prototype query
         (w, s)
       = (Returned tt, (w', s'))
       /\ ManagementView.isQuerying s' = false
       /\ ((exists result,
              fileSearch B supportedLanguages Object_prototype (name store)
                query
                (ManagementView.language s) w = (Returned result, w')
              /\ ManagementView.queryResult s' = Some result
              /\ ManagementView.reported s' = ManagementView.reported s)
           \/ (exists err,
                 fileSearch B supportedLanguages Object_prototype (name store)
                   query
                   (ManagementView.language s) w = (Thrown err, w')
                 /\ ManagementView.queryResult s' = None
                 /\ ManagementView.reported s'
                    = (ManagementView.reported s
                       ++ [("Failed to execute query", err)])%list)))
  /\ (ManagementView.selectedStore s = None ->
      ManagementView.handleQuery B supportedLanguages Object_prototype query
        (w, s)
      = (Returned tt, (w, s))).
Proof.
  split.
  - intros store Hsel. rewrite (handleQuery_run _ _ _ _ _ _ _ Hsel).
    pose proof (fileSearch_settles B supportedLanguages Object_prototype (name
      store) query
                  (ManagementView.language s) w) as Hset.
    destruct (fileSearch B supportedLanguages Object_prototype (name store)
      query
                (ManagementView.language s) w) as [[result|err|] w'];
      simpl in *; [| |done].
    + eexists _, _. split; [reflexivity|]. split; [reflexivity|].
      left. by exists result.
    + eexists _, _. split; [reflexivity|]. split; [reflexivity|].
      right. by exists err.
  - intros Hsel. unfold ManagementView.handleQuery. simpl. by rewrite Hsel.
Qed.

Lemma handleQuery_replaces_the_answer_witness :
  exists w' s',
    ManagementView.handleQuery (with_generate (inl unavailable)) languages
      browser_prototype
      "Torque?" (ready, ManagementView.setQueryResult
                          (Some {| qr_text := Some "old answer";
                                   qr_groundingChunks := [] |}) managing)
    = (Returned tt, (w', s'))
    /\ ManagementView.isQuerying s' = false
    /\ ManagementView.queryResult s' = None.
Proof.
  destruct (handleQuery_replaces_the_answer (with_generate (inl unavailable))
              languages browser_prototype "Torque?" ready
              (ManagementView.setQueryResult
                 (Some {| qr_text := Some "old answer";
                          qr_groundingChunks := [] |}) managing))
    as [selected _].
  destruct (selected assembly eq_refl)
    as (w' & s' & Hrun & Hquerying & [(result & Hsearch & _)|(err & _ & Hnone & _)]).
  - discriminate Hsearch.
  - by exists w', s'.
Defined.

Lemma iterate_invariant {A R} (P : R -> Prop)
    (body : option A -> R -> Exn + R) :
  (forall item acc acc', P acc -> body item acc = inr acc' -> P acc') ->
  forall page acc acc', P acc -> iterate body page acc = inr acc' -> P acc'.
Proof.
  intros Hbody. induction page as [|item page IH]; intros acc acc' Hacc; simpl.
  - by intros [= <-].
  - destruct (body (Some item) acc) as [e|acc1] eqn:Hitem; [discriminate|].
    apply IH. by eapply Hbody.
Qed.

Lemma for_await_invariant {A R} (P : R -> Prop) next
    (body : option A -> R -> Exn + R) later :
  (forall item acc acc', P acc -> body item acc = inr acc' -> P acc') ->
  forall page acc w r w',
    P acc ->
    for_await next body page later acc w = (Returned r, w') -> P r.
Proof.
  intros Hbody. induction later as [|reply later IH];
    intros page acc w r w' Hacc; simpl;
    (destruct (iterate body page acc) as [e|acc1] eqn:Hpage; [discriminate|]);
    pose proof (iterate_invariant P body Hbody _ _ _ Hacc Hpage) as Hacc1.
  - by intros [= <- _].
  - unfold bind at 1. destruct reply as [e|[|item page']].
    + by rewrite await_rejects.
    + rewrite await_resolves.
      destruct (body None acc1) as [e|acc2] eqn:Hundefined; [discriminate|].
      apply IH. by eapply Hbody.
    + rewrite await_resolves. by apply IH.
Qed.

Lemma listDocumentsInStore_in_scope B ragStoreName w documents w' :
  listDocumentsInStore B ragStoreName w = (Returned documents, w') ->
  Forall (fun doc => in_store_scope ragStoreName doc = true) documents.
Proof.
  unfold listDocumentsInStore. unfold bind at 1.
  destruct (require_ai w) as [[client|e|] w0]; try discriminate.
  unfold bind at 1.
  destruct (list_call FilesList (files_list B) w0) as [[response|e|] w1];
    try discriminate.
  apply for_await_invariant; [|constructor].
  intros [doc|] acc acc' Hacc; [|discriminate]. intros [= <-].
  unfold in_store_scope, startsWith.
  destruct (doc_name doc) as [n|] eqn:Hn; [|exact Hacc].
  destruct (String.prefix (ragStoreName ++ "/") n) eqn:Hp; [|exact Hacc].
  apply Forall_app. split; [exact Hacc|]. constructor; [|constructor].
  unfold in_store_scope. by rewrite Hn.
Qed.

(** X21. After the effect on the selection has run for a selected store,
    every document on display lies under that store: the display holds the
    listing for the store, or nothing when the listing failed (the error is
    then reported with "Failed to load documents for" and the display name),
    never the documents of the store selected before.  The previous answer
    is cleared and [isLoadingDocuments] is false.  With no store selected the
    documents and the answer are cleared and no request is made. *)
Theorem selectedStore_effect_shows_only_the_selected_store
    (B : Backend) (w : World) (s : ManagementView.State) :
  (forall store,
     ManagementView.selectedStore s = Some store ->
     exists w' s',
       ManagementView.selectedStore_effect B (w, s) = (Returned tt, (w', s'))
       /\ ManagementView.queryResult s' = None
       /\ ManagementView.isLoadingDocuments s' = false
       /\ Forall (fun doc => in_store_scope (name store) doc = true)
            (ManagementView.documents s')
       /\ ((exists fetchedDocs,
              listDocumentsInStore B (name store) w = (Returned fetchedDocs, w')
              /\ ManagementView.documents s' = fetchedDocs
              /\ ManagementView.reported s' = ManagementView.reported s)
           \/ (exists err,
                 listDocumentsInStore B (name store) w = (Thrown err, w')
                 /\ ManagementView.documents s' = []
                 /\ ManagementView.reported s'
                    = (ManagementView.reported s
                       ++ [(("Failed to load documents for "
                             ++ displayName store)%string, err)])%list)))
  /\ (ManagementView.selectedStore s = None ->
      ManagementView.selectedStore_effect B (w, s)
      = (Returned tt,
         (w, ManagementView.setQueryResult None
               (ManagementView.setDocuments (fun _ => []) s)))).
Proof.
  split.
  - intros store Hsel. unfold ManagementView.selectedStore_effect. simpl.
    rewrite Hsel.
    cbv [ManagementView.ui_bind ManagementView.set ManagementView.call
         ManagementView.try_catch_finally ManagementView.ui_try_catch
         ManagementView.ui_ret]; simpl.
    pose proof (listDocumentsInStore_settles B (name store) w) as Hset.
    pose proof (listDocumentsInStore_in_scope B (name store) w) as Hscope.
    destruct (listDocumentsInStore B (name store) w)
      as [[fetchedDocs|err|] w']; simpl in *; [| |done].
    + eexists _, _. split; [reflexivity|]. split; [reflexivity|].
      split; [reflexivity|]. split; [by eapply Hscope|].
      left. by exists fetchedDocs.
    + eexists _, _. split; [reflexivity|]. split; [reflexivity|].
      split; [reflexivity|]. split; [constructor|].
      right. by exists err.
  - intros Hsel. unfold ManagementView.selectedStore_effect. simpl.
    by rewrite Hsel.
Qed.

Lemma formattedMetadata_keys trim rows :
  Forall (fun m => key m <> "") (DocumentList.formattedMetadata trim rows).
Proof.
  apply Forall_forall. intros m Hin. apply list_elem_of_In in Hin.
  apply in_map_iff in Hin as (row & <- & Hrow).
  apply filter_In in Hrow as [_ Hkey]. simpl.
  by destruct (String.eqb_spec (trim (DocumentList.row_key row)) "").
Qed.

Lemma uploadDocument_starts_with_the_request B fuel ragStoreName file metadata
    w client :
  ai w = Some client ->
  exists evs,
    trace (uploadDocument B fuel ragStoreName file metadata w).2
    = (trace w
       ++ Call (UploadToFileSearchStore
                  (uploadDocument_params ragStoreName file metadata))
       :: evs)%list.
Proof.
  intros Hai. unfold uploadDocument. rewrite (guarded_ready _ _ _ Hai).
  unfold bind.
  destruct (uploadToFileSearchStore B _) as [e|op].
  - rewrite await_rejects. by exists [].
  - rewrite await_resolves.
    destruct (poll_extends B fuel op
                (emit (Call (UploadToFileSearchStore
                               (uploadDocument_params ragStoreName file
                                  metadata))) w)) as (_ & (evs & Htrace) & _).
    exists evs. rewrite Htrace. simpl. by rewrite <- app_assoc.
Qed.

(** X22. From the dialog to the backend: when the dialog is confirmed with
    a file and the management view has a store selected and an initialized
    client, the first request [handleUploadDocument] sends for what
    [handleConfirmUpload] passed on is the upload of that file to the
    selected store, under the name of the file, with the metadata of the
    dialog, none of whose keys is empty. *)
Theorem confirmed_upload_request_carries_keyed_metadata
    (trim : string -> string) (st : DocumentList.State)
    (B : Backend) (fuel : nat) (w : World) (client : GoogleGenAI)
    (s : ManagementView.State) (store : RagStore) (chosen : JsFile) :
  DocumentList.selectedFile st = Some chosen ->
  ManagementView.selectedStore s = Some store ->
  ai w = Some client ->
  exists entries evs,
    DocumentList.handleConfirmUpload trim st
    = (DocumentList.initial, Some (chosen, entries))
    /\ trace (ManagementView.handleUploadDocument B fuel chosen entries
                (w, s)).2.1
       = (trace w
          ++ Call (UploadToFileSearchStore
                     {| fileSearchStoreName := name store;
                        file := chosen;
                        up_displayName := Some (file_name chosen);
                        customMetadata := Some entries |})
          :: evs)%list
    /\ Forall (fun m => key m <> "") entries.
Proof.
  intros Hfile Hsel Hai.
  exists (DocumentList.formattedMetadata trim (DocumentList.metadata st)).
  set (entries := DocumentList.formattedMetadata trim (DocumentList.metadata st)).
  destruct (uploadDocument_starts_with_the_request B fuel (name store) chosen
              entries w client Hai) as (evs & Htrace).
  pose proof (listDocumentsInStore_extends B (name store)
                (uploadDocument B fuel (name store) chosen entries w).2) as Hext.
  rewrite (handleUploadDocument_run _ _ _ _ _ _ _ Hsel).
  destruct (uploadDocument B fuel (name store) chosen entries w)
    as [[[]|err|] w1]; simpl in *.
  - destruct Hext as (_ & (evs' & Htrace') & _).
    exists (evs ++ evs')%list.
    split; [unfold DocumentList.handleConfirmUpload; by rewrite Hfile|].
    split; [|apply formattedMetadata_keys].
    destruct (listDocumentsInStore B (name store) w1) as [[docs|err|] w2];
      simpl in *; rewrite Htrace', Htrace, <- app_assoc; reflexivity.
  - exists evs.
    split; [unfold DocumentList.handleConfirmUpload; by rewrite Hfile|].
    split; [exact Htrace | apply formattedMetadata_keys].
  - exists evs.
    split; [unfold DocumentList.handleConfirmUpload; by rewrite Hfile|].
    split; [exact Htrace | apply formattedMetadata_keys].
Qed.

Lemma confirmed_upload_request_carries_keyed_metadata_witness :
  exists entries evs,
    DocumentList.handleConfirmUpload (fun t => t) filled_dialog
    = (DocumentList.initial, Some (sop_pdf, entries))
    /\ trace (ManagementView.handleUploadDocument quiet 3 sop_pdf entries
                (ready, managing)).2.1
       = (trace ready
          ++ Call (UploadToFileSearchStore
                     {| fileSearchStoreName := name assembly;
                        file := sop_pdf;
                        up_displayName := Some (file_name sop_pdf);
                        customMetadata := Some entries |})
          :: evs)%list
    /\ Forall (fun m => key m <> "") entries.
Proof.
  apply (confirmed_upload_request_carries_keyed_metadata (fun t => t)
           filled_dialog quiet 3 ready {| apiKey := Some "key" |} managing
           assembly sop_pdf); reflexivity.
Defined.

(** X23. A listing that fails after the ingestion has gone through is
    reported as a failed upload.  With a store selected and the client
    initialized, when the upload request is answered with an operation that
    is done and a page request of the file listing then fails, the pages
    before it having come with items (but for the first, which may be empty),
    [handleUploadDocument] resolves, reports the error of the page request
    with "Failed to upload" and the file name, clears the indicator and
    leaves the documents on display as they were, although the file has
    been taken in. *)
Theorem handleUploadDocument_reports_a_failed_listing_as_a_failed_upload
    (B : Backend) (fuel : nat) (file : JsFile) (metadata : list CustomMetadata)
    (w : World) (client : GoogleGenAI) (s : ManagementView.State)
    (store : RagStore) (finished : Operation)
    (pages : list (list Document)) (err : Exn) (later : Pager Document) :
  ai w = Some client ->
  ManagementView.selectedStore s = Some store ->
  uploadToFileSearchStore B (uploadDocument_params (name store) file metadata)
  = inr finished ->
  truthy_bool (done finished) = true ->
  no_empty_later_page pages = true ->
  files_list B = (map inr pages ++ inl err :: later)%list ->
  ManagementView.handleUploadDocument B fuel file metadata (w, s)
  = (Returned tt,
     (emits (Call (UploadToFileSearchStore
                     (uploadDocument_params (name store) file metadata))
             :: page_requests FilesList FilesNextPage (S (length pages))) w,
      ManagementView.setProcessingFile None
        (ManagementView.report ("Failed to upload " ++ file_name file) err s))).
Proof.
  intros Hai Hsel Hup Hdone Hitems Hfiles.
  rewrite (handleUploadDocument_run _ _ _ _ _ _ _ Hsel).
  rewrite (ingestion_done_at_once B w client (name store) file metadata
             finished fuel Hai Hup Hdone).
  unfold listDocumentsInStore.
  rewrite (guarded_ready _ _ client) by exact Hai.
  rewrite Hfiles.
  rewrite (listing_fails
             (fun doc => if in_store_scope (name store) doc
                         then Some doc else None));
    [|intros doc documents; f_equal; apply documents_body_pushes|exact Hitems].
  change (emit ?ev w) with (emits [ev] w). by rewrite emits_emits.
Qed.

Lemma handleUploadDocument_reports_a_failed_listing_as_a_failed_upload_witness :
  ManagementView.handleUploadDocument
    (override_pagers [] [inr [doc_of (Some "fileSearchStores/a/1")];
                         inl unavailable] quiet)
    0 sop_pdf [] (ready, managing)
  = (Returned tt,
     (emits [ Call (UploadToFileSearchStore
                      (uploadDocument_params (name assembly) sop_pdf []));
              Call FilesList; Call FilesNextPage ] ready,
      ManagementView.setProcessingFile None
        (ManagementView.report "Failed to upload sop.pdf" unavailable managing))).
Proof.
  apply (handleUploadDocument_reports_a_failed_listing_as_a_failed_upload
           (override_pagers [] [inr [doc_of (Some "fileSearchStores/a/1")];
                                inl unavailable] quiet)
           0 sop_pdf [] ready {| apiKey := Some "key" |} managing assembly
           {| op_name := Some "operations/1"; done := Some true; error := None |}
           [[doc_of (Some "fileSearchStores/a/1")]] unavailable []);
    reflexivity.
Defined.
